(** * A shallow embedding of the multipass SFTP server

    Source file: [src/sshfs_mount/sftp_server.cpp].

    The development follows the layout of the C++ file: the free helper
    functions of the anonymous namespace first ([validate_path],
    [mapped_id_for], [reverse_id_for], the permission converters), then
    the [SftpServer] state and one definition per [handle_*] member
    function, then [process_message].  Calls that leave the server
    (Qt file objects, the [MP_FILEOPS] and [MP_PLATFORM] singletons, the
    libssh handle allocator) are operations of a signature; a handler is
    a finite tree of such operations, and it is run against an arbitrary
    environment that answers them.

    Conventions of the model:
    - a handler returns the reply it sends and the server state it
      leaves; the integer that libssh returns for the reply is not
      modelled;
    - [mpl::log] calls are left out, with the evaluation of their
      arguments;
    - paths are byte strings ([string]); the conversion of a path to a
      [QString] and back is taken to be the identity, as it is on valid
      UTF-8;
    - destructors of Qt objects that go out of scope are not recorded
      as operations;
    - the constructor and [run], which restarts sshfs, are modelled
      after the handlers, over a second signature for the calls into
      the SSH layer; the replacement of the process object and of the
      SFTP session is recorded as the call that makes them. *)

From Stdlib Require Import ZArith String Ascii List Lia Bool.
From stdpp Require Import base option gmap.
Import ListNotations.

Local Open Scope string_scope.
Local Open Scope list_scope.
Local Open Scope Z_scope.

(** ** Byte strings: [std::string::compare] *)

Module StdString.

(** [char_traits<char>::lt] compares bytes as unsigned values. *)
Definition byte_lt (a b : ascii) : bool := (N_of_ascii a <? N_of_ascii b)%N.

(** Three-way comparison of two byte strings, as [basic_string::compare]
    specifies it: the common prefix is compared byte by byte, and when
    it is equal the shorter string is the smaller one.  The result is
    negative, zero or positive. *)
Fixpoint compare3 (a b : string) : Z :=
  match a, b with
  | EmptyString, EmptyString => 0
  | EmptyString, String _ _ => -1
  | String _ _, EmptyString => 1
  | String x a', String y b' =>
      if byte_lt x y then -1
      else if byte_lt y x then 1
      else compare3 a' b'
  end.

(** [s.compare(pos, len, str)]: the substring of [s] that starts at
    [pos] and has [min len (size - pos)] bytes is compared with [str].
    ([pos > size] throws in C++; the server only calls it with
    [pos = 0].) *)
Definition compare (s : string) (pos len : nat) (str : string) : Z :=
  let rlen := Nat.min len (String.length s - pos) in
  compare3 (substring pos rlen s) str.

Definition empty (s : string) : bool :=
  match s with EmptyString => true | _ => false end.

End StdString.

(** ** Path confinement *)

(** [validate_path(source_path, current_path)], lines 214-220. *)
Definition validate_path (source_path current_path : string) : bool :=
  if StdString.empty source_path then false
  else StdString.compare current_path 0 (String.length source_path) source_path =? 0.

(** ** Identity mapping *)

(** [mp::id_mappings] is a [std::vector<std::pair<int, int>>]: an ordered
    list of [(host_id, remote_id)] pairs in which duplicates may occur. *)
Definition id_mappings : Type := list (Z * Z).

(** [std::find_if(first, last, pred)]: the first element that satisfies
    the predicate, [None] standing for the [end] iterator. *)
Definition find_if {A : Type} (pred : A -> bool) (l : list A) : option A :=
  List.find pred l.

(** The two sentinels are declared in a header of the repository outside
    the surveyed sources; the functions are parametric in them. *)
Class IdSentinels : Type := {
  no_id_info_available : Z;
  default_id : Z
}.

Section IdMapping.
Context `{IdSentinels}.

(** [mapped_id_for(id_maps, id, id_if_not_found)], lines 255-271. *)
Definition mapped_id_for (id_maps : id_mappings) (id id_if_not_found : Z) : Z :=
  if id =? no_id_info_available then id_if_not_found
  else
    match find_if (fun p : Z * Z => id =? fst p) id_maps with
    | Some map =>
        if snd map =? default_id then id_if_not_found else snd map
    | None => id
    end.

(** [reverse_id_for(id_maps, id, rev_id_if_not_found)], lines 273-278. *)
Definition reverse_id_for (id_maps : id_mappings) (id rev_id_if_not_found : Z) : Z :=
  match find_if (fun p : Z * Z => id =? snd p) id_maps with
  | None => rev_id_if_not_found
  | Some found => fst found
  end.

End IdMapping.

(** ** Machine integers

    Ids travel as [int], attribute fields as [uint32_t] and [uint64_t];
    the conversions between them wrap around. *)

Definition to_int (z : Z) : Z := (z + 2 ^ 31) mod 2 ^ 32 - 2 ^ 31.
Definition to_uint32 (z : Z) : Z := z mod 2 ^ 32.
Definition to_uint64 (z : Z) : Z := z mod 2 ^ 64.

(** [x & flag] used as a condition. *)
Definition test_bits (x flag : Z) : bool := negb (Z.land x flag =? 0).

(** [if (cond) out |= flag;] *)
Definition or_if (cond : bool) (flag out : Z) : Z :=
  if cond then Z.lor out flag else out.

(** ** Constants and pure helpers of the libraries the server is built on

    None of these is declared in the surveyed sources: the Qt flag
    values, the libssh protocol constants, and three pure functions
    (lexical parent path, date formatting, integer formatting). *)

Class QtLib : Type := {
  (* QIODevice::OpenModeFlag *)
  QIODevice_NotOpen : Z;
  QIODevice_ReadOnly : Z;
  QIODevice_WriteOnly : Z;
  QIODevice_Append : Z;
  QIODevice_Truncate : Z;
  (* QFileDevice::Permission *)
  QFileDevice_ReadOwner : Z;
  QFileDevice_WriteOwner : Z;
  QFileDevice_ExeOwner : Z;
  QFileDevice_ReadUser : Z;
  QFileDevice_WriteUser : Z;
  QFileDevice_ExeUser : Z;
  QFileDevice_ReadGroup : Z;
  QFileDevice_WriteGroup : Z;
  QFileDevice_ExeGroup : Z;
  QFileDevice_ReadOther : Z;
  QFileDevice_WriteOther : Z;
  QFileDevice_ExeOther : Z;
  (* QFileInfo(name).path(): the name without its last component *)
  QFileInfo_path : string -> string;
  (* QDateTime::toString("MMM d hh:mm:ss yyyy") of a time in msecs *)
  QDateTime_toString : Z -> string;
  (* fmt's rendering of an integer with "{}" *)
  fmt_int : Z -> string
}.

Class Libssh : Type := {
  SSH_FXF_READ : Z;
  SSH_FXF_WRITE : Z;
  SSH_FXF_APPEND : Z;
  SSH_FXF_TRUNC : Z;
  SSH_FILEXFER_ATTR_SIZE : Z;
  SSH_FILEXFER_ATTR_UIDGID : Z;
  SSH_FILEXFER_ATTR_PERMISSIONS : Z;
  SSH_FILEXFER_ATTR_ACMODTIME : Z;
  SSH_S_IFLNK : Z;
  SSH_S_IFDIR : Z;
  SSH_S_IFREG : Z
}.

(** [enum Permissions], lines 43-54 (octal in the source). *)
Module Permissions.
Definition read_user : Z := 256.
Definition write_user : Z := 128.
Definition exec_user : Z := 64.
Definition read_group : Z := 32.
Definition write_group : Z := 16.
Definition exec_group : Z := 8.
Definition read_other : Z := 4.
Definition write_other : Z := 2.
Definition exec_other : Z := 1.
End Permissions.

(** ** Wire-level data *)

(** The reply status codes the server uses. *)
Inductive sftp_status : Type :=
| SSH_FX_OK
| SSH_FX_EOF
| SSH_FX_NO_SUCH_FILE
| SSH_FX_PERMISSION_DENIED
| SSH_FX_FAILURE
| SSH_FX_BAD_MESSAGE
| SSH_FX_OP_UNSUPPORTED.

(** The message types [process_message] switches on; every other type
    code falls to the [default] branch. *)
Inductive sftp_type : Type :=
| SFTP_REALPATH
| SFTP_OPENDIR
| SFTP_MKDIR
| SFTP_RMDIR
| SFTP_LSTAT
| SFTP_STAT
| SFTP_FSTAT
| SFTP_READDIR
| SFTP_CLOSE
| SFTP_OPEN
| SFTP_READ
| SFTP_WRITE
| SFTP_RENAME
| SFTP_REMOVE
| SFTP_SETSTAT
| SFTP_FSETSTAT
| SFTP_READLINK
| SFTP_SYMLINK
| SFTP_EXTENDED
| SFTP_other (code : Z).

(** The fields of [sftp_attributes_struct] the server reads or writes;
    [attr{}] zero-initialises all of them. *)
Record sftp_attributes : Type := {
  attr_flags : Z;
  attr_size : Z;
  attr_uid : Z;
  attr_gid : Z;
  attr_permissions : Z;
  attr_atime : Z;
  attr_mtime : Z
}.

Definition attr_zero : sftp_attributes :=
  {| attr_flags := 0; attr_size := 0; attr_uid := 0; attr_gid := 0;
     attr_permissions := 0; attr_atime := 0; attr_mtime := 0 |}.

(** An address used as a handle key ([void*]). *)
Abbreviation ptr := Z (only parsing).

(** [sftp_client_message_struct].  [msg_handle] is the key that libssh's
    [sftp_handle(session, msg->handle)] resolves the wire handle to. *)
Record sftp_client_message : Type := {
  msg_type : sftp_type;
  msg_filename : string;
  msg_data : string;
  msg_submessage : option string;
  msg_flags : Z;
  msg_offset : Z;
  msg_len : Z;
  msg_handle : ptr;
  msg_attr : sftp_attributes
}.

(** What a handler sends back: one constructor per libssh reply function.
    An entry of a names reply is (filename, longname, attributes). *)
Definition name_entry : Type := (string * string * sftp_attributes)%type.

Inductive Reply : Type :=
| sftp_reply_status (status : sftp_status) (message : option string)
| sftp_reply_handle (handle : ptr)
| sftp_reply_attr (attr : sftp_attributes)
| sftp_reply_data (data : string)
| sftp_reply_name (name : string)
| sftp_reply_names (names : list name_entry).

(** Lines 63-86. *)
Definition reply_ok : Reply := sftp_reply_status SSH_FX_OK None.
Definition reply_failure : Reply := sftp_reply_status SSH_FX_FAILURE None.
Definition reply_perm_denied : Reply :=
  sftp_reply_status SSH_FX_PERMISSION_DENIED (Some "permission denied").
Definition reply_bad_handle (type : string) : Reply :=
  sftp_reply_status SSH_FX_BAD_MESSAGE (Some (type ++ ": invalid handle")%string).
Definition reply_unsupported : Reply :=
  sftp_reply_status SSH_FX_OP_UNSUPPORTED (Some "Unsupported message").

(** ** Qt file objects *)

(** What a [QFileInfo] answers about the file it names; the times are
    milliseconds since the epoch, UTC. *)
Module QFileInfo.
Record t : Type := mk {
  fileName : string;
  absoluteFilePath : string;
  exists_ : bool;
  isSymLink : bool;
  isDir : bool;
  isFile : bool;
  symLinkTarget : string;
  permissions : Z;
  ownerId : Z;
  groupId : Z;
  size : Z;
  lastRead : Z;
  lastModified : Z
}.
End QFileInfo.

(** A [QFile] held in the open-file table: the object is identified by
    its address (the table key), and it knows its file name. *)
Module QFile.
Record t : Type := mk { fileName : string }.
End QFile.

(** ** The environment of the server

    Every call that leaves the server is an operation.  The argument
    that names a Qt object is the path the object was built from, or the
    address of the object for a file that lives in the open-file
    table. *)
Inductive syscall : Type :=
(* QFileInfo(path): one stat whose answers the object caches *)
| QFileInfo_new (path : string)
| QFile_exists (path : string)
| QFile_symLinkTarget (path : string)
| QFile_errorString (file : ptr)
| QFile_flush (file : ptr)
| QDir_exists (path : string)
| QDir_mkdir (path : string)
| QDir_entryInfoList (path : string)
(* MP_FILEOPS *)
| FileOps_isReadable (path : string)
| FileOps_rmdir (path : string)
| FileOps_setPermissions (path : string) (perms : Z)
| FileOps_open (file : ptr) (path : string) (mode : Z)
| FileOps_seek (file : ptr) (pos : Z)
| FileOps_read (file : ptr) (maxlen : Z)
| FileOps_write (file : ptr) (data : string) (len : Z)
| FileOps_remove (path : string)
| FileOps_rename (path : string) (new_name : string)
| FileOps_resize (path : string) (sz : Z)
(* MP_PLATFORM and mp::platform *)
| Platform_chown (path : string) (uid gid : Z)
| Platform_utime (path : string) (atime mtime : Z)
| Platform_symlink (old_name new_name : string) (is_dir : bool)
| Platform_link (old_name new_name : string)
| Platform_symlink_attr_from (path : string)
(* std::make_unique: the address of the new object *)
| make_unique
(* libssh handle table *)
| sftp_handle_alloc (info : ptr)
| sftp_handle_remove (id : ptr).

(** The type of the answer to each operation. *)
Definition resp (c : syscall) : Type :=
  match c with
  | QFileInfo_new _ => QFileInfo.t
  | QFile_exists _ => bool
  | QFile_symLinkTarget _ => string
  | QFile_errorString _ => string
  | QFile_flush _ => bool
  | QDir_exists _ => bool
  | QDir_mkdir _ => bool
  | QDir_entryInfoList _ => list QFileInfo.t
  | FileOps_isReadable _ => bool
  | FileOps_rmdir _ => bool
  | FileOps_setPermissions _ _ => bool
  | FileOps_open _ _ _ => bool
  | FileOps_seek _ _ => bool
  (* the count returned and the bytes put in the buffer *)
  | FileOps_read _ _ => (Z * string)%type
  | FileOps_write _ _ _ => Z
  | FileOps_remove _ => bool
  | FileOps_rename _ _ => bool
  | FileOps_resize _ _ => bool
  | Platform_chown _ _ _ => Z
  | Platform_utime _ _ _ => Z
  | Platform_symlink _ _ _ => bool
  | Platform_link _ _ => bool
  | Platform_symlink_attr_from _ => sftp_attributes
  | make_unique => ptr
  (* whether the handle returned is non-null *)
  | sftp_handle_alloc _ => bool
  | sftp_handle_remove _ => unit
  end.

(** The paths an operation hands to the file system or the platform. *)
Definition syscall_paths (c : syscall) : list string :=
  match c with
  | QFileInfo_new p | QFile_exists p | QFile_symLinkTarget p
  | QDir_exists p | QDir_mkdir p | QDir_entryInfoList p
  | FileOps_isReadable p | FileOps_rmdir p | FileOps_setPermissions p _
  | FileOps_open _ p _ | FileOps_remove p | FileOps_resize p _
  | Platform_chown p _ _ | Platform_utime p _ _
  | Platform_symlink_attr_from p => [p]
  | FileOps_rename p q | Platform_symlink p q _ | Platform_link p q => [p; q]
  | QFile_errorString _ | QFile_flush _ | FileOps_seek _ _
  | FileOps_read _ _ | FileOps_write _ _ _
  | make_unique | sftp_handle_alloc _ | sftp_handle_remove _ => []
  end.

(** A handler is a tree: it returns, or it performs an operation and
    continues with the answer. *)
Inductive prog (A : Type) : Type :=
| Ret (a : A)
| Call (c : syscall) (k : resp c -> prog A).

Arguments Ret {A} a.
Arguments Call {A} c k.

Fixpoint bind {A B : Type} (p : prog A) (f : A -> prog B) : prog B :=
  match p with
  | Ret a => f a
  | Call c k => Call c (fun r => bind (k r) f)
  end.

Definition call (c : syscall) : prog (resp c) := Call c Ret.

Declare Scope prog_scope.
Delimit Scope prog_scope with prog.
Notation "x <- p ;; q" := (bind p (fun x => q))
  (at level 100, p at next level, right associativity) : prog_scope.
Local Open Scope prog_scope.

(** An operation together with the answer it received. *)
Definition event : Type := { c : syscall & resp c }.
Definition Ev (c : syscall) (r : resp c) : event := existT c r.
Definition event_call (e : event) : syscall := projT1 e.

(** An environment: a state and, for each operation, its answer and its
    effect on the state. *)
Class Environment : Type := {
  world : Type;
  sys : forall c : syscall, world -> resp c * world
}.

Record run (A : Type) `{Environment} : Type := mkRun {
  value : A;
  trace : list event;
  final : world
}.

Arguments mkRun {A _} value trace final.
Arguments value {A _} r.
Arguments trace {A _} r.
Arguments final {A _} r.

(** Running a handler in an environment, recording the operations. *)
Fixpoint exec `{Environment} {A : Type} (p : prog A) (w : world) : run A :=
  match p with
  | Ret a => mkRun a [] w
  | Call c k =>
      let rw := sys c w in
      let r := exec (k (fst rw)) (snd rw) in
      mkRun (value r) (Ev c (fst rw) :: trace r) (final r)
  end.

(** ** The server *)

(** The data members of [SftpServer] that the message handlers use.  The
    two tables map the address of an owned object to the object: an open
    file, or the list of entries that remain to be listed. *)
Record SftpServer : Type := mkServer {
  source_path : string;
  target_path : string;
  gid_mappings : id_mappings;
  uid_mappings : id_mappings;
  default_uid : Z;
  default_gid : Z;
  open_file_handles : gmap Z QFile.t;
  open_dir_handles : gmap Z (list QFileInfo.t)
}.

Definition set_open_file_handles (s : SftpServer) (m : gmap Z QFile.t) : SftpServer :=
  mkServer (source_path s) (target_path s) (gid_mappings s) (uid_mappings s)
    (default_uid s) (default_gid s) m (open_dir_handles s).

Definition set_open_dir_handles (s : SftpServer) (m : gmap Z (list QFileInfo.t)) : SftpServer :=
  mkServer (source_path s) (target_path s) (gid_mappings s) (uid_mappings s)
    (default_uid s) (default_gid s) (open_file_handles s) m.

(** [unordered_map::emplace]: nothing is inserted when the key is
    already present. *)
Definition emplace {V : Type} (k : Z) (v : V) (m : gmap Z V) : gmap Z V :=
  match m !! k with
  | Some _ => m
  | None => <[k := v]> m
  end.

(** [unordered_map::erase(key)]: the number of elements removed, and the
    map without the key. *)
Definition erase {V : Type} (k : Z) (m : gmap Z V) : Z * gmap Z V :=
  match m !! k with
  | Some _ => (1, delete k m)
  | None => (0, m)
  end.

(** [sftp_handle(session, msg->handle)]. *)
Definition sftp_handle (msg : sftp_client_message) : ptr := msg_handle msg.

(** [handle_from(msg, handles)], lines 222-230: [None] is [nullptr]. *)
Definition handle_from {T : Type} (msg : sftp_client_message) (handles : gmap Z T) : option T :=
  let id := sftp_handle msg in
  handles !! id.

(** [data_ptr += r] on the bytes that remain to be written. *)
Fixpoint advance (n : nat) (s : string) : string :=
  match n, s with
  | O, _ => s
  | S _, EmptyString => EmptyString
  | S n', String _ s' => advance n' s'
  end.

(** The first [r] bytes of a buffer. *)
Definition buffer_prefix (r : Z) (buf : string) : string :=
  substring 0 (Z.to_nat r) buf.

Section Server.
Context `{QtLib} `{Libssh} `{IdSentinels}.

(** [to_qt_permissions(perms)], lines 162-186. *)
Definition to_qt_permissions (perms : Z) : Z :=
  let out := 0 in
  let out := or_if (test_bits perms Permissions.read_user) QFileDevice_ReadUser out in
  let out := or_if (test_bits perms Permissions.write_user) QFileDevice_WriteUser out in
  let out := or_if (test_bits perms Permissions.exec_user) QFileDevice_ExeUser out in
  let out := or_if (test_bits perms Permissions.read_group) QFileDevice_ReadGroup out in
  let out := or_if (test_bits perms Permissions.write_group) QFileDevice_WriteGroup out in
  let out := or_if (test_bits perms Permissions.exec_group) QFileDevice_ExeGroup out in
  let out := or_if (test_bits perms Permissions.read_other) QFileDevice_ReadOther out in
  let out := or_if (test_bits perms Permissions.write_other) QFileDevice_WriteOther out in
  let out := or_if (test_bits perms Permissions.exec_other) QFileDevice_ExeOther out in
  out.

(** [to_unix_permissions(perms)], lines 188-212. *)
Definition to_unix_permissions (perms : Z) : Z :=
  let out := 0 in
  let out := or_if (test_bits perms QFileDevice_ReadOwner) Permissions.read_user out in
  let out := or_if (test_bits perms QFileDevice_WriteOwner) Permissions.write_user out in
  let out := or_if (test_bits perms QFileDevice_ExeOwner) Permissions.exec_user out in
  let out := or_if (test_bits perms QFileDevice_ReadGroup) Permissions.read_group out in
  let out := or_if (test_bits perms QFileDevice_WriteGroup) Permissions.write_group out in
  let out := or_if (test_bits perms QFileDevice_ExeGroup) Permissions.exec_group out in
  let out := or_if (test_bits perms QFileDevice_ReadOther) Permissions.read_other out in
  let out := or_if (test_bits perms QFileDevice_WriteOther) Permissions.write_other out in
  let out := or_if (test_bits perms QFileDevice_ExeOther) Permissions.exec_other out in
  out.

(** [longname_from(file_info, filename)], lines 94-160. *)
Definition longname_from (file_info : QFileInfo.t) (filename : string) : string :=
  let mode := QFileInfo.permissions file_info in
  let flag (bit : Z) (c : string) : string := if test_bits mode bit then c else "-" in
  ((if QFileInfo.isSymLink file_info then "l"
    else if QFileInfo.isDir file_info then "d"
    else "-")
   ++ flag QFileDevice_ReadOwner "r" ++ flag QFileDevice_WriteOwner "w"
   ++ flag QFileDevice_ExeOwner "x"
   ++ flag QFileDevice_ReadGroup "r" ++ flag QFileDevice_WriteGroup "w"
   ++ flag QFileDevice_ExeGroup "x"
   ++ flag QFileDevice_ReadOther "r" ++ flag QFileDevice_WriteOther "w"
   ++ flag QFileDevice_ExeOther "x"
   ++ " 1 " ++ fmt_int (QFileInfo.ownerId file_info)
   ++ " " ++ fmt_int (QFileInfo.groupId file_info)
   ++ " " ++ fmt_int (QFileInfo.size file_info)
   ++ " " ++ QDateTime_toString (QFileInfo.lastModified file_info)
   ++ " " ++ filename)%string.

(** Lines 328-346. *)
Definition mapped_uid_for (s : SftpServer) (uid : Z) : Z :=
  mapped_id_for (uid_mappings s) uid (default_uid s).

Definition mapped_gid_for (s : SftpServer) (gid : Z) : Z :=
  mapped_id_for (gid_mappings s) gid (default_gid s).

Definition reverse_uid_for (s : SftpServer) (uid rev_uid_if_not_found : Z) : Z :=
  reverse_id_for (uid_mappings s) uid rev_uid_if_not_found.

Definition reverse_gid_for (s : SftpServer) (gid rev_gid_if_not_found : Z) : Z :=
  reverse_id_for (gid_mappings s) gid rev_gid_if_not_found.

(** [SftpServer::attr_from(file_info)], lines 303-326. *)
Definition attr_from (s : SftpServer) (file_info : QFileInfo.t) : sftp_attributes :=
  let permissions := to_uint32 (to_unix_permissions (QFileInfo.permissions file_info)) in
  {| attr_flags :=
       Z.lor (Z.lor (Z.lor SSH_FILEXFER_ATTR_SIZE SSH_FILEXFER_ATTR_UIDGID)
                    SSH_FILEXFER_ATTR_PERMISSIONS) SSH_FILEXFER_ATTR_ACMODTIME;
     attr_size := to_uint64 (QFileInfo.size file_info);
     attr_uid := to_uint32 (mapped_uid_for s (to_int (QFileInfo.ownerId file_info)));
     attr_gid := to_uint32 (mapped_gid_for s (to_int (QFileInfo.groupId file_info)));
     attr_permissions :=
       if QFileInfo.isSymLink file_info then
         Z.lor permissions (Z.lor SSH_S_IFLNK 511)
       else if QFileInfo.isDir file_info then Z.lor permissions SSH_S_IFDIR
       else if QFileInfo.isFile file_info then Z.lor permissions SSH_S_IFREG
       else permissions;
     attr_atime := to_uint32 (Z.quot (QFileInfo.lastRead file_info) 1000);
     attr_mtime := to_uint32 (Z.quot (QFileInfo.lastModified file_info) 1000) |}.

(** [attr.uid = mapped_uid_for(attr.uid); attr.gid = mapped_gid_for(attr.gid);]
    on a record the platform has filled. *)
Definition map_attr_ids (s : SftpServer) (attr : sftp_attributes) : sftp_attributes :=
  {| attr_flags := attr_flags attr;
     attr_size := attr_size attr;
     attr_uid := to_uint32 (mapped_uid_for s (to_int (attr_uid attr)));
     attr_gid := to_uint32 (mapped_gid_for s (to_int (attr_gid attr)));
     attr_permissions := attr_permissions attr;
     attr_atime := attr_atime attr;
     attr_mtime := attr_mtime attr |}.

(** [handle_close], lines 472-486. *)
Definition handle_close (s : SftpServer) (msg : sftp_client_message) : prog (Reply * SftpServer) :=
  let id := sftp_handle msg in
  let files := erase id (open_file_handles s) in
  let dirs := erase id (open_dir_handles s) in
  let erased := fst files + fst dirs in
  let s' := set_open_dir_handles (set_open_file_handles s (snd files)) (snd dirs) in
  if erased =? 0 then Ret (reply_bad_handle "close", s')
  else
    _ <- call (sftp_handle_remove id) ;;
    Ret (reply_ok, s').

(** [handle_fstat], lines 488-504. *)
Definition handle_fstat (s : SftpServer) (msg : sftp_client_message) : prog (Reply * SftpServer) :=
  match handle_from msg (open_file_handles s) with
  | None => Ret (reply_bad_handle "fstat", s)
  | Some file =>
      file_info <- call (QFileInfo_new (QFile.fileName file)) ;;
      file_info <- (if QFileInfo.isSymLink file_info
                    then call (QFileInfo_new (QFileInfo.symLinkTarget file_info))
                    else Ret file_info) ;;
      Ret (sftp_reply_attr (attr_from s file_info), s)
  end.

(** [handle_mkdir], lines 506-544. *)
Definition handle_mkdir (s : SftpServer) (msg : sftp_client_message) : prog (Reply * SftpServer) :=
  let filename := msg_filename msg in
  if negb (validate_path (source_path s) filename) then Ret (reply_perm_denied, s)
  else
    made <- call (QDir_mkdir filename) ;;
    if negb made then Ret (reply_failure, s)
    else
      set <- call (FileOps_setPermissions filename
                     (to_qt_permissions (attr_permissions (msg_attr msg)))) ;;
      if negb set then Ret (reply_failure, s)
      else
        parent_dir <- call (QFileInfo_new (QFileInfo_path filename)) ;;
        let rev_uid := reverse_uid_for s (to_int (attr_uid (msg_attr msg)))
                                         (to_int (QFileInfo.ownerId parent_dir)) in
        let rev_gid := reverse_gid_for s (to_int (attr_gid (msg_attr msg)))
                                         (to_int (QFileInfo.groupId parent_dir)) in
        r <- call (Platform_chown filename rev_uid rev_gid) ;;
        if r <? 0 then Ret (reply_failure, s)
        else Ret (reply_ok, s).

(** [handle_rmdir], lines 546-565. *)
Definition handle_rmdir (s : SftpServer) (msg : sftp_client_message) : prog (Reply * SftpServer) :=
  let filename := msg_filename msg in
  if negb (validate_path (source_path s) filename) then Ret (reply_perm_denied, s)
  else
    removed <- call (FileOps_rmdir filename) ;;
    if negb removed then Ret (reply_failure, s)
    else Ret (reply_ok, s).

(** The access mode [handle_open] builds from the request flags,
    lines 578-601. *)
Definition open_mode (flags : Z) : Z :=
  let mode := QIODevice_NotOpen in
  let mode := or_if (test_bits flags SSH_FXF_READ) QIODevice_ReadOnly mode in
  let mode :=
    if test_bits flags SSH_FXF_WRITE then
      let mode := Z.lor mode QIODevice_WriteOnly in
      (* the sshfs O_APPEND workaround *)
      or_if (flags =? SSH_FXF_WRITE) QIODevice_Append mode
    else mode in
  let mode := or_if (test_bits flags SSH_FXF_APPEND) QIODevice_Append mode in
  let mode := or_if (test_bits flags SSH_FXF_TRUNC) QIODevice_Truncate mode in
  mode.

(** [handle_open], lines 567-646. *)
Definition handle_open (s : SftpServer) (msg : sftp_client_message) : prog (Reply * SftpServer) :=
  let filename := msg_filename msg in
  if negb (validate_path (source_path s) filename) then Ret (reply_perm_denied, s)
  else
    let mode := open_mode (msg_flags msg) in
    file <- call make_unique ;;
    info <- call (QFileInfo_new filename) ;;
    exists_ <- (if QFileInfo.isSymLink info then Ret true
                else call (QFile_exists filename)) ;;
    opened <- call (FileOps_open file filename mode) ;;
    if negb opened then Ret (reply_failure, s)
    else
      let finish : prog (Reply * SftpServer) :=
        allocated <- call (sftp_handle_alloc file) ;;
        if negb allocated then Ret (reply_failure, s)
        else
          Ret (sftp_reply_handle file,
               set_open_file_handles s
                 (emplace file (QFile.mk filename) (open_file_handles s))) in
      if negb exists_ then
        set <- call (FileOps_setPermissions filename
                       (to_qt_permissions (attr_permissions (msg_attr msg)))) ;;
        if negb set then Ret (reply_failure, s)
        else
          current_dir <- call (QFileInfo_new (QFileInfo_path filename)) ;;
          let new_uid := reverse_uid_for s (to_int (attr_uid (msg_attr msg)))
                                           (to_int (QFileInfo.ownerId current_dir)) in
          let new_gid := reverse_gid_for s (to_int (attr_gid (msg_attr msg)))
                                           (to_int (QFileInfo.groupId current_dir)) in
          r <- call (Platform_chown filename new_uid new_gid) ;;
          if r <? 0 then Ret (reply_failure, s)
          else finish
      else finish.

(** [handle_opendir], lines 648-685. *)
Definition handle_opendir (s : SftpServer) (msg : sftp_client_message) : prog (Reply * SftpServer) :=
  let filename := msg_filename msg in
  if negb (validate_path (source_path s) filename) then Ret (reply_perm_denied, s)
  else
    found <- call (QDir_exists filename) ;;
    if negb found then
      Ret (sftp_reply_status SSH_FX_NO_SUCH_FILE (Some "no such directory"), s)
    else
      readable <- call (FileOps_isReadable filename) ;;
      if negb readable then Ret (reply_perm_denied, s)
      else
        entries <- call (QDir_entryInfoList filename) ;;
        entry_list <- call make_unique ;;
        allocated <- call (sftp_handle_alloc entry_list) ;;
        if negb allocated then Ret (reply_failure, s)
        else
          Ret (sftp_reply_handle entry_list,
               set_open_dir_handles s
                 (emplace entry_list entries (open_dir_handles s))).

(** [handle_read], lines 687-720. *)
Definition handle_read (s : SftpServer) (msg : sftp_client_message) : prog (Reply * SftpServer) :=
  match handle_from msg (open_file_handles s) with
  | None => Ret (reply_bad_handle "read", s)
  | Some _ =>
      (* the QFile object, named by its address *)
      let file := sftp_handle msg in
      let max_packet_size := 65536 in
      let len := Z.min (msg_len msg) max_packet_size in
      sought <- call (FileOps_seek file (msg_offset msg)) ;;
      if negb sought then Ret (reply_failure, s)
      else
        rd <- call (FileOps_read file len) ;;
        let r := fst rd in
        if r <? 0 then
          err <- call (QFile_errorString file) ;;
          Ret (sftp_reply_status SSH_FX_FAILURE (Some err), s)
        else if r =? 0 then
          Ret (sftp_reply_status SSH_FX_EOF (Some "End of file"), s)
        else Ret (sftp_reply_data (buffer_prefix r (snd rd)), s)
  end.

(** The [for] loop of [handle_readdir], lines 737-754: [i] iterations
    remain; each takes the first entry off the list and adds one name to
    the reply.  ([takeFirst] on an empty list does not arise: the loop
    runs at most [size] times.) *)
Fixpoint readdir_loop (s : SftpServer) (i : nat) (dir_entries : list QFileInfo.t)
    (names : list name_entry) : prog (list QFileInfo.t * list name_entry) :=
  match i with
  | O => Ret (dir_entries, names)
  | S i' =>
      match dir_entries with
      | [] => Ret ([], names)
      | entry :: dir_entries' =>
          let filename := QFileInfo.fileName entry in
          attr <- (if QFileInfo.isSymLink entry then
                     attr <- call (Platform_symlink_attr_from
                                     (QFileInfo.absoluteFilePath entry)) ;;
                     Ret (map_attr_ids s attr)
                   else Ret (attr_from s entry)) ;;
          let longname := longname_from entry filename in
          readdir_loop s i' dir_entries' (names ++ [(filename, longname, attr)])
      end
  end.

(** [handle_readdir], lines 722-757. *)
Definition handle_readdir (s : SftpServer) (msg : sftp_client_message) : prog (Reply * SftpServer) :=
  match handle_from msg (open_dir_handles s) with
  | None => Ret (reply_bad_handle "readdir", s)
  | Some dir_entries =>
      match dir_entries with
      | [] => Ret (sftp_reply_status SSH_FX_EOF None, s)
      | _ :: _ =>
          let max_num_entries_per_packet := 50 in
          let num_entries :=
            Z.min (Z.of_nat (List.length dir_entries)) max_num_entries_per_packet in
          res <- readdir_loop s (Z.to_nat num_entries) dir_entries [] ;;
          Ret (sftp_reply_names (snd res),
               set_open_dir_handles s
                 (<[sftp_handle msg := fst res]> (open_dir_handles s)))
      end
  end.

(** [handle_readlink], lines 759-780. *)
Definition handle_readlink (s : SftpServer) (msg : sftp_client_message) : prog (Reply * SftpServer) :=
  let filename := msg_filename msg in
  if negb (validate_path (source_path s) filename) then Ret (reply_perm_denied, s)
  else
    link <- call (QFile_symLinkTarget filename) ;;
    if StdString.empty link then
      Ret (sftp_reply_status SSH_FX_NO_SUCH_FILE (Some "invalid link"), s)
    else Ret (sftp_reply_names [(link, link, attr_zero)], s).

(** [handle_realpath], lines 782-795. *)
Definition handle_realpath (s : SftpServer) (msg : sftp_client_message) : prog (Reply * SftpServer) :=
  let filename := msg_filename msg in
  if negb (validate_path (source_path s) filename) then Ret (reply_perm_denied, s)
  else
    info <- call (QFileInfo_new filename) ;;
    let realpath := QFileInfo.absoluteFilePath info in
    Ret (sftp_reply_name realpath, s).

(** [handle_remove], lines 797-816. *)
Definition handle_remove (s : SftpServer) (msg : sftp_client_message) : prog (Reply * SftpServer) :=
  let filename := msg_filename msg in
  if negb (validate_path (source_path s) filename) then Ret (reply_perm_denied, s)
  else
    removed <- call (FileOps_remove filename) ;;
    if negb removed then Ret (reply_failure, s)
    else Ret (reply_ok, s).

(** [handle_rename], lines 818-865. *)
Definition handle_rename (s : SftpServer) (msg : sftp_client_message) : prog (Reply * SftpServer) :=
  let source := msg_filename msg in
  if negb (validate_path (source_path s) source) then Ret (reply_perm_denied, s)
  else
    source_info <- call (QFileInfo_new source) ;;
    source_found <- (if QFileInfo.isSymLink source_info then Ret true
                     else call (QFile_exists source)) ;;
    if negb source_found then
      Ret (sftp_reply_status SSH_FX_NO_SUCH_FILE (Some "no such file"), s)
    else
      let target := msg_data msg in
      if negb (validate_path (source_path s) target) then Ret (reply_perm_denied, s)
      else
        let rename : prog (Reply * SftpServer) :=
          renamed <- call (FileOps_rename source target) ;;
          if negb renamed then Ret (reply_failure, s)
          else Ret (reply_ok, s) in
        target_exists <- call (QFile_exists target) ;;
        if target_exists then
          removed <- call (FileOps_remove target) ;;
          if negb removed then Ret (reply_failure, s)
          else rename
        else rename.

(** The attribute updates of [handle_setstat], lines 901-941, applied to
    the file name the first half of the function has determined. *)
Definition apply_setstat (s : SftpServer) (msg : sftp_client_message) (filename : string) : prog (Reply * SftpServer) :=
  let attr := msg_attr msg in
  resized <- (if test_bits (attr_flags attr) SSH_FILEXFER_ATTR_SIZE
              then call (FileOps_resize filename (attr_size attr))
              else Ret true) ;;
  if negb resized then Ret (reply_failure, s)
  else
    set <- (if test_bits (attr_flags attr) SSH_FILEXFER_ATTR_PERMISSIONS
            then call (FileOps_setPermissions filename
                         (to_qt_permissions (attr_permissions attr)))
            else Ret true) ;;
    if negb set then Ret (reply_failure, s)
    else
      timed <- (if test_bits (attr_flags attr) SSH_FILEXFER_ATTR_ACMODTIME
                then call (Platform_utime filename (attr_atime attr) (attr_mtime attr))
                else Ret 0) ;;
      if timed <? 0 then Ret (reply_failure, s)
      else
        owned <- (if test_bits (attr_flags attr) SSH_FILEXFER_ATTR_UIDGID
                  then call (Platform_chown filename
                               (reverse_uid_for s (to_int (attr_uid attr))
                                                  (to_int (attr_uid attr)))
                               (reverse_gid_for s (to_int (attr_gid attr))
                                                  (to_int (attr_gid attr))))
                  else Ret 0) ;;
        if owned <? 0 then Ret (reply_failure, s)
        else Ret (reply_ok, s).

(** [handle_setstat], lines 867-942. *)
Definition handle_setstat (s : SftpServer) (msg : sftp_client_message) : prog (Reply * SftpServer) :=
  match msg_type msg with
  | SFTP_FSETSTAT =>
      match handle_from msg (open_file_handles s) with
      | None => Ret (reply_bad_handle "setstat", s)
      | Some handle => apply_setstat s msg (QFile.fileName handle)
      end
  | _ =>
      let filename := msg_filename msg in
      if negb (validate_path (source_path s) filename) then Ret (reply_perm_denied, s)
      else
        info <- call (QFileInfo_new filename) ;;
        found <- (if QFileInfo.isSymLink info then Ret true
                  else call (QFile_exists filename)) ;;
        if negb found then
          Ret (sftp_reply_status SSH_FX_NO_SUCH_FILE (Some "no such file"), s)
        else apply_setstat s msg filename
  end.

(** [handle_stat], lines 944-980. *)
Definition handle_stat (s : SftpServer) (msg : sftp_client_message) (follow : bool) : prog (Reply * SftpServer) :=
  let filename := msg_filename msg in
  if negb (validate_path (source_path s) filename) then Ret (reply_perm_denied, s)
  else
    file_info <- call (QFileInfo_new filename) ;;
    if negb (QFileInfo.isSymLink file_info) && negb (QFileInfo.exists_ file_info) then
      Ret (sftp_reply_status SSH_FX_NO_SUCH_FILE (Some "no such file"), s)
    else if negb follow && QFileInfo.isSymLink file_info then
      attr <- call (Platform_symlink_attr_from filename) ;;
      Ret (sftp_reply_attr (map_attr_ids s attr), s)
    else
      file_info <- (if QFileInfo.isSymLink file_info
                    then call (QFileInfo_new (QFileInfo.symLinkTarget file_info))
                    else Ret file_info) ;;
      Ret (sftp_reply_attr (attr_from s file_info), s).

(** [handle_symlink], lines 982-1003. *)
Definition handle_symlink (s : SftpServer) (msg : sftp_client_message) : prog (Reply * SftpServer) :=
  let old_name := msg_filename msg in
  let new_name := msg_data msg in
  if negb (validate_path (source_path s) new_name) then Ret (reply_perm_denied, s)
  else
    old_info <- call (QFileInfo_new old_name) ;;
    linked <- call (Platform_symlink old_name new_name (QFileInfo.isDir old_info)) ;;
    if negb linked then Ret (reply_failure, s)
    else Ret (reply_ok, s).

(** The [do ... while (len > 0)] loop of [handle_write], lines
    1023-1038.  [fuel] bounds the number of iterations; the result is
    [None] when the loop has not ended within the bound, and otherwise
    whether every write succeeded.  [len] is a [size_t], [r] a signed
    64-bit count. *)
Fixpoint write_loop (fuel : nat) (file : ptr) (data_ptr : string) (len : Z) : prog (option bool) :=
  match fuel with
  | O => Ret None
  | S fuel' =>
      r <- call (FileOps_write file data_ptr len) ;;
      if r <? 0 then Ret (Some false)
      else
        _ <- call (QFile_flush file) ;;
        let data_ptr := advance (Z.to_nat r) data_ptr in
        let len := to_uint64 (len - r) in
        if 0 <? len then write_loop fuel' file data_ptr len
        else Ret (Some true)
  end.

(** [handle_write], lines 1005-1041. *)
Definition handle_write (fuel : nat) (s : SftpServer) (msg : sftp_client_message) : prog (option (Reply * SftpServer)) :=
  match handle_from msg (open_file_handles s) with
  | None => Ret (Some (reply_bad_handle "write", s))
  | Some _ =>
      let file := sftp_handle msg in
      let len := Z.of_nat (String.length (msg_data msg)) in
      let data_ptr := msg_data msg in
      sought <- call (FileOps_seek file (msg_offset msg)) ;;
      if negb sought then Ret (Some (reply_failure, s))
      else
        written <- write_loop fuel file data_ptr len ;;
        match written with
        | None => Ret None
        | Some false => Ret (Some (reply_failure, s))
        | Some true => Ret (Some (reply_ok, s))
        end
  end.

(** [handle_extended], lines 1043-1084. *)
Definition handle_extended (s : SftpServer) (msg : sftp_client_message) : prog (Reply * SftpServer) :=
  match msg_submessage msg with
  | None => Ret (reply_failure, s)
  | Some method =>
      if String.eqb method "hardlink@openssh.com" then
        let old_name := msg_filename msg in
        let new_name := msg_data msg in
        if negb (validate_path (source_path s) new_name) then Ret (reply_perm_denied, s)
        else
          linked <- call (Platform_link old_name new_name) ;;
          if negb linked then Ret (reply_failure, s)
          else Ret (reply_ok, s)
      else if String.eqb method "posix-rename@openssh.com" then
        handle_rename s msg
      else Ret (reply_unsupported, s)
  end.

(** A handler that always returns. *)
Definition returns {A : Type} (p : prog A) : prog (option A) :=
  a <- p ;; Ret (Some a).

(** [process_message], lines 348-413: the reply the handler sends and
    the state it leaves, or [None] when the write loop has not ended
    within [fuel] iterations. *)
Definition process_message (fuel : nat) (s : SftpServer) (msg : sftp_client_message) : prog (option (Reply * SftpServer)) :=
  match msg_type msg with
  | SFTP_REALPATH => returns (handle_realpath s msg)
  | SFTP_OPENDIR => returns (handle_opendir s msg)
  | SFTP_MKDIR => returns (handle_mkdir s msg)
  | SFTP_RMDIR => returns (handle_rmdir s msg)
  | SFTP_LSTAT => returns (handle_stat s msg false)
  | SFTP_STAT => returns (handle_stat s msg true)
  | SFTP_FSTAT => returns (handle_fstat s msg)
  | SFTP_READDIR => returns (handle_readdir s msg)
  | SFTP_CLOSE => returns (handle_close s msg)
  | SFTP_OPEN => returns (handle_open s msg)
  | SFTP_READ => returns (handle_read s msg)
  | SFTP_WRITE => handle_write fuel s msg
  | SFTP_RENAME => returns (handle_rename s msg)
  | SFTP_REMOVE => returns (handle_remove s msg)
  | SFTP_SETSTAT | SFTP_FSETSTAT => returns (handle_setstat s msg)
  | SFTP_READLINK => returns (handle_readlink s msg)
  | SFTP_SYMLINK => returns (handle_symlink s msg)
  | SFTP_EXTENDED => returns (handle_extended s msg)
  | SFTP_other _ => Ret (Some (reply_unsupported, s))
  end.

End Server.

(** ** Concrete instances, for evaluating the handlers on examples *)

(** The values of the Qt 5 and Qt 6 headers; the three functions are
    simple stand-ins ([example_path] cuts the name at its last slash). *)
Fixpoint example_path_aux (s : string) : option string :=
  match s with
  | EmptyString => None
  | String c s' =>
      match example_path_aux s' with
      | Some d => Some (String c d)
      | None => if Ascii.eqb c "/" then Some EmptyString else None
      end
  end.

Definition example_path (s : string) : string :=
  match example_path_aux s with
  | Some d => d
  | None => "."
  end.

Definition example_qt : QtLib :=
  {| QIODevice_NotOpen := 0;
     QIODevice_ReadOnly := 1;
     QIODevice_WriteOnly := 2;
     QIODevice_Append := 4;
     QIODevice_Truncate := 8;
     QFileDevice_ReadOwner := 16384;
     QFileDevice_WriteOwner := 8192;
     QFileDevice_ExeOwner := 4096;
     QFileDevice_ReadUser := 1024;
     QFileDevice_WriteUser := 512;
     QFileDevice_ExeUser := 256;
     QFileDevice_ReadGroup := 64;
     QFileDevice_WriteGroup := 32;
     QFileDevice_ExeGroup := 16;
     QFileDevice_ReadOther := 4;
     QFileDevice_WriteOther := 2;
     QFileDevice_ExeOther := 1;
     QFileInfo_path := example_path;
     QDateTime_toString := fun _ => "Jan 1 00:00:00 1970";
     fmt_int := fun _ => "0" |}.

(** The values of libssh's [sftp.h]. *)
Definition example_libssh : Libssh :=
  {| SSH_FXF_READ := 1;
     SSH_FXF_WRITE := 2;
     SSH_FXF_APPEND := 4;
     SSH_FXF_TRUNC := 16;
     SSH_FILEXFER_ATTR_SIZE := 1;
     SSH_FILEXFER_ATTR_UIDGID := 2;
     SSH_FILEXFER_ATTR_PERMISSIONS := 4;
     SSH_FILEXFER_ATTR_ACMODTIME := 8;
     SSH_S_IFLNK := 40960;
     SSH_S_IFDIR := 16384;
     SSH_S_IFREG := 32768 |}.

Definition example_sentinels : IdSentinels :=
  {| no_id_info_available := -1; default_id := -1 |}.

(** An environment without state: every operation has a fixed answer. *)
Definition stateless (answer : forall c : syscall, resp c) : Environment :=
  {| world := unit; sys := fun c w => (answer c, w) |}.

Definition example_file_info (path : string) (found : bool) (owner group : Z) : QFileInfo.t :=
  {| QFileInfo.fileName := path;
     QFileInfo.absoluteFilePath := path;
     QFileInfo.exists_ := found;
     QFileInfo.isSymLink := false;
     QFileInfo.isDir := false;
     QFileInfo.isFile := found;
     QFileInfo.symLinkTarget := "";
     QFileInfo.permissions := 0;
     QFileInfo.ownerId := owner;
     QFileInfo.groupId := group;
     QFileInfo.size := 0;
     QFileInfo.lastRead := 0;
     QFileInfo.lastModified := 0 |}.

(** An empty file system on which every operation fails. *)
Definition nothing_there (c : syscall) : resp c :=
  match c with
  | QFileInfo_new p => example_file_info p false 0 0
  | QFile_exists _ => false
  | QFile_symLinkTarget _ => ""
  | QFile_errorString _ => "error"
  | QFile_flush _ => false
  | QDir_exists _ => false
  | QDir_mkdir _ => false
  | QDir_entryInfoList _ => []
  | FileOps_isReadable _ => false
  | FileOps_rmdir _ => false
  | FileOps_setPermissions _ _ => false
  | FileOps_open _ _ _ => false
  | FileOps_seek _ _ => false
  | FileOps_read _ _ => (-1, "")
  | FileOps_write _ _ _ => -1
  | FileOps_remove _ => false
  | FileOps_rename _ _ => false
  | FileOps_resize _ _ => false
  | Platform_chown _ _ _ => -1
  | Platform_utime _ _ _ => -1
  | Platform_symlink _ _ _ => false
  | Platform_link _ _ => false
  | Platform_symlink_attr_from _ => attr_zero
  | make_unique => 4096
  | sftp_handle_alloc _ => false
  | sftp_handle_remove _ => tt
  end.

(** A file system on which every file exists, is a regular file owned
    by uid 1000 and gid 1000, and every operation succeeds. *)
Definition all_there (c : syscall) : resp c :=
  match c with
  | QFileInfo_new p => example_file_info p true 1000 1000
  | QFile_exists _ => true
  | QFile_symLinkTarget p => p
  | QFile_errorString _ => ""
  | QFile_flush _ => true
  | QDir_exists _ => true
  | QDir_mkdir _ => true
  | QDir_entryInfoList _ => []
  | FileOps_isReadable _ => true
  | FileOps_rmdir _ => true
  | FileOps_setPermissions _ _ => true
  | FileOps_open _ _ _ => true
  | FileOps_seek _ _ => true
  | FileOps_read _ len => (0, "")
  | FileOps_write _ _ len => len
  | FileOps_remove _ => true
  | FileOps_rename _ _ => true
  | FileOps_resize _ _ => true
  | Platform_chown _ _ _ => 0
  | Platform_utime _ _ _ => 0
  | Platform_symlink _ _ _ => true
  | Platform_link _ _ => true
  | Platform_symlink_attr_from _ => attr_zero
  | make_unique => 4096
  | sftp_handle_alloc _ => true
  | sftp_handle_remove _ => tt
  end.

Definition example_server (source : string) (uid_map gid_map : id_mappings) : SftpServer :=
  {| source_path := source;
     target_path := "/mnt";
     gid_mappings := gid_map;
     uid_mappings := uid_map;
     default_uid := 500;
     default_gid := 500;
     open_file_handles := ∅;
     open_dir_handles := ∅ |}.

Definition example_message (type : sftp_type) (filename data : string) : sftp_client_message :=
  {| msg_type := type;
     msg_filename := filename;
     msg_data := data;
     msg_submessage := None;
     msg_flags := 0;
     msg_offset := 0;
     msg_len := 0;
     msg_handle := 0;
     msg_attr := attr_zero |}.

(** ** Which path of a request is checked

    A reading aid for the statements on path confinement: the path a
    handler passes to its first [validate_path] call, and the request
    types that go through [handle_rename], which checks a second path
    (the target, in the data field) later on. *)

Definition is_hardlink (msg : sftp_client_message) : bool :=
  match msg_type msg, msg_submessage msg with
  | SFTP_EXTENDED, Some method => String.eqb method "hardlink@openssh.com"
  | _, _ => false
  end.

Definition is_rename (msg : sftp_client_message) : bool :=
  match msg_type msg, msg_submessage msg with
  | SFTP_RENAME, _ => true
  | SFTP_EXTENDED, Some method =>
      negb (String.eqb method "hardlink@openssh.com")
      && String.eqb method "posix-rename@openssh.com"
  | _, _ => false
  end.

Definition first_checked_path (msg : sftp_client_message) : option string :=
  match msg_type msg with
  | SFTP_REALPATH | SFTP_OPENDIR | SFTP_MKDIR | SFTP_RMDIR | SFTP_LSTAT
  | SFTP_STAT | SFTP_SETSTAT | SFTP_OPEN | SFTP_REMOVE | SFTP_RENAME
  | SFTP_READLINK => Some (msg_filename msg)
  | SFTP_SYMLINK => Some (msg_data msg)
  | SFTP_EXTENDED =>
      if is_hardlink msg then Some (msg_data msg)
      else if is_rename msg then Some (msg_filename msg)
      else None
  | SFTP_FSTAT | SFTP_READDIR | SFTP_CLOSE | SFTP_READ | SFTP_WRITE
  | SFTP_FSETSTAT | SFTP_other _ => None
  end.

(** Every path of a request that some [validate_path] call of its
    handler checks. *)
Definition checked_paths (msg : sftp_client_message) : list string :=
  match first_checked_path msg with
  | Some p => if is_rename msg then [p; msg_data msg] else [p]
  | None => []
  end.

(** The requests that create a link: SYMLINK and the hardlink extension.
    Their file name is [old_name], their data field [new_name]. *)
Definition is_link_request (msg : sftp_client_message) : bool :=
  match msg_type msg with
  | SFTP_SYMLINK => true
  | _ => is_hardlink msg
  end.

(** The path arguments of a request: its file name, and its data field
    for the requests that carry a second path there. *)
Definition request_paths (msg : sftp_client_message) : list string :=
  match first_checked_path msg with
  | Some _ =>
      if is_rename msg || is_link_request msg
      then [msg_filename msg; msg_data msg]
      else [msg_filename msg]
  | None => []
  end.

(** A MKDIR request that carries the uid and gid of the remote user. *)
Definition example_mkdir (filename : string) (uid gid : Z) : sftp_client_message :=
  {| msg_type := SFTP_MKDIR;
     msg_filename := filename;
     msg_data := "";
     msg_submessage := None;
     msg_flags := 0;
     msg_offset := 0;
     msg_len := 0;
     msg_handle := 0;
     msg_attr :=
       {| attr_flags := 0; attr_size := 0; attr_uid := uid; attr_gid := gid;
          attr_permissions := 493; attr_atime := 0; attr_mtime := 0 |} |}.

(** ** Requests that name a handle

    The word each handler passes to [reply_bad_handle], and the table
    (or tables) in which it looks the handle up. *)

Definition handle_word (type : sftp_type) : option string :=
  match type with
  | SFTP_READ => Some "read"
  | SFTP_WRITE => Some "write"
  | SFTP_FSTAT => Some "fstat"
  | SFTP_FSETSTAT => Some "setstat"
  | SFTP_READDIR => Some "readdir"
  | SFTP_CLOSE => Some "close"
  | _ => None
  end.

Definition handle_absent (s : SftpServer) (msg : sftp_client_message) : Prop :=
  match msg_type msg with
  | SFTP_READ | SFTP_WRITE | SFTP_FSTAT | SFTP_FSETSTAT =>
      open_file_handles s !! msg_handle msg = None
  | SFTP_READDIR => open_dir_handles s !! msg_handle msg = None
  | SFTP_CLOSE =>
      open_file_handles s !! msg_handle msg = None /\
      open_dir_handles s !! msg_handle msg = None
  | _ => False
  end.

(** A server with one open file and one open directory. *)
Definition example_open_server : SftpServer :=
  {| source_path := "/srv/share";
     target_path := "/mnt";
     gid_mappings := [];
     uid_mappings := [];
     default_uid := 500;
     default_gid := 500;
     open_file_handles := {[ 4096 := QFile.mk "/srv/share/f" ]};
     open_dir_handles := {[ 8192 := [] ]} |}.

Definition example_handle_message (type : sftp_type) (handle : ptr) : sftp_client_message :=
  {| msg_type := type;
     msg_filename := "";
     msg_data := "";
     msg_submessage := None;
     msg_flags := 0;
     msg_offset := 0;
     msg_len := 0;
     msg_handle := handle;
     msg_attr := attr_zero |}.

(** ** Listing a directory *)

Section Listing.
Context `{QtLib} `{Libssh} `{IdSentinels}.

(** A name of a READDIR reply reports the entry [e] of a snapshot: it
    carries the file name of [e], the long name built from [e], and, for
    an entry that is not a symlink, the attributes of [e].  (The
    attributes of a symlink are what the platform answers.) *)
Definition reports (s : SftpServer) (e : QFileInfo.t) (n : name_entry) : Prop :=
  fst (fst n) = QFileInfo.fileName e /\
  snd (fst n) = longname_from e (QFileInfo.fileName e) /\
  (QFileInfo.isSymLink e = false -> snd n = attr_from s e).

(** A client that lists a directory: it sends the READDIR request [msg]
    again and again, at most [requests] times, and collects the names
    replies until the server answers EOF.  The result is [None] when EOF
    has not come within [requests] requests, or when the server answers
    anything else. *)
Fixpoint list_directory (requests : nat) (s : SftpServer) (msg : sftp_client_message)
    : prog (option (list (list name_entry)) * SftpServer) :=
  match requests with
  | O => Ret (None, s)
  | S requests' =>
      answer <- process_message 0 s msg ;;
      match answer with
      | Some (sftp_reply_names names, s') =>
          rest <- list_directory requests' s' msg ;;
          Ret (option_map (cons names) (fst rest), snd rest)
      | Some (sftp_reply_status SSH_FX_EOF _, s') => Ret (Some [], s')
      | Some (_, s') => Ret (None, s')
      | None => Ret (None, s)
      end
  end.

End Listing.

(** A snapshot of [n] regular files, and a server that holds it under
    the handle 8192. *)
Definition example_snapshot (n : nat) : list QFileInfo.t :=
  List.repeat (example_file_info "f" true 1000 1000) n.

Definition example_listing_server (n : nat) : SftpServer :=
  {| source_path := "/srv/share";
     target_path := "/mnt";
     gid_mappings := [];
     uid_mappings := [];
     default_uid := 500;
     default_gid := 500;
     open_file_handles := ∅;
     open_dir_handles := {[ 8192 := example_snapshot n ]} |}.

(** ** Side conditions on the library constants *)

(** What the theorem on the access mode needs of Qt's [OpenModeFlag]
    values and of [SSH_FXF_WRITE]: the write flags are not zero, and
    [Append] shares no bit with the other modes. *)
Definition open_flags_distinct `{QtLib} `{Libssh} : Prop :=
  SSH_FXF_WRITE <> 0 /\
  QIODevice_WriteOnly <> 0 /\
  QIODevice_Append <> 0 /\
  Z.land QIODevice_NotOpen QIODevice_Append = 0 /\
  Z.land QIODevice_ReadOnly QIODevice_Append = 0 /\
  Z.land QIODevice_WriteOnly QIODevice_Append = 0 /\
  Z.land QIODevice_Truncate QIODevice_Append = 0.

(** ** Statements about every run of a handler *)

(** [holds P Q p]: every operation that the tree [p] can perform
    satisfies [P], and every result it can return satisfies [Q],
    whatever the environment answers. *)
Fixpoint holds {A : Type} (P : syscall -> Prop) (Q : A -> Prop) (p : prog A) : Prop :=
  match p with
  | Ret a => Q a
  | Call c k => P c /\ forall r : resp c, holds P Q (k r)
  end.

(** The paths an operation creates, removes, renames, opens or changes
    the attributes of.  (For a link it is the location of the new link;
    operations on an open file go through the file object.) *)
Definition mutated_paths (c : syscall) : list string :=
  match c with
  | QDir_mkdir p | FileOps_rmdir p | FileOps_setPermissions p _
  | FileOps_open _ p _ | FileOps_remove p | FileOps_resize p _
  | Platform_chown p _ _ | Platform_utime p _ _ => [p]
  | FileOps_rename p q => [p; q]
  | Platform_symlink _ new_name _ | Platform_link _ new_name => [new_name]
  | _ => []
  end.

(** The members of the server that the constructor sets. *)
Definition same_config (s s' : SftpServer) : Prop :=
  source_path s' = source_path s /\
  target_path s' = target_path s /\
  gid_mappings s' = gid_mappings s /\
  uid_mappings s' = uid_mappings s /\
  default_uid s' = default_uid s /\
  default_gid s' = default_gid s.

(** Every file in the open-file table was opened under a name that
    passes the source-path check. *)
Definition files_confined (s : SftpServer) : Prop :=
  forall (k : Z) (file : QFile.t),
    open_file_handles s !! k = Some file ->
    validate_path (source_path s) (QFile.fileName file) = true.

(** No key is in both tables. *)
Definition tables_disjoint (s : SftpServer) : Prop :=
  forall k : Z,
    open_file_handles s !! k = None \/ open_dir_handles s !! k = None.

(** How a request may change the server: the state [s'] and the reply
    that a handler can leave when it starts in [s]. *)
Definition transition (s : SftpServer) (msg : sftp_client_message)
    (reply : Reply) (s' : SftpServer) : Prop :=
  match msg_type msg with
  | SFTP_OPEN =>
      (s' = s /\ exists status text, reply = sftp_reply_status status text)
      \/
      (exists h : Z,
         reply = sftp_reply_handle h /\
         validate_path (source_path s) (msg_filename msg) = true /\
         s' = set_open_file_handles s
                (emplace h (QFile.mk (msg_filename msg)) (open_file_handles s)))
  | SFTP_OPENDIR =>
      (s' = s /\ exists status text, reply = sftp_reply_status status text)
      \/
      (exists (h : Z) (entries : list QFileInfo.t),
         reply = sftp_reply_handle h /\
         s' = set_open_dir_handles s (emplace h entries (open_dir_handles s)))
  | SFTP_READDIR =>
      (s' = s /\ exists status text, reply = sftp_reply_status status text)
      \/
      (exists (entries : list QFileInfo.t) (names : list name_entry),
         reply = sftp_reply_names names /\
         open_dir_handles s !! msg_handle msg = Some entries /\
         s' = set_open_dir_handles s
                (<[msg_handle msg := drop 50 entries]> (open_dir_handles s)))
  | SFTP_CLOSE =>
      s' = set_open_dir_handles
             (set_open_file_handles s (delete (msg_handle msg) (open_file_handles s)))
             (delete (msg_handle msg) (open_dir_handles s))
  | _ => s' = s
  end.

(** [transition] for the result of [process_message]. *)
Definition transition_result (s : SftpServer) (msg : sftp_client_message)
    (res : option (Reply * SftpServer)) : Prop :=
  match res with
  | Some (reply, s') => transition s msg reply s'
  | None => True
  end.

(** The property of operations that the confinement statements use:
    provided the files already open were opened under checked names,
    every path the operation changes passes the check against the
    source path of [s]. *)
Definition mutates_confined (s : SftpServer) (c : syscall) : Prop :=
  files_confined s ->
  Forall (fun p => validate_path (source_path s) p = true) (mutated_paths c).

(** An OPEN request with the given flags. *)
Definition example_open (filename : string) (flags : Z) : sftp_client_message :=
  {| msg_type := SFTP_OPEN;
     msg_filename := filename;
     msg_data := "";
     msg_submessage := None;
     msg_flags := flags;
     msg_offset := 0;
     msg_len := 0;
     msg_handle := 0;
     msg_attr := attr_zero |}.

(** The example server after the OPEN of [/srv/share/f] has been
    answered with the handle 4096. *)
Definition example_after_open : SftpServer :=
  set_open_file_handles (example_server "/srv/share" [] [])
    (emplace 4096 (QFile.mk "/srv/share/f") ∅).

(** ** Reading the trace of a handler *)

(** The number of bytes a write operation reports as written, 0 for
    every other event. *)
Definition event_written (e : event) : Z :=
  match e with
  | existT c r =>
      match c return resp c -> Z with
      | FileOps_write _ _ _ => fun r => r
      | _ => fun _ => 0
      end r
  end.

Definition bytes_written (tr : list event) : Z :=
  fold_right (fun e n => event_written e + n) 0 tr.

(** A file layer whose writes make progress: a write either fails
    (negative result) or writes at most what it was given, and at least
    one byte when it was given any. *)
Definition writes_progress `{Environment} : Prop :=
  forall (f : Z) (d : string) (len : Z) (w : world),
    let r := fst (sys (FileOps_write f d len) w) in
    r < 0 \/ (0 <= r <= len /\ (0 < len -> 0 < r)).

(** A file layer on which seeking succeeds and every write reports that
    no byte was written. *)
Definition writes_stall `{Environment} : Prop :=
  (forall (f pos : Z) (w : world), fst (sys (FileOps_seek f pos) w) = true) /\
  (forall (f : Z) (d : string) (len : Z) (w : world),
     fst (sys (FileOps_write f d len) w) = 0).


Section SetstatCalls.
Context `{QtLib} `{Libssh}.


End SetstatCalls.

(** A file layer like [all_there] on which writes report 0 bytes. *)
Definition stalled (c : syscall) : resp c :=
  match c with
  | FileOps_write _ _ _ => 0
  | c' => all_there c'
  end.

(** A request on a handle that carries a payload and attributes. *)
Definition example_payload_message (type : sftp_type) (handle : Z) (data : string)
    (attr : sftp_attributes) : sftp_client_message :=
  {| msg_type := type;
     msg_filename := "";
     msg_data := data;
     msg_submessage := None;
     msg_flags := 0;
     msg_offset := 0;
     msg_len := 100000;
     msg_handle := handle;
     msg_attr := attr |}.


(** Which request may perform a removal: [FileOps_remove] belongs to
    REMOVE (on the file name) and to a rename (on the target), and
    [FileOps_rmdir] to RMDIR. *)
Definition removal_by (msg : sftp_client_message) (c : syscall) : Prop :=
  match c with
  | FileOps_remove p =>
      (msg_type msg = SFTP_REMOVE /\ p = msg_filename msg) \/
      (is_rename msg = true /\ p = msg_data msg)
  | FileOps_rmdir p => msg_type msg = SFTP_RMDIR /\ p = msg_filename msg
  | _ => True
  end.

(** A file layer like [all_there] on which no file exists yet. *)
Definition creating (c : syscall) : resp c :=
  match c with
  | QFile_exists _ => false
  | c' => all_there c'
  end.

(** An OPEN request for a new file, with the uid and gid of the remote
    user. *)
Definition example_create (filename : string) (uid gid : Z) : sftp_client_message :=
  {| msg_type := SFTP_OPEN;
     msg_filename := filename;
     msg_data := "";
     msg_submessage := None;
     msg_flags := 2;
     msg_offset := 0;
     msg_len := 0;
     msg_handle := 0;
     msg_attr :=
       {| attr_flags := 0; attr_size := 0; attr_uid := uid; attr_gid := gid;
          attr_permissions := 420; attr_atime := 0; attr_mtime := 0 |} |}.

(** ** The server loop

    [SftpServer::run], lines 415-464, with [check_sshfs_status] and
    [create_sshfs_process], lines 232-253.  The loop talks to the SSH
    layer: these calls are a second signature.  A call into the SSH
    layer may throw; an exception that the source does not catch ends
    [run]. *)

Inductive thrown : Type :=
| ExitlessSSHProcessException
| runtime_error (what : string)
| other_exception.

Inductive outcome (A : Type) : Type :=
| Value (a : A)
| Throw (e : thrown).

Arguments Value {A} a.
Arguments Throw {A} e.

(** A remote process is named by a number. *)
Inductive ssh_call : Type :=
(* sftp_get_client_message: [None] is the null pointer *)
| sftp_get_client_message
(* the flag that [stop] and the destructor set *)
| read_stop_invoked
(* SSHSession::exec(cmd): the process started *)
| SSHSession_exec (cmd : string)
(* SSHProcess::exit_code(250ms) *)
| SSHProcess_exit_code (process : Z)
| SSHProcess_read_std_output (process : Z)
| SSHProcess_read_std_error (process : Z)
(* make_sftp_session on the channel released by the process *)
| make_sftp_session (process : Z).

Definition ssh_resp (c : ssh_call) : Type :=
  match c with
  | sftp_get_client_message => option sftp_client_message
  | read_stop_invoked => bool
  | SSHSession_exec _ => outcome Z
  | SSHProcess_exit_code _ => outcome Z
  | SSHProcess_read_std_output _ => outcome string
  | SSHProcess_read_std_error _ => outcome string
  | make_sftp_session _ => outcome unit
  end.

(** The operations of the loop: those of the SSH layer, and those of the
    handlers. *)
Inductive run_call : Type :=
| Ssh (c : ssh_call)
| Fs (c : syscall).

Definition run_resp (c : run_call) : Type :=
  match c with
  | Ssh c' => ssh_resp c'
  | Fs c' => resp c'
  end.

Inductive rprog (A : Type) : Type :=
| RRet (a : A)
| RCall (c : run_call) (k : run_resp c -> rprog A).

Arguments RRet {A} a.
Arguments RCall {A} c k.

Fixpoint rbind {A B : Type} (p : rprog A) (f : A -> rprog B) : rprog B :=
  match p with
  | RRet a => f a
  | RCall c k => RCall c (fun r => rbind (k r) f)
  end.

Definition ssh (c : ssh_call) : rprog (ssh_resp c) := RCall (Ssh c) RRet.

(** A handler, as a part of the loop. *)
Fixpoint lift {A : Type} (p : prog A) : rprog A :=
  match p with
  | Ret a => RRet a
  | Call c k => RCall (Fs c) (fun r => lift (k r))
  end.

(** Sequencing of calls that may throw: the first exception ends the
    sequence. *)
Definition try_bind {A B : Type} (p : rprog (outcome A)) (f : A -> rprog (outcome B))
    : rprog (outcome B) :=
  rbind p (fun r => match r with
                    | Value a => f a
                    | Throw e => RRet (Throw e)
                    end).

Declare Scope rprog_scope.
Delimit Scope rprog_scope with rprog.
Notation "x <- p ;; q" := (rbind p (fun x => q))
  (at level 100, p at next level, right associativity) : rprog_scope.
Notation "x <-! p ;; q" := (try_bind p (fun x => q))
  (at level 100, p at next level, right associativity) : rprog_scope.

Definition run_event : Type := { c : run_call & run_resp c }.
Definition REv (c : run_call) (r : run_resp c) : run_event := existT c r.
Definition run_event_call (e : run_event) : run_call := projT1 e.

Class RunEnvironment : Type := {
  rworld : Type;
  rsys : forall c : run_call, rworld -> run_resp c * rworld
}.

Record rrun (A : Type) `{RunEnvironment} : Type := mkRRun {
  rvalue : A;
  rtrace : list run_event;
  rfinal : rworld
}.

Arguments mkRRun {A _} rvalue rtrace rfinal.
Arguments rvalue {A _} r.
Arguments rtrace {A _} r.
Arguments rfinal {A _} r.

Fixpoint rexec `{RunEnvironment} {A : Type} (p : rprog A) (w : rworld) : rrun A :=
  match p with
  | RRet a => mkRRun a [] w
  | RCall c k =>
      let rw := rsys c w in
      let r := rexec (k (fst rw)) (snd rw) in
      mkRRun (rvalue r) (REv c (fst rw) :: rtrace r) (rfinal r)
  end.

(** [rholds P Q p]: as [holds], for the loop. *)
Fixpoint rholds {A : Type} (P : run_call -> Prop) (Q : A -> Prop) (p : rprog A) : Prop :=
  match p with
  | RRet a => Q a
  | RCall c k => P c /\ forall r : run_resp c, rholds P Q (k r)
  end.

(** [on_files P]: [P] of the operations on the file system; nothing is
    asked of a call into the SSH layer. *)
Definition on_files (P : syscall -> Prop) (c : run_call) : Prop :=
  match c with
  | Fs c' => P c'
  | Ssh _ => True
  end.

(** [if_value Q r]: [Q] of the value of a call that has not thrown. *)
Definition if_value {A : Type} (Q : A -> Prop) (r : outcome A) : Prop :=
  match r with
  | Value a => Q a
  | Throw _ => True
  end.

(** [mp::utils::escape_char] is defined in another file; it is a
    parameter here. *)
Class Utils : Type := {
  escape_char : string -> ascii -> string
}.

(** What the loop uses of the server besides the members in [SftpServer]:
    the command line of sshfs and the sshfs process. *)
Record Session : Type := mkSession {
  server : SftpServer;
  sshfs_exec_line : string;
  sshfs_process : Z
}.

(** How [run] ends: it returns, an exception leaves it, or it is still
    looping when the bound on the iterations is reached. *)
Inductive run_result : Type :=
| Finished (sess : Session)
| Uncaught (e : thrown)
| StillRunning.

(** The character of a double quote, and a string between two of
    them. *)
Definition double_quote : ascii := Ascii.ascii_of_nat 34.

Definition quoted (s : string) : string :=
  String double_quote (s ++ String double_quote "").

Section Run.
Context `{QtLib} `{Libssh} `{IdSentinels} `{Utils}.
Local Open Scope rprog_scope.

(** [check_sshfs_status], lines 232-243: the [try] block covers the
    query of the exit code and the read of the error output; only
    [ExitlessSSHProcessException] is caught. *)
Definition check_sshfs_status (process : Z) : rprog (outcome unit) :=
  code <- ssh (SSHProcess_exit_code process) ;;
  match code with
  | Value n =>
      if negb (n =? 0) then
        err <- ssh (SSHProcess_read_std_error process) ;;
        match err with
        | Value what => RRet (Throw (runtime_error what))
        | Throw ExitlessSSHProcessException => RRet (Value tt)
        | Throw e => RRet (Throw e)
        end
      else RRet (Value tt)
  | Throw ExitlessSSHProcessException => RRet (Value tt)
  | Throw e => RRet (Throw e)
  end.

(** [create_sshfs_process], lines 245-253: the process started. *)
Definition create_sshfs_process (sshfs_exec_line source target : string)
    : rprog (outcome Z) :=
  process <-! ssh (SSHSession_exec
                     ("sudo " ++ sshfs_exec_line ++ " :" ++ quoted source
                      ++ " " ++ quoted target)%string) ;;
  _ <-! check_sshfs_status process ;;
  RRet (Value process).

(** The recovery in [SftpServer::run], lines 438-455: unmount what is mounted from
    the source path, start sshfs again, and make a new SFTP session on
    its channel.  The result is the session with the new process. *)
Definition recover (sess : Session) : rprog (outcome Session) :=
  let s := server sess in
  proc <-! ssh (SSHSession_exec
                  ("findmnt --source :" ++ source_path s ++ "  -o TARGET -n")%string) ;;
  mount_path <-! ssh (SSHProcess_read_std_output proc) ;;
  _ <-! (if negb (StdString.empty mount_path)
         then ssh (SSHSession_exec ("sudo umount " ++ mount_path)%string)
         else RRet (Value 0)) ;;
  process <-! create_sshfs_process (sshfs_exec_line sess)
                (escape_char (source_path s) double_quote)
                (escape_char (target_path s) double_quote) ;;
  _ <-! ssh (make_sftp_session process) ;;
  RRet (Value (mkSession s (sshfs_exec_line sess) process)).

(** [SftpServer::run], lines 415-464.  [fuel] bounds the iterations of
    the [while (true)] loop and [wfuel] those of the write loop of a
    handler. *)
Fixpoint SftpServer_run (fuel wfuel : nat) (sess : Session) : rprog run_result :=
  match fuel with
  | O => RRet StillRunning
  | S fuel' =>
      msg <- ssh sftp_get_client_message ;;
      match msg with
      | None =>
          stop_invoked <- ssh read_stop_invoked ;;
          if stop_invoked then RRet (Finished sess)
          else
            code <- ssh (SSHProcess_exit_code (sshfs_process sess)) ;;
            let continue (status : Z) : rprog run_result :=
              if negb (status =? 0) then
                recovered <- recover sess ;;
                match recovered with
                | Value sess' => SftpServer_run fuel' wfuel sess'
                | Throw e => RRet (Uncaught e)
                end
              else RRet (Finished sess) in
            match code with
            | Value status => continue status
            | Throw ExitlessSSHProcessException => continue 1
            | Throw e => RRet (Uncaught e)
            end
      | Some msg =>
          res <- lift (process_message wfuel (server sess) msg) ;;
          match res with
          | Some (_, s') =>
              SftpServer_run fuel' wfuel (mkSession s' (sshfs_exec_line sess) (sshfs_process sess))
          | None => RRet StillRunning
          end
      end
  end.

(** The constructor, lines 281-296: sshfs is started on the escaped
    paths, the SFTP session is made on its channel, and the two handle
    tables start empty. *)
Definition SftpServer_new (source target : string) (gid_map uid_map : id_mappings)
    (uid gid : Z) (exec_line : string) : rprog (outcome Session) :=
  process <-! create_sshfs_process exec_line
                (escape_char source double_quote) (escape_char target double_quote) ;;
  _ <-! ssh (make_sftp_session process) ;;
  RRet (Value (mkSession (mkServer source target gid_map uid_map uid gid ∅ ∅)
                 exec_line process)).

End Run.

(** An SSH layer for the examples: the client sends the messages of a
    list and then nothing more; [stop] is the flag, [exit] the answer to
    a query of an exit code and [mounted] the output of every process;
    the process started is number 7.  The file system answers as
    [answer]. *)
Definition scripted_ssh (stop : bool) (exit : outcome Z) (mounted : string)
    (c : ssh_call) (w : list sftp_client_message)
    : ssh_resp c * list sftp_client_message :=
  match c as c0 return ssh_resp c0 * list sftp_client_message with
  | sftp_get_client_message => (head w, tail w)
  | read_stop_invoked => (stop, w)
  | SSHSession_exec _ => (Value 7, w)
  | SSHProcess_exit_code _ => (exit, w)
  | SSHProcess_read_std_output _ => (Value mounted, w)
  | SSHProcess_read_std_error _ => (Value mounted, w)
  | make_sftp_session _ => (Value tt, w)
  end.

Definition scripted (stop : bool) (exit : outcome Z) (mounted : string)
    (answer : forall c : syscall, resp c) : RunEnvironment :=
  {| rworld := list sftp_client_message;
     rsys := fun c =>
       match c as c0 return list sftp_client_message
                            -> run_resp c0 * list sftp_client_message with
       | Ssh c' => scripted_ssh stop exit mounted c'
       | Fs c' => fun w => (answer c', w)
       end |}.

Definition example_escape : Utils := {| escape_char := fun s _ => s |}.

Definition example_session (source : string) : Session :=
  {| server := example_server source [] [];
     sshfs_exec_line := "sshfs";
     sshfs_process := 7 |}.

(** ** Readings of the answers

    [maps_back M v fallback u]: [u] is the result of mapping the remote
    id [v] back through [M]: the host id of the first entry of [M] whose
    remote id is [v], whatever follows that entry, and [fallback] when
    no entry of [M] has the remote id [v].  One of the two cases applies
    to every map, so [u] is determined. *)
Definition maps_back (M : id_mappings) (v fallback u : Z) : Prop :=
  (forall (pre : id_mappings) (host : Z) (post : id_mappings),
     M = pre ++ (host, v) :: post ->
     (forall e, In e pre -> snd e <> v) ->
     u = host) /\
  ((forall e, In e M -> snd e <> v) -> u = fallback).


(** * Properties *)

(** ** Path confinement is a prefix test *)

Lemma byte_lt_antisym (x y : ascii) :
  StdString.byte_lt x y = false -> StdString.byte_lt y x = false -> x = y.
Proof.
  unfold StdString.byte_lt. intros Hxy Hyx.
  apply N.ltb_ge in Hxy. apply N.ltb_ge in Hyx.
  rewrite <- (ascii_N_embedding x), <- (ascii_N_embedding y).
  f_equal. lia.
Qed.

Lemma byte_lt_irrefl (x : ascii) : StdString.byte_lt x x = false.
Proof. unfold StdString.byte_lt. apply N.ltb_irrefl. Qed.

Lemma compare3_prefix (src p : string) :
  (StdString.compare p 0 (String.length src) src =? 0) = String.prefix src p.
Proof.
  unfold StdString.compare. rewrite Nat.sub_0_r.
  revert p. induction src as [|c src IH]; intros p.
  - destruct p; reflexivity.
  - destruct p as [|d p]; [reflexivity|].
    cbn [String.length Nat.min substring StdString.compare3 String.prefix].
    destruct (ascii_dec c d) as [->|Hne].
    + rewrite byte_lt_irrefl. apply IH.
    + destruct (StdString.byte_lt d c) eqn:Hdc; [reflexivity|].
      destruct (StdString.byte_lt c d) eqn:Hcd; [reflexivity|].
      exfalso. apply Hne. symmetry. now apply byte_lt_antisym.
Qed.

(** [validate_path] accepts exactly the paths that begin with the bytes
    of a non-empty source path. *)
Lemma validate_path_prefix (src p : string) :
  validate_path src p = negb (StdString.empty src) && String.prefix src p.
Proof.
  unfold validate_path. destruct (StdString.empty src); [reflexivity|].
  apply compare3_prefix.
Qed.

Lemma validate_path_not_prefix (src p : string) :
  String.prefix src p = false -> validate_path src p = false.
Proof.
  intros Hp. rewrite validate_path_prefix, Hp. apply andb_false_r.
Qed.

Lemma validate_path_empty_source (p : string) : validate_path "" p = false.
Proof. reflexivity. Qed.

(** ** Identity mapping *)

Lemma find_if_first {A : Type} (pred : A -> bool) (pre : list A) (x : A) (post : list A) :
  (forall e, In e pre -> pred e = false) ->
  pred x = true ->
  find_if pred (pre ++ x :: post) = Some x.
Proof.
  unfold find_if. induction pre as [|e pre IH]; intros Hpre Hx; cbn.
  - now rewrite Hx.
  - rewrite (Hpre e (or_introl eq_refl)). apply IH; [|exact Hx].
    intros e' He'. apply Hpre. now right.
Qed.

Lemma find_if_none {A : Type} (pred : A -> bool) (l : list A) :
  (forall e, In e l -> pred e = false) -> find_if pred l = None.
Proof.
  unfold find_if. induction l as [|e l IH]; intros Hl; cbn; [reflexivity|].
  rewrite (Hl e (or_introl eq_refl)). apply IH.
  intros e' He'. apply Hl. now right.
Qed.

Section IdMappingFacts.
Context `{IdSentinels}.

(** C3. The forward mapping of an id [u] through a map [M] with fallback
    [f]: [f] when [u] is [NO_ID_INFO]; otherwise the first entry of [M]
    whose first component is [u] decides ([f] when its second component
    is [DEFAULT_ID], else that second component), and [u] itself comes
    back when no entry has first component [u]. *)
Theorem mapped_id_for_first_match (M : id_mappings) (u f : Z) :
  (u = no_id_info_available -> mapped_id_for M u f = f) /\
  (u <> no_id_info_available ->
   (forall (pre : id_mappings) (v : Z) (post : id_mappings),
      M = pre ++ (u, v) :: post ->
      (forall e, In e pre -> fst e <> u) ->
      mapped_id_for M u f = if v =? default_id then f else v) /\
   ((forall e, In e M -> fst e <> u) -> mapped_id_for M u f = u)).
Proof.
  unfold mapped_id_for. split.
  - intros ->. now rewrite Z.eqb_refl.
  - intros Hu. apply Z.eqb_neq in Hu. rewrite Hu. split.
    + intros pre v post -> Hpre.
      rewrite (find_if_first _ pre (u, v) post); cbn; [reflexivity| |apply Z.eqb_refl].
      intros e He. apply Z.eqb_neq. intros Heq. now apply (Hpre e He).
    + intros Hnone. rewrite find_if_none; [reflexivity|].
      intros e He. apply Z.eqb_neq. intros Heq. now apply (Hnone e He).
Qed.

(** C4. The reverse mapping of an id [v] through [M] with fallback [r]:
    the first component of the first entry of [M] whose second component
    is [v], whatever follows that entry (later entries with the same
    second component are neither used nor refused), and [r] when no
    entry has second component [v]. *)
Theorem reverse_id_for_first_match (M : id_mappings) (v r : Z) :
  (forall (pre : id_mappings) (u : Z) (post : id_mappings),
     M = pre ++ (u, v) :: post ->
     (forall e, In e pre -> snd e <> v) ->
     reverse_id_for M v r = u) /\
  ((forall e, In e M -> snd e <> v) -> reverse_id_for M v r = r).
Proof.
  unfold reverse_id_for. split.
  - intros pre u post -> Hpre.
    rewrite (find_if_first _ pre (u, v) post); cbn; [reflexivity| |apply Z.eqb_refl].
    intros e He. apply Z.eqb_neq. intros Heq. now apply (Hpre e He).
  - intros Hnone. rewrite find_if_none; [reflexivity|].
    intros e He. apply Z.eqb_neq. intros Heq. now apply (Hnone e He).
Qed.

(** The reverse mapping yields what [maps_back] describes. *)
Lemma reverse_id_for_maps_back (M : id_mappings) (v r : Z) :
  maps_back M v r (reverse_id_for M v r).
Proof.
  unfold maps_back, reverse_id_for. split.
  - intros pre host post -> Hpre.
    rewrite (find_if_first _ pre (host, v) post); cbn; [reflexivity| |apply Z.eqb_refl].
    intros e He. apply Z.eqb_neq. intros Heq. now apply (Hpre e He).
  - intros Hnone. rewrite find_if_none; [reflexivity|].
    intros e He. apply Z.eqb_neq. intros Heq. now apply (Hnone e He).
Qed.

End IdMappingFacts.

(** The forward mapping on three small inputs: the sentinel input, an id
    whose first entry advertises the default (a later entry for the same
    id is ignored), and an id without an entry. *)
Lemma mapped_id_for_first_match_witness :
  @mapped_id_for example_sentinels [(1000, 2000)] (-1) 500 = 500 /\
  @mapped_id_for example_sentinels [(7, 8); (1000, -1); (1000, 2000)] 1000 500 = 500 /\
  @mapped_id_for example_sentinels [(7, 8); (1000, 2000); (1000, 3000)] 1000 500 = 2000 /\
  @mapped_id_for example_sentinels [(7, 8)] 1000 500 = 1000.
Proof.
  split; [|split; [|split]].
  - apply (proj1 (@mapped_id_for_first_match example_sentinels [(1000, 2000)] (-1) 500)).
    reflexivity.
  - apply (proj1 (proj2 (@mapped_id_for_first_match example_sentinels
                           [(7, 8); (1000, -1); (1000, 2000)] 1000 500) ltac:(cbn; lia))
             [(7, 8)] (-1) [(1000, 2000)] eq_refl).
    intros e [<-|[]]. cbn. lia.
  - apply (proj1 (proj2 (@mapped_id_for_first_match example_sentinels
                           [(7, 8); (1000, 2000); (1000, 3000)] 1000 500) ltac:(cbn; lia))
             [(7, 8)] 2000 [(1000, 3000)] eq_refl).
    intros e [<-|[]]. cbn. lia.
  - apply (proj2 (proj2 (@mapped_id_for_first_match example_sentinels [(7, 8)] 1000 500)
                    ltac:(cbn; lia))).
    intros e [<-|[]]. cbn. lia.
Defined.

(** The reverse mapping with a duplicated remote id, and on a miss. *)
Lemma reverse_id_for_first_match_witness :
  reverse_id_for [(7, 8); (1000, 2000); (1001, 2000)] 2000 42 = 1000 /\
  reverse_id_for [(7, 8); (1000, 2000)] 9 42 = 42.
Proof.
  split.
  - apply (proj1 (reverse_id_for_first_match [(7, 8); (1000, 2000); (1001, 2000)] 2000 42)
             [(7, 8)] 1000 [(1001, 2000)] eq_refl).
    intros e [<-|[]]. cbn. lia.
  - apply (proj2 (reverse_id_for_first_match [(7, 8); (1000, 2000)] 9 42)).
    intros e [<-|[<-|[]]]; cbn; lia.
Defined.

(** ** Running programs *)

Section ExecFacts.
Context `{Environment}.

Lemma exec_bind {A B : Type} (p : prog A) (f : A -> prog B) (w : world) :
  exec (bind p f) w =
  mkRun (value (exec (f (value (exec p w))) (final (exec p w))))
        (trace (exec p w) ++ trace (exec (f (value (exec p w))) (final (exec p w))))
        (final (exec (f (value (exec p w))) (final (exec p w)))).
Proof.
  revert w. induction p as [a|c k IH]; intros w; cbn.
  - now destruct (exec (f a) w).
  - rewrite IH. reflexivity.
Qed.

End ExecFacts.

(** One step of [exec]: name the answer of the next operation and the
    state it leaves. *)
Ltac run_step :=
  match goal with
  | |- context [sys ?c ?w] =>
      is_var w;
      let r := fresh "r" in
      let w' := fresh "w" in
      destruct (sys c w) as [r w']; cbn [fst snd]
  end.

(** ** Flag words *)

Lemma test_bits_lor (a b f : Z) :
  test_bits (Z.lor a b) f = test_bits a f || test_bits b f.
Proof.
  unfold test_bits. rewrite Z.land_lor_distr_l.
  destruct (Z.land a f =? 0) eqn:Ha, (Z.land b f =? 0) eqn:Hb; cbn;
    rewrite ?Z.eqb_eq, ?Z.eqb_neq in *.
  - rewrite Ha, Hb. reflexivity.
  - apply negb_true_iff, Z.eqb_neq. rewrite Z.lor_eq_0_iff. tauto.
  - apply negb_true_iff, Z.eqb_neq. rewrite Z.lor_eq_0_iff. tauto.
  - apply negb_true_iff, Z.eqb_neq. rewrite Z.lor_eq_0_iff. tauto.
Qed.

Lemma test_bits_or_if (c : bool) (g out f : Z) :
  test_bits (or_if c g out) f = test_bits out f || (c && test_bits g f).
Proof.
  unfold or_if. destruct c; cbn.
  - apply test_bits_lor.
  - now rewrite orb_false_r.
Qed.

Lemma test_bits_diag (f : Z) : f <> 0 -> test_bits f f = true.
Proof.
  intros Hf. unfold test_bits. rewrite Z.land_diag.
  now apply negb_true_iff, Z.eqb_neq.
Qed.

Lemma test_bits_disjoint (a f : Z) : Z.land a f = 0 -> test_bits a f = false.
Proof. intros Ha. unfold test_bits. now rewrite Ha. Qed.

(** ** OPEN: the access mode *)

Section OpenFacts.
Context `{QtLib} `{Libssh} `{IdSentinels} `{Environment}.

Lemma open_mode_write_alone :
  open_flags_distinct ->
  test_bits (open_mode SSH_FXF_WRITE) QIODevice_WriteOnly = true /\
  test_bits (open_mode SSH_FXF_WRITE) QIODevice_Append = true.
Proof.
  intros (Hw & Hwo & Hap & _).
  unfold open_mode. rewrite (test_bits_diag _ Hw), Z.eqb_refl.
  rewrite !test_bits_or_if. cbn [or_if]. rewrite !test_bits_lor.
  rewrite (test_bits_diag _ Hwo), (test_bits_diag _ Hap).
  now rewrite !orb_true_r.
Qed.

Lemma open_mode_append (flags : Z) :
  open_flags_distinct ->
  flags <> SSH_FXF_WRITE ->
  test_bits (open_mode flags) QIODevice_Append = test_bits flags SSH_FXF_APPEND.
Proof.
  intros (Hw & Hwo & Hap & Hno & Hro & Hwoa & Htr) Hne.
  apply Z.eqb_neq in Hne.
  unfold open_mode. rewrite Hne. cbn [or_if].
  destruct (test_bits flags SSH_FXF_WRITE);
    rewrite !test_bits_or_if, ?test_bits_lor, ?test_bits_or_if;
    rewrite (test_bits_disjoint _ _ Hno), (test_bits_disjoint _ _ Hro),
      ?(test_bits_disjoint _ _ Hwoa), (test_bits_disjoint _ _ Htr),
      (test_bits_diag _ Hap);
    rewrite !andb_false_r, ?andb_true_r; cbn; apply orb_false_r.
Qed.

(** A request that passes the path check reaches [MP_FILEOPS.open] once,
    with the mode built from its flags. *)
Lemma handle_open_calls_open (s : SftpServer) (msg : sftp_client_message) (w : world) :
  validate_path (source_path s) (msg_filename msg) = true ->
  exists (file : Z) (opened : bool),
    In (Ev (FileOps_open file (msg_filename msg) (open_mode (msg_flags msg))) opened)
       (trace (exec (handle_open s msg) w)) /\
    forall (e : event) (f : Z) (p : string) (m : Z),
      In e (trace (exec (handle_open s msg) w)) ->
      event_call e = FileOps_open f p m ->
      m = open_mode (msg_flags msg).
Proof.
  intros Hv. unfold handle_open. rewrite Hv. cbn.
  run_step. run_step. exists r.
  assert (Hopen : forall (exists_ : bool) (w2 : world),
    let rest := exec
      (opened <- call (FileOps_open r (msg_filename msg) (open_mode (msg_flags msg))) ;;
       if negb opened then Ret (reply_failure, s)
       else
         let finish : prog (Reply * SftpServer) :=
           allocated <- call (sftp_handle_alloc r) ;;
           if negb allocated then Ret (reply_failure, s)
           else
             Ret (sftp_reply_handle r,
                  set_open_file_handles s
                    (emplace r (QFile.mk (msg_filename msg)) (open_file_handles s))) in
         if negb exists_ then
           set <- call (FileOps_setPermissions (msg_filename msg)
                          (to_qt_permissions (attr_permissions (msg_attr msg)))) ;;
           if negb set then Ret (reply_failure, s)
           else
             current_dir <- call (QFileInfo_new (QFileInfo_path (msg_filename msg))) ;;
             let new_uid := reverse_uid_for s (to_int (attr_uid (msg_attr msg)))
                                              (to_int (QFileInfo.ownerId current_dir)) in
             let new_gid := reverse_gid_for s (to_int (attr_gid (msg_attr msg)))
                                              (to_int (QFileInfo.groupId current_dir)) in
             r <- call (Platform_chown (msg_filename msg) new_uid new_gid) ;;
             if r <? 0 then Ret (reply_failure, s)
             else finish
         else finish) w2 in
    exists opened : bool,
      In (Ev (FileOps_open r (msg_filename msg) (open_mode (msg_flags msg))) opened)
         (trace rest) /\
      forall (e : event) (f : Z) (p : string) (m : Z),
        In e (trace rest) -> event_call e = FileOps_open f p m ->
        m = open_mode (msg_flags msg)).
  { intros exists_ w2. cbn. run_step. exists r1. split; [now left|].
    intros e f p m He Hc.
    destruct r1; cbn in He; [|destruct He as [<-|[]]; cbn in Hc; congruence].
    destruct exists_; cbn in He.
    - revert He. run_step. intros He.
      destruct r1; cbn in He;
        repeat (destruct He as [<-|He]; [cbn in Hc; congruence|]); destruct He.
    - revert He. run_step. destruct r1; cbn.
      + run_step. run_step. intros He.
        destruct (r2 <? 0); cbn in He.
        * repeat (destruct He as [<-|He]; [cbn in Hc; congruence|]); destruct He.
        * revert He. run_step. intros He.
          destruct r3; cbn in He;
            repeat (destruct He as [<-|He]; [cbn in Hc; congruence|]); destruct He.
      + intros He.
        repeat (destruct He as [<-|He]; [cbn in Hc; congruence|]); destruct He. }
  destruct (QFileInfo.isSymLink r0); cbn.
  - destruct (Hopen true w1) as (opened & Hin & Honly). exists opened. split.
    + right. right. exact Hin.
    + intros e f p m [<-|[<-|He]] Hc; [discriminate Hc|discriminate Hc|].
      now apply (Honly e f p m).
  - run_step. destruct (Hopen r1 w2) as (opened & Hin & Honly). exists opened. split.
    + right. right. right. exact Hin.
    + intros e f p m [<-|[<-|[<-|He]]] Hc;
        [discriminate Hc|discriminate Hc|discriminate Hc|].
      now apply (Honly e f p m).
Qed.

(** C5. An OPEN request on a validated path opens the file through
    [MP_FILEOPS.open], once, with a mode such that: when the flag word
    is exactly WRITE, the mode has both the write and the append bit;
    when the flag word contains WRITE and is not WRITE alone, the mode
    has the append bit exactly when the flag word has APPEND. *)
Theorem open_write_alone_appends (s : SftpServer) (msg : sftp_client_message) (w : world) :
  open_flags_distinct ->
  validate_path (source_path s) (msg_filename msg) = true ->
  exists (file : Z) (mode : Z) (opened : bool),
    In (Ev (FileOps_open file (msg_filename msg) mode) opened)
       (trace (exec (handle_open s msg) w)) /\
    (forall (e : event) (f : Z) (p : string) (m : Z),
       In e (trace (exec (handle_open s msg) w)) ->
       event_call e = FileOps_open f p m -> m = mode) /\
    (msg_flags msg = SSH_FXF_WRITE ->
     test_bits mode QIODevice_WriteOnly = true /\
     test_bits mode QIODevice_Append = true) /\
    (test_bits (msg_flags msg) SSH_FXF_WRITE = true ->
     msg_flags msg <> SSH_FXF_WRITE ->
     (test_bits mode QIODevice_Append = true <->
      test_bits (msg_flags msg) SSH_FXF_APPEND = true)).
Proof.
  intros Hd Hv.
  destruct (handle_open_calls_open s msg w Hv) as (file & opened & Hin & Honly).
  exists file, (open_mode (msg_flags msg)), opened.
  split; [exact Hin|]. split; [exact Honly|]. split.
  - intros Heq. rewrite Heq. now apply open_mode_write_alone.
  - intros _ Hne. now rewrite open_mode_append.
Qed.

End OpenFacts.

(** OPEN of [/srv/share/log] with flags = WRITE, on the example
    instances. *)
Lemma open_write_alone_appends_witness :
  @open_flags_distinct example_qt example_libssh /\
  exists (file : ptr) (mode : Z) (opened : bool),
    In (Ev (FileOps_open file "/srv/share/log" mode) opened)
       (trace (@exec (stateless all_there) _
                 (@handle_open example_qt example_libssh
                    (example_server "/srv/share" [] [])
                    {| msg_type := SFTP_OPEN; msg_filename := "/srv/share/log";
                       msg_data := ""; msg_submessage := None; msg_flags := 2;
                       msg_offset := 0; msg_len := 0; msg_handle := 0;
                       msg_attr := attr_zero |}) tt)) /\
    test_bits mode 2 = true /\ test_bits mode 4 = true.
Proof.
  assert (Hd : @open_flags_distinct example_qt example_libssh).
  { unfold open_flags_distinct. cbn. repeat (split; [first [discriminate | reflexivity]|]).
    reflexivity. }
  split; [exact Hd|].
  destruct (@open_write_alone_appends example_qt example_libssh (stateless all_there)
              (example_server "/srv/share" [] [])
              {| msg_type := SFTP_OPEN; msg_filename := "/srv/share/log";
                 msg_data := ""; msg_submessage := None; msg_flags := 2;
                 msg_offset := 0; msg_len := 0; msg_handle := 0;
                 msg_attr := attr_zero |} tt Hd eq_refl)
    as (file & mode & opened & Hin & _ & Hwrite & _).
  exists file, mode, opened. split; [exact Hin|]. apply Hwrite. reflexivity.
Defined.

(** ** Path confinement in the handlers *)

Section Confinement.
Context `{QtLib} `{Libssh} `{IdSentinels}.

(** The first check of a handler comes before anything else: when it
    fails, the handler is the one-node tree that replies
    PERMISSION_DENIED and leaves the server as it was. *)
Lemma first_check_denied (fuel : nat) (s : SftpServer) (msg : sftp_client_message) (p : string) :
  first_checked_path msg = Some p ->
  validate_path (source_path s) p = false ->
  process_message fuel s msg = Ret (Some (reply_perm_denied, s)).
Proof.
  unfold first_checked_path, is_hardlink, is_rename, process_message.
  destruct (msg_type msg) eqn:Ht; intros Hp Hv; try discriminate;
    try (injection Hp as <-;
         unfold handle_realpath, handle_opendir, handle_mkdir, handle_rmdir,
           handle_stat, handle_open, handle_rename, handle_remove,
           handle_setstat, handle_readlink, handle_symlink;
         rewrite ?Ht, Hv; reflexivity).
  unfold handle_extended. destruct (msg_submessage msg) as [method|]; [|discriminate].
  destruct (String.eqb method "hardlink@openssh.com").
  - injection Hp as <-. now rewrite Hv.
  - cbn in Hp. destruct (String.eqb method "posix-rename@openssh.com"); [|discriminate].
    injection Hp as <-. unfold handle_rename. now rewrite Hv.
Qed.

(** The requests that go through [handle_rename]. *)
Lemma process_message_rename (fuel : nat) (s : SftpServer) (msg : sftp_client_message) :
  is_rename msg = true ->
  process_message fuel s msg = returns (handle_rename s msg).
Proof.
  unfold is_rename, process_message.
  destruct (msg_type msg); try discriminate; [reflexivity|].
  unfold handle_extended. destruct (msg_submessage msg) as [method|]; [|discriminate].
  destruct (String.eqb method "hardlink@openssh.com"); [discriminate|].
  destruct (String.eqb method "posix-rename@openssh.com"); [reflexivity|discriminate].
Qed.

Context `{Environment}.

(** A rename whose source passes the check and whose target does not:
    the handler looks the source up, and replies PERMISSION_DENIED if it
    is a symlink or exists, NO_SUCH_FILE if not. *)
Lemma rename_unconfined_target (fuel : nat) (s : SftpServer) (msg : sftp_client_message) (w : world) :
  is_rename msg = true ->
  validate_path (source_path s) (msg_filename msg) = true ->
  validate_path (source_path s) (msg_data msg) = false ->
  let r := exec (process_message fuel s msg) w in
  exists (info : QFileInfo.t),
    (QFileInfo.isSymLink info = true /\
     trace r = [Ev (QFileInfo_new (msg_filename msg)) info] /\
     value r = Some (reply_perm_denied, s))
    \/
    (QFileInfo.isSymLink info = false /\
     trace r = [Ev (QFileInfo_new (msg_filename msg)) info;
                Ev (QFile_exists (msg_filename msg)) true] /\
     value r = Some (reply_perm_denied, s))
    \/
    (QFileInfo.isSymLink info = false /\
     trace r = [Ev (QFileInfo_new (msg_filename msg)) info;
                Ev (QFile_exists (msg_filename msg)) false] /\
     value r = Some (sftp_reply_status SSH_FX_NO_SUCH_FILE (Some "no such file"), s)).
Proof.
  intros Hr Hsrc Htgt.
  rewrite (process_message_rename fuel s msg Hr).
  unfold handle_rename, returns. rewrite Hsrc, Htgt. cbn.
  run_step. exists r. destruct (QFileInfo.isSymLink r) eqn:Hsym; cbn.
  - left. auto.
  - right. run_step. destruct r0; cbn; auto.
Qed.

(** C1, as the code has it.  A request whose first checked path does not
    begin with the bytes of the source path is answered
    PERMISSION_DENIED by a handler that performs no operation at all.
    The target of a rename is checked second: when the source passes
    the check and the target does not begin with the source path, the
    handler has already looked the source up (and nothing else); it then
    replies PERMISSION_DENIED if the source is a symlink or exists, and
    NO_SUCH_FILE if not.  In both cases nothing is removed or renamed. *)
Theorem unconfined_path_denied (fuel : nat) (s : SftpServer) (msg : sftp_client_message) (w : world) :
  (forall p, first_checked_path msg = Some p ->
     String.prefix (source_path s) p = false ->
     process_message fuel s msg = Ret (Some (reply_perm_denied, s))) /\
  (is_rename msg = true ->
   validate_path (source_path s) (msg_filename msg) = true ->
   String.prefix (source_path s) (msg_data msg) = false ->
   let r := exec (process_message fuel s msg) w in
   exists (info : QFileInfo.t),
     (QFileInfo.isSymLink info = true /\
      trace r = [Ev (QFileInfo_new (msg_filename msg)) info] /\
      value r = Some (reply_perm_denied, s))
     \/
     (QFileInfo.isSymLink info = false /\
      trace r = [Ev (QFileInfo_new (msg_filename msg)) info;
                 Ev (QFile_exists (msg_filename msg)) true] /\
      value r = Some (reply_perm_denied, s))
     \/
     (QFileInfo.isSymLink info = false /\
      trace r = [Ev (QFileInfo_new (msg_filename msg)) info;
                 Ev (QFile_exists (msg_filename msg)) false] /\
      value r = Some (sftp_reply_status SSH_FX_NO_SUCH_FILE (Some "no such file"), s))).
Proof.
  split.
  - intros p Hp Hpre. apply (first_check_denied fuel s msg p Hp).
    now apply validate_path_not_prefix.
  - intros Hr Hsrc Htgt. apply rename_unconfined_target; [exact Hr|exact Hsrc|].
    now apply validate_path_not_prefix.
Qed.

End Confinement.

(** Scenario 1 of the specification (OPEN of [/etc/passwd] under the
    source [/srv/share]), and a rename from inside the share to
    [/etc/passwd] on a file system where the source exists. *)
Lemma unconfined_path_denied_witness :
  @process_message example_qt example_libssh example_sentinels 0
     (example_server "/srv/share" [] [])
     (example_message SFTP_OPEN "/etc/passwd" "")
  = Ret (Some (reply_perm_denied, example_server "/srv/share" [] [])) /\
  exists (info : QFileInfo.t),
    trace (@exec (stateless all_there) _
             (@process_message example_qt example_libssh example_sentinels 0
                (example_server "/srv/share" [] [])
                (example_message SFTP_RENAME "/srv/share/a" "/etc/passwd")) tt)
    = [Ev (QFileInfo_new "/srv/share/a") info; Ev (QFile_exists "/srv/share/a") true].
Proof.
  split.
  - apply (proj1 (@unconfined_path_denied example_qt example_libssh example_sentinels
                    (stateless all_there) 0 (example_server "/srv/share" [] [])
                    (example_message SFTP_OPEN "/etc/passwd" "") tt)
             "/etc/passwd" eq_refl eq_refl).
  - destruct (proj2 (@unconfined_path_denied example_qt example_libssh example_sentinels
                       (stateless all_there) 0 (example_server "/srv/share" [] [])
                       (example_message SFTP_RENAME "/srv/share/a" "/etc/passwd") tt)
                eq_refl eq_refl eq_refl) as [info [(_ & Ht & _)|[(_ & Ht & _)|(_ & _ & Hv)]]].
    + cbn in Ht. discriminate Ht.
    + exists info. exact Ht.
    + cbn in Hv. discriminate Hv.
Defined.

(** The claim as it is written fails for the target of a rename: here
    the target [/etc/passwd] does not begin with the source path, the
    source of the rename does not exist, and the reply is NO_SUCH_FILE
    after two operations on the file system. *)
Lemma rename_target_not_denied :
  In "/etc/passwd"
     (checked_paths (example_message SFTP_RENAME "/srv/share/a" "/etc/passwd")) /\
  String.prefix "/srv/share" "/etc/passwd" = false /\
  value (@exec (stateless nothing_there) _
           (@process_message example_qt example_libssh example_sentinels 0
              (example_server "/srv/share" [] [])
              (example_message SFTP_RENAME "/srv/share/a" "/etc/passwd")) tt)
  = Some (sftp_reply_status SSH_FX_NO_SUCH_FILE (Some "no such file"),
          example_server "/srv/share" [] []) /\
  List.length
    (trace (@exec (stateless nothing_there) _
              (@process_message example_qt example_libssh example_sentinels 0
                 (example_server "/srv/share" [] [])
                 (example_message SFTP_RENAME "/srv/share/a" "/etc/passwd")) tt))
  = 2%nat.
Proof.
  split; [right; left; reflexivity|].
  split; [reflexivity|]. split; reflexivity.
Qed.

Section EmptySource.
Context `{QtLib} `{Libssh} `{IdSentinels}.

(** C10. With an empty source path no path passes the check, not even
    though every path begins with the empty string, and every request
    that names a path is answered PERMISSION_DENIED before any
    operation. *)
Theorem empty_source_denies_all (fuel : nat) (s : SftpServer) (msg : sftp_client_message) :
  source_path s = "" ->
  (forall p,
     String.prefix (source_path s) p = true /\
     validate_path (source_path s) p = false) /\
  (forall p, first_checked_path msg = Some p ->
     process_message fuel s msg = Ret (Some (reply_perm_denied, s))).
Proof.
  intros Hs. split.
  - intros p. rewrite Hs. split; [now destruct p|reflexivity].
  - intros p Hp. apply (first_check_denied fuel s msg p Hp).
    rewrite Hs. reflexivity.
Qed.

End EmptySource.

Lemma empty_source_denies_all_witness :
  @process_message example_qt example_libssh example_sentinels 0
     (example_server "" [] []) (example_message SFTP_STAT "/srv/share/f" "")
  = Ret (Some (reply_perm_denied, example_server "" [] [])).
Proof.
  apply (proj2 (@empty_source_denies_all example_qt example_libssh example_sentinels 0
                  (example_server "" [] []) (example_message SFTP_STAT "/srv/share/f" "")
                  eq_refl) "/srv/share/f" eq_refl).
Defined.

(** ** Which paths reach the file system *)

Section SyscallPaths.
Context `{QtLib} `{Libssh} `{IdSentinels} `{Environment}.

Lemma request_paths_cases (msg : sftp_client_message) (p q : string) :
  first_checked_path msg = Some q ->
  In p (request_paths msg) ->
  p = q \/
  (is_rename msg = true /\ q = msg_filename msg /\ p = msg_data msg) \/
  (is_link_request msg = true /\ q = msg_data msg /\ p = msg_filename msg).
Proof.
  unfold request_paths. intros Hq. rewrite Hq. revert Hq.
  unfold first_checked_path, is_link_request, is_rename, is_hardlink.
  destruct (msg_type msg); try discriminate; cbn;
    try (intros [= <-] [<-|[]]; now left).
  - (* RENAME *) intros [= <-] [<-|[<-|[]]]; [now left|right; left; auto].
  - (* SYMLINK *) intros [= <-] [<-|[<-|[]]]; [right; right; auto|now left].
  - (* EXTENDED *)
    destruct (msg_submessage msg) as [method|]; [|discriminate].
    destruct (String.eqb method "hardlink@openssh.com"); cbn.
    + intros [= <-] [<-|[<-|[]]]; [right; right; auto|now left].
    + destruct (String.eqb method "posix-rename@openssh.com"); [|discriminate]. cbn.
      intros [= <-] [<-|[<-|[]]]; [now left|right; left; auto].
Qed.

(** C2, as the code has it.  A path argument of a request that reaches
    an operation on the file system or the platform has passed the
    source-path check, with one exception: the file name ([old_name]) of
    SYMLINK and of the hardlink extension reaches the platform without
    a check; only the data field ([new_name]) of these requests is
    checked. *)
Theorem request_paths_checked (fuel : nat) (s : SftpServer) (msg : sftp_client_message)
    (w : world) (e : event) (p : string) :
  In e (trace (exec (process_message fuel s msg) w)) ->
  In p (syscall_paths (event_call e)) ->
  In p (request_paths msg) ->
  validate_path (source_path s) p = true \/
  (is_link_request msg = true /\ p = msg_filename msg /\
   validate_path (source_path s) (msg_data msg) = true).
Proof.
  intros He Hp Hreq.
  destruct (first_checked_path msg) as [q|] eqn:Hq;
    [|unfold request_paths in Hreq; rewrite Hq in Hreq; destruct Hreq].
  destruct (validate_path (source_path s) q) eqn:Hvq;
    [|rewrite (first_check_denied fuel s msg q Hq Hvq) in He; destruct He].
  destruct (request_paths_cases msg p q Hq Hreq)
    as [->|[(Hr & -> & ->)|(Hl & -> & ->)]].
  - now left.
  - left. destruct (validate_path (source_path s) (msg_data msg)) eqn:Hvt; [reflexivity|].
    exfalso.
    destruct (rename_unconfined_target fuel s msg w Hr Hvq Hvt)
      as [info [(_ & Ht & _)|[(_ & Ht & _)|(_ & Ht & _)]]];
      rewrite Ht in He; cbn in He;
      repeat (destruct He as [<-|He];
              [cbn in Hp; destruct Hp as [Heq|[]]; rewrite Heq in Hvq; congruence|]);
      destruct He.
  - right. auto.
Qed.

End SyscallPaths.

(** The claim as it is written fails for SYMLINK: the link text
    [/etc/passwd] is a path argument of the request, it does not pass
    the check, and it reaches the platform's symlink call. *)
Lemma symlink_old_name_unchecked :
  In (Ev (Platform_symlink "/etc/passwd" "/srv/share/l" false) true)
     (trace (@exec (stateless all_there) _
               (@process_message example_qt example_libssh example_sentinels 0
                  (example_server "/srv/share" [] [])
                  (example_message SFTP_SYMLINK "/etc/passwd" "/srv/share/l")) tt)) /\
  In "/etc/passwd" (syscall_paths (Platform_symlink "/etc/passwd" "/srv/share/l" false)) /\
  In "/etc/passwd" (request_paths (example_message SFTP_SYMLINK "/etc/passwd" "/srv/share/l")) /\
  validate_path "/srv/share" "/etc/passwd" = false.
Proof.
  split; [right; left; reflexivity|].
  split; [left; reflexivity|].
  split; [left; reflexivity|reflexivity].
Qed.

Lemma request_paths_checked_witness :
  validate_path "/srv/share" "/srv/share/b" = true \/
  (is_link_request (example_message SFTP_RENAME "/srv/share/a" "/srv/share/b") = true /\
   "/srv/share/b" = "/srv/share/a" /\
   validate_path "/srv/share" "/srv/share/b" = true).
Proof.
  apply (@request_paths_checked example_qt example_libssh example_sentinels
           (stateless all_there) 0 (example_server "/srv/share" [] [])
           (example_message SFTP_RENAME "/srv/share/a" "/srv/share/b") tt
           (Ev (FileOps_remove "/srv/share/b") true) "/srv/share/b").
  - right. right. right. left. reflexivity.
  - left. reflexivity.
  - right. left. reflexivity.
Defined.

(** ** RENAME *)

Section Rename.
Context `{QtLib} `{Libssh} `{IdSentinels} `{Environment}.

(** C6. A rename whose source and target both pass the check.  Either
    the source is neither a symlink nor an existing file and the reply
    is NO_SUCH_FILE; or the handler asks whether the target exists,
    removes it first if it does (FAILURE when the removal fails), then
    renames the source to the target (FAILURE when that fails, OK when
    it succeeds).  The trace lists the operations in the order they are
    performed; the server state is unchanged. *)
Theorem rename_removes_target_first (fuel : nat) (s : SftpServer) (msg : sftp_client_message) (w : world) :
  is_rename msg = true ->
  validate_path (source_path s) (msg_filename msg) = true ->
  validate_path (source_path s) (msg_data msg) = true ->
  let source := msg_filename msg in
  let target := msg_data msg in
  let r := exec (process_message fuel s msg) w in
  exists (info : QFileInfo.t),
    (QFileInfo.isSymLink info = false /\
     trace r = [Ev (QFileInfo_new source) info; Ev (QFile_exists source) false] /\
     value r = Some (sftp_reply_status SSH_FX_NO_SUCH_FILE (Some "no such file"), s))
    \/
    exists (probes : list event),
      (QFileInfo.isSymLink info = true /\ probes = [Ev (QFileInfo_new source) info]
       \/
       QFileInfo.isSymLink info = false /\
       probes = [Ev (QFileInfo_new source) info; Ev (QFile_exists source) true])
      /\
      ((trace r = probes ++ [Ev (QFile_exists target) true; Ev (FileOps_remove target) false] /\
        value r = Some (reply_failure, s))
       \/
       exists (removal : list event),
         (removal = [Ev (QFile_exists target) true; Ev (FileOps_remove target) true]
          \/ removal = [Ev (QFile_exists target) false])
         /\
         ((trace r = probes ++ removal ++ [Ev (FileOps_rename source target) false] /\
           value r = Some (reply_failure, s))
          \/
          (trace r = probes ++ removal ++ [Ev (FileOps_rename source target) true] /\
           value r = Some (reply_ok, s)))).
Proof.
  intros Hr Hsrc Htgt source target.
  rewrite (process_message_rename fuel s msg Hr).
  unfold handle_rename, returns. rewrite Hsrc, Htgt. cbn.
  run_step. exists r.
  assert (Htail : forall (probes : list event) (w1 : world),
    let r' := exec (a <- (target_exists <- call (QFile_exists target) ;;
                          if target_exists then
                            removed <- call (FileOps_remove target) ;;
                            if negb removed then Ret (reply_failure, s)
                            else
                              renamed <- call (FileOps_rename source target) ;;
                              if negb renamed then Ret (reply_failure, s)
                              else Ret (reply_ok, s)
                          else
                            renamed <- call (FileOps_rename source target) ;;
                            if negb renamed then Ret (reply_failure, s)
                            else Ret (reply_ok, s)) ;;
                    Ret (Some a)) w1 in
    (probes ++ trace r' = probes ++ [Ev (QFile_exists target) true; Ev (FileOps_remove target) false] /\
     value r' = Some (reply_failure, s))
    \/
    exists (removal : list event),
      (removal = [Ev (QFile_exists target) true; Ev (FileOps_remove target) true]
       \/ removal = [Ev (QFile_exists target) false])
      /\
      ((probes ++ trace r' = probes ++ removal ++ [Ev (FileOps_rename source target) false] /\
        value r' = Some (reply_failure, s))
       \/
       (probes ++ trace r' = probes ++ removal ++ [Ev (FileOps_rename source target) true] /\
        value r' = Some (reply_ok, s)))).
  { intros probes w1. cbn. run_step. destruct r0; cbn.
    - run_step. destruct r0; cbn.
      + right. eexists. split; [left; reflexivity|].
        run_step. destruct r0; cbn; auto.
      + left. auto.
    - right. eexists. split; [right; reflexivity|].
      run_step. destruct r0; cbn; auto. }
  destruct (QFileInfo.isSymLink r) eqn:Hsym; cbn.
  - right. exists [Ev (QFileInfo_new source) r]. split; [left; auto|].
    apply (Htail [Ev (QFileInfo_new source) r] w0).
  - run_step. destruct r0; cbn.
    + right. exists [Ev (QFileInfo_new source) r; Ev (QFile_exists source) true].
      split; [right; auto|].
      apply (Htail [Ev (QFileInfo_new source) r; Ev (QFile_exists source) true] w1).
    + left. auto.
Qed.

End Rename.

(** Scenario 5 of the specification: [a] and [b] both exist; the target
    is removed, then the source is renamed, and the reply is OK. *)
Lemma rename_removes_target_first_witness :
  exists (info : QFileInfo.t),
    trace (@exec (stateless all_there) _
             (@process_message example_qt example_libssh example_sentinels 0
                (example_server "/srv/share" [] [])
                (example_message SFTP_RENAME "/srv/share/a" "/srv/share/b")) tt)
    = [Ev (QFileInfo_new "/srv/share/a") info;
       Ev (QFile_exists "/srv/share/a") true;
       Ev (QFile_exists "/srv/share/b") true;
       Ev (FileOps_remove "/srv/share/b") true;
       Ev (FileOps_rename "/srv/share/a" "/srv/share/b") true].
Proof.
  destruct (@rename_removes_target_first example_qt example_libssh example_sentinels
              (stateless all_there) 0 (example_server "/srv/share" [] [])
              (example_message SFTP_RENAME "/srv/share/a" "/srv/share/b") tt
              eq_refl eq_refl eq_refl) as [info Hcases].
  exists info.
  destruct Hcases as [(_ & _ & Hv)|[probes [Hprobes Hrest]]];
    [vm_compute in Hv; discriminate Hv|].
  destruct Hprobes as [[Hs ->]|[Hs ->]];
    destruct Hrest as [[Ht Hv]|[removal [[->| ->] [[Ht Hv]|[Ht Hv]]]]];
    vm_compute in Hv; try discriminate Hv;
    try (exfalso; apply (f_equal (@List.length event)) in Ht; vm_compute in Ht;
         discriminate Ht).
  exact Ht.
Defined.

(** ** MKDIR *)

Section Mkdir.
Context `{QtLib} `{Libssh} `{IdSentinels} `{Environment}.

(** C9. A MKDIR request that is answered OK has performed exactly four
    operations: it created the directory, set the permission bits of the
    request, looked up the parent directory, and called the platform
    [chown] with the uid and the gid of the request mapped back.  The
    uid handed to [chown] is the host id of the first entry of the uid
    map whose remote id is the uid of the request, and the owner of the
    parent directory when the map has no such entry; the gid likewise,
    from the gid map and the group of the parent directory.  With the
    uid map [(1000, 2000)] and the uid 2000 in the request, the uid
    handed to [chown] is 1000, whoever owns the parent. *)
Theorem mkdir_chown_parent_fallback (fuel : nat) (s s' : SftpServer)
    (msg : sftp_client_message) (w : world) :
  msg_type msg = SFTP_MKDIR ->
  value (exec (process_message fuel s msg) w) = Some (reply_ok, s') ->
  let filename := msg_filename msg in
  let req := msg_attr msg in
  exists (parent_dir : QFileInfo.t) (uid gid r : Z),
    trace (exec (process_message fuel s msg) w) =
      [Ev (QDir_mkdir filename) true;
       Ev (FileOps_setPermissions filename (to_qt_permissions (attr_permissions req))) true;
       Ev (QFileInfo_new (QFileInfo_path filename)) parent_dir;
       Ev (Platform_chown filename uid gid) r] /\
    0 <= r /\
    s' = s /\
    maps_back (uid_mappings s) (to_int (attr_uid req))
      (to_int (QFileInfo.ownerId parent_dir)) uid /\
    maps_back (gid_mappings s) (to_int (attr_gid req))
      (to_int (QFileInfo.groupId parent_dir)) gid /\
    (uid_mappings s = [(1000, 2000)] -> attr_uid req = 2000 -> uid = 1000).
Proof.
  intros Ht. unfold process_message. rewrite Ht. unfold handle_mkdir, returns.
  destruct (validate_path (source_path s) (msg_filename msg)); cbn;
    [|intros [=]].
  run_step. destruct r; cbn; [|intros [=]].
  run_step. destruct r; cbn; [|intros [=]].
  run_step. run_step. destruct (r0 <? 0) eqn:Hr; cbn; intros [= <-].
  exists r,
    (reverse_uid_for s (to_int (attr_uid (msg_attr msg))) (to_int (QFileInfo.ownerId r))),
    (reverse_gid_for s (to_int (attr_gid (msg_attr msg))) (to_int (QFileInfo.groupId r))),
    r0.
  split; [reflexivity|]. split; [lia|]. split; [reflexivity|].
  split; [apply reverse_id_for_maps_back|].
  split; [apply reverse_id_for_maps_back|].
  unfold reverse_uid_for, reverse_id_for. intros -> ->. reflexivity.
Qed.

End Mkdir.

(** Scenario 3 of the specification: the uid map is [(1000, 2000)], the
    parent [/srv/share] is owned by 1000, and the request asks for uid
    2000; [chown] receives uid 1000, and the group of the parent as the
    gid map is empty.  Then a server on which neither id maps to the
    owner or the group of the parent: the uid map is [(1234, 2000)] and
    the gid map [(4321, 3000)]; for the ids 2000 and 3000 [chown]
    receives 1234 and 4321. *)
Lemma mkdir_chown_parent_fallback_witness :
  (exists (parent_dir : QFileInfo.t) (r : Z),
     trace (@exec (stateless all_there) _
              (@process_message example_qt example_libssh example_sentinels 0
                 (example_server "/srv/share" [(1000, 2000)] [])
                 (example_mkdir "/srv/share/d" 2000 2000)) tt)
     = [Ev (QDir_mkdir "/srv/share/d") true;
        Ev (FileOps_setPermissions "/srv/share/d" 1877) true;
        Ev (QFileInfo_new "/srv/share") parent_dir;
        Ev (Platform_chown "/srv/share/d" 1000 (to_int (QFileInfo.groupId parent_dir))) r])
  /\
  (exists (parent_dir : QFileInfo.t) (r : Z),
     trace (@exec (stateless all_there) _
              (@process_message example_qt example_libssh example_sentinels 0
                 (example_server "/srv/share" [(1234, 2000)] [(4321, 3000)])
                 (example_mkdir "/srv/share/d" 2000 3000)) tt)
     = [Ev (QDir_mkdir "/srv/share/d") true;
        Ev (FileOps_setPermissions "/srv/share/d" 1877) true;
        Ev (QFileInfo_new "/srv/share") parent_dir;
        Ev (Platform_chown "/srv/share/d" 1234 4321) r]).
Proof.
  split.
  - destruct (@mkdir_chown_parent_fallback example_qt example_libssh example_sentinels
                (stateless all_there) 0 (example_server "/srv/share" [(1000, 2000)] [])
                (example_server "/srv/share" [(1000, 2000)] [])
                (example_mkdir "/srv/share/d" 2000 2000) tt eq_refl eq_refl)
      as (parent_dir & uid & gid & r & Htrace & _ & _ & _ & [_ Hgid] & Huid).
    rewrite (Huid eq_refl eq_refl) in Htrace.
    rewrite (Hgid (fun e (He : In e []) => match He with end)) in Htrace.
    exists parent_dir, r. exact Htrace.
  - destruct (@mkdir_chown_parent_fallback example_qt example_libssh example_sentinels
                (stateless all_there) 0
                (example_server "/srv/share" [(1234, 2000)] [(4321, 3000)])
                (example_server "/srv/share" [(1234, 2000)] [(4321, 3000)])
                (example_mkdir "/srv/share/d" 2000 3000) tt eq_refl eq_refl)
      as (parent_dir & uid & gid & r & Htrace & _ & _ & [Huid _] & [Hgid _] & _).
    rewrite (Huid [] 1234 [] eq_refl (fun e (He : In e []) => match He with end)) in Htrace.
    rewrite (Hgid [] 4321 [] eq_refl (fun e (He : In e []) => match He with end)) in Htrace.
    exists parent_dir, r. exact Htrace.
Defined.

(** ** Handles *)

Section Handles.
Context `{QtLib} `{Libssh} `{IdSentinels}.

Lemma set_handles_id (s : SftpServer) :
  set_open_dir_handles (set_open_file_handles s (open_file_handles s)) (open_dir_handles s) = s.
Proof. now destruct s. Qed.

(** A request on a handle that its table does not hold is answered
    BAD_MESSAGE, with the word of the handler, before any operation. *)
Lemma absent_handle_bad_message (fuel : nat) (s : SftpServer) (msg : sftp_client_message) (word : string) :
  handle_word (msg_type msg) = Some word ->
  handle_absent s msg ->
  process_message fuel s msg = Ret (Some (reply_bad_handle word, s)).
Proof.
  unfold handle_word, handle_absent, process_message.
  destruct (msg_type msg) eqn:Ht; intros [= <-] Habs;
    unfold handle_fstat, handle_readdir, handle_read, handle_write, handle_setstat,
      handle_close, handle_from, erase, sftp_handle;
    rewrite ?Ht; cbv beta zeta.
  - now rewrite Habs.
  - now rewrite Habs.
  - destruct Habs as [-> ->]. cbn. now rewrite set_handles_id.
  - now rewrite Habs.
  - now rewrite Habs.
  - now rewrite Habs.
Qed.

Context `{Environment}.

(** C8. A READ, WRITE, FSTAT, FSETSTAT or READDIR on a handle that is
    not a key of the table the handler consults, and a CLOSE on a handle
    that is a key of neither table, is answered BAD_MESSAGE with the
    text "<word>: invalid handle", the word being read, write, fstat,
    setstat, readdir or close.  A CLOSE on a handle that one of the
    tables holds is answered OK and leaves both tables without the key,
    so that every later request on that handle is answered BAD_MESSAGE
    in turn. *)
Theorem closed_handle_bad_message (fuel : nat) (s : SftpServer) (msg : sftp_client_message) :
  (forall word, handle_word (msg_type msg) = Some word ->
     handle_absent s msg ->
     process_message fuel s msg
     = Ret (Some (sftp_reply_status SSH_FX_BAD_MESSAGE
                    (Some (word ++ ": invalid handle")%string), s))) /\
  (msg_type msg = SFTP_CLOSE ->
   is_Some (open_file_handles s !! msg_handle msg) \/
   is_Some (open_dir_handles s !! msg_handle msg) ->
   forall w : world,
   exists s' : SftpServer,
     value (exec (process_message fuel s msg) w) = Some (reply_ok, s') /\
     open_file_handles s' = delete (msg_handle msg) (open_file_handles s) /\
     open_dir_handles s' = delete (msg_handle msg) (open_dir_handles s) /\
     forall (later : sftp_client_message) (word : string),
       msg_handle later = msg_handle msg ->
       handle_word (msg_type later) = Some word ->
       process_message fuel s' later
       = Ret (Some (sftp_reply_status SSH_FX_BAD_MESSAGE
                      (Some (word ++ ": invalid handle")%string), s'))).
Proof.
  split.
  - intros word Hw Habs. now apply absent_handle_bad_message.
  - intros Ht Hheld w.
    exists (set_open_dir_handles
              (set_open_file_handles s (delete (msg_handle msg) (open_file_handles s)))
              (delete (msg_handle msg) (open_dir_handles s))).
    assert (Hval : value (exec (process_message fuel s msg) w)
                   = Some (reply_ok,
                           set_open_dir_handles
                             (set_open_file_handles s
                                (delete (msg_handle msg) (open_file_handles s)))
                             (delete (msg_handle msg) (open_dir_handles s)))).
    { unfold process_message. rewrite Ht.
      unfold handle_close, erase, sftp_handle, returns.
      destruct (open_file_handles s !! msg_handle msg) as [file|] eqn:Hf;
        destruct (open_dir_handles s !! msg_handle msg) as [dir|] eqn:Hd; cbn.
      - reflexivity.
      - now rewrite (delete_id (open_dir_handles s) _ Hd).
      - now rewrite (delete_id (open_file_handles s) _ Hf).
      - destruct Hheld as [[x Hx]|[x Hx]]; discriminate Hx. }
    split; [exact Hval|]. split; [reflexivity|]. split; [reflexivity|].
    intros later word Hh Hw. apply absent_handle_bad_message; [exact Hw|].
    unfold handle_absent. rewrite Hh. cbn.
    unfold handle_word in Hw.
    destruct (msg_type later); try discriminate Hw;
      try split; apply lookup_delete_eq.
Qed.

End Handles.

(** On a server that holds the file handle 4096: a READ on the unknown
    handle 7 is refused, and after CLOSE(4096) a READ on 4096 is refused
    too. *)
Lemma closed_handle_bad_message_witness :
  @process_message example_qt example_libssh example_sentinels 0
     example_open_server (example_handle_message SFTP_READ 7)
  = Ret (Some (sftp_reply_status SSH_FX_BAD_MESSAGE (Some "read: invalid handle"),
               example_open_server)) /\
  exists s' : SftpServer,
    value (@exec (stateless all_there) _
             (@process_message example_qt example_libssh example_sentinels 0
                example_open_server (example_handle_message SFTP_CLOSE 4096)) tt)
    = Some (reply_ok, s') /\
    @process_message example_qt example_libssh example_sentinels 0
       s' (example_handle_message SFTP_READ 4096)
    = Ret (Some (sftp_reply_status SSH_FX_BAD_MESSAGE (Some "read: invalid handle"), s')).
Proof.
  split.
  - apply (proj1 (@closed_handle_bad_message example_qt example_libssh example_sentinels
                    (stateless all_there) 0 example_open_server
                    (example_handle_message SFTP_READ 7)) "read" eq_refl eq_refl).
  - destruct (proj2 (@closed_handle_bad_message example_qt example_libssh example_sentinels
                       (stateless all_there) 0 example_open_server
                       (example_handle_message SFTP_CLOSE 4096))
                eq_refl (or_introl (ex_intro _ (QFile.mk "/srv/share/f") eq_refl)) tt)
      as (s' & Hv & _ & _ & Hlater).
    exists s'. split; [exact Hv|].
    apply (Hlater (example_handle_message SFTP_READ 4096) "read" eq_refl eq_refl).
Defined.

(** ** OPENDIR and READDIR *)

Section Readdir.
Context `{QtLib} `{Libssh} `{IdSentinels} `{Environment}.

Lemma take_min_length {A : Type} (l : list A) (n : nat) :
  take (Nat.min (length l) n) l = take n l.
Proof.
  destruct (Nat.le_ge_cases (length l) n) as [Hle|Hge].
  - rewrite Nat.min_l by exact Hle. now rewrite !take_ge by lia.
  - now rewrite Nat.min_r by exact Hge.
Qed.

Lemma drop_min_length {A : Type} (l : list A) (n : nat) :
  drop (Nat.min (length l) n) l = drop n l.
Proof.
  destruct (Nat.le_ge_cases (length l) n) as [Hle|Hge].
  - rewrite Nat.min_l by exact Hle. now rewrite !drop_ge by lia.
  - now rewrite Nat.min_r by exact Hge.
Qed.

(** The loop takes [i] entries off the front of the list, in order, and
    adds one name for each to the reply. *)
Lemma readdir_loop_reports (s : SftpServer) (i : nat) (dir_entries : list QFileInfo.t)
    (acc : list name_entry) (w : world) :
  exists names : list name_entry,
    value (exec (readdir_loop s i dir_entries acc) w) = (drop i dir_entries, acc ++ names) /\
    Forall2 (reports s) (take i dir_entries) names.
Proof.
  revert dir_entries acc w. induction i as [|i IH]; intros dir_entries acc w.
  - exists []. cbn. rewrite app_nil_r. split; [reflexivity|constructor].
  - destruct dir_entries as [|entry rest].
    + exists []. cbn. rewrite app_nil_r. split; [reflexivity|constructor].
    + cbn [readdir_loop]. rewrite exec_bind. cbn [value].
      destruct (QFileInfo.isSymLink entry) eqn:Hsym.
      * cbn. run_step.
        destruct (IH rest (acc ++ [(QFileInfo.fileName entry,
                                     longname_from entry (QFileInfo.fileName entry),
                                     map_attr_ids s r)]) w0)
          as (names & Hval & Hrep).
        eexists (_ :: names). split.
        -- rewrite Hval. cbn. now rewrite <- app_assoc.
        -- constructor; [|exact Hrep]. repeat split. cbn. congruence.
      * cbn.
        destruct (IH rest (acc ++ [(QFileInfo.fileName entry,
                                     longname_from entry (QFileInfo.fileName entry),
                                     attr_from s entry)]) w)
          as (names & Hval & Hrep).
        eexists (_ :: names). split.
        -- rewrite Hval. cbn. now rewrite <- app_assoc.
        -- constructor; [|exact Hrep]. repeat split.
Qed.

(** One READDIR on a handle whose list is not empty. *)
Lemma handle_readdir_batch (s : SftpServer) (msg : sftp_client_message)
    (snapshot : list QFileInfo.t) (w : world) :
  open_dir_handles s !! msg_handle msg = Some snapshot ->
  snapshot <> [] ->
  exists names : list name_entry,
    value (exec (handle_readdir s msg) w)
    = (sftp_reply_names names,
       set_open_dir_handles s
         (<[msg_handle msg := drop 50 snapshot]> (open_dir_handles s))) /\
    Forall2 (reports s) (take 50 snapshot) names.
Proof.
  intros Hh Hne. unfold handle_readdir, handle_from, sftp_handle. cbv zeta. rewrite Hh.
  destruct snapshot as [|entry rest]; [congruence|].
  rewrite exec_bind. cbn [value].
  replace (Z.to_nat (Z.min (Z.of_nat (length (entry :: rest))) 50))
    with (Nat.min (length (entry :: rest)) 50) by lia.
  destruct (readdir_loop_reports s (Nat.min (length (entry :: rest)) 50) (entry :: rest) [] w)
    as (names & Hval & Hrep).
  exists names. rewrite Hval. cbn [fst snd exec value].
  rewrite drop_min_length. rewrite take_min_length in Hrep. auto.
Qed.

Lemma Forall2_reports_length (s : SftpServer) (l : list QFileInfo.t) (names : list name_entry) :
  Forall2 (reports s) l names -> length names = length l.
Proof. intros Hf. symmetry. exact (Forall2_length _ _ _ Hf). Qed.

Lemma list_directory_step (requests : nat) (s : SftpServer) (msg : sftp_client_message) :
  list_directory (S requests) s msg =
  (answer <- process_message 0 s msg ;;
   match answer with
   | Some (sftp_reply_names names, s') =>
       rest <- list_directory requests s' msg ;;
       Ret (option_map (cons names) (fst rest), snd rest)
   | Some (sftp_reply_status SSH_FX_EOF _, s') => Ret (Some [], s')
   | Some (_, s') => Ret (None, s')
   | None => Ret (None, s)
   end).
Proof. reflexivity. Qed.

(** Listing with enough requests: [n] requests empty a list of at most
    [50 * n] entries, and one more receives EOF. *)
Lemma list_directory_complete (n : nat) (s : SftpServer) (msg : sftp_client_message)
    (snapshot : list QFileInfo.t) (w : world) :
  msg_type msg = SFTP_READDIR ->
  open_dir_handles s !! msg_handle msg = Some snapshot ->
  (length snapshot <= 50 * n)%nat ->
  exists (batches : list (list name_entry)) (s' : SftpServer),
    value (exec (list_directory (S n) s msg) w) = (Some batches, s') /\
    Forall (fun batch => (1 <= length batch <= 50)%nat) batches /\
    Forall2 (reports s) snapshot (concat batches) /\
    open_dir_handles s' !! msg_handle msg = Some [].
Proof.
  intros Ht. revert s snapshot w.
  induction n as [|n IH]; intros s snapshot w Hh Hlen.
  - destruct snapshot; [|cbn in Hlen; lia].
    exists [], s. cbn [list_directory]. unfold process_message. rewrite Ht.
    unfold returns, handle_readdir, handle_from, sftp_handle. cbv zeta. rewrite Hh. cbn.
    split; [reflexivity|]. split; [constructor|]. split; [constructor|reflexivity].
  - destruct snapshot as [|entry rest].
    + exists [], s. cbn [list_directory]. unfold process_message. rewrite Ht.
      unfold returns, handle_readdir, handle_from, sftp_handle. cbv zeta. rewrite Hh. cbn.
      split; [reflexivity|]. split; [constructor|]. split; [constructor|reflexivity].
    + destruct (handle_readdir_batch s msg (entry :: rest) w Hh ltac:(discriminate))
        as (names & Hval & Hrep).
      rewrite (list_directory_step (S n)). unfold process_message. rewrite Ht.
      unfold returns. rewrite !exec_bind. cbn [value final exec]. rewrite Hval.
      set (s1 := set_open_dir_handles s
                   (<[msg_handle msg := drop 50 (entry :: rest)]> (open_dir_handles s))).
      set (w1 := final (exec (handle_readdir s msg) w)).
      destruct (IH s1 (drop 50 (entry :: rest)) w1) as (batches & s' & Hv' & Hb & Hr & Hs').
      { unfold s1. cbn. apply lookup_insert_eq. }
      { rewrite length_drop. cbn [length] in *. lia. }
      exists (names :: batches), s'.
      rewrite exec_bind. cbn [value final exec]. rewrite Hv'. cbn.
      split; [reflexivity|]. split; [|split; [|exact Hs']].
      * constructor; [|exact Hb].
        rewrite (Forall2_reports_length _ _ _ Hrep), length_take. cbn [length]. lia.
      * rewrite <- (take_drop 50 (entry :: rest)).
        apply Forall2_app; [exact Hrep|exact Hr].
Qed.

End Readdir.

Section Snapshot.
Context `{QtLib} `{Libssh} `{IdSentinels} `{Environment}.

(** An OPENDIR that is answered with a new handle has stored, under that
    handle, the list that [QDir::entryInfoList] returned. *)
Lemma handle_opendir_snapshot (s s1 : SftpServer) (msg : sftp_client_message) (w : world) (h : Z) :
  value (exec (handle_opendir s msg) w) = (sftp_reply_handle h, s1) ->
  open_dir_handles s !! h = None ->
  exists snapshot : list QFileInfo.t,
    In (Ev (QDir_entryInfoList (msg_filename msg)) snapshot)
       (trace (exec (handle_opendir s msg) w)) /\
    open_dir_handles s1 !! h = Some snapshot.
Proof.
  unfold handle_opendir.
  destruct (validate_path (source_path s) (msg_filename msg)); cbn; [|intros [=]].
  run_step. destruct r; cbn; [|intros [=]].
  run_step. destruct r; cbn; [|intros [=]].
  run_step. run_step. run_step. destruct r1; cbn; [|intros [=]].
  intros [= <- <-] Hnew. exists r. split.
  - right. right. left. reflexivity.
  - cbn. unfold emplace. rewrite Hnew. apply lookup_insert_eq.
Qed.

(** C7. OPENDIR stores the list of entries it read under the handle it
    returns.  A READDIR on a handle whose list is [snapshot] replies EOF
    exactly when [snapshot] is empty; otherwise it replies with between
    1 and 50 names that report, in order, the first entries of
    [snapshot], and leaves the rest of [snapshot] under the handle.  A
    client that repeats READDIR until EOF receives batches whose
    concatenation reports, in order, the whole of [snapshot]. *)
Theorem readdir_lists_snapshot (fuel : nat) (s : SftpServer) (msg : sftp_client_message) (w : world) :
  (msg_type msg = SFTP_OPENDIR ->
   forall (h : Z) (s1 : SftpServer),
     value (exec (process_message fuel s msg) w) = Some (sftp_reply_handle h, s1) ->
     open_dir_handles s !! h = None ->
     exists snapshot : list QFileInfo.t,
       In (Ev (QDir_entryInfoList (msg_filename msg)) snapshot)
          (trace (exec (process_message fuel s msg) w)) /\
       open_dir_handles s1 !! h = Some snapshot) /\
  (msg_type msg = SFTP_READDIR ->
   forall snapshot : list QFileInfo.t,
     open_dir_handles s !! msg_handle msg = Some snapshot ->
     (snapshot = [] <->
      value (exec (process_message fuel s msg) w)
      = Some (sftp_reply_status SSH_FX_EOF None, s)) /\
     (snapshot <> [] ->
      exists names : list name_entry,
        value (exec (process_message fuel s msg) w)
        = Some (sftp_reply_names names,
                set_open_dir_handles s
                  (<[msg_handle msg := drop 50 snapshot]> (open_dir_handles s))) /\
        (1 <= length names <= 50)%nat /\
        Forall2 (reports s) (take 50 snapshot) names) /\
     (forall n : nat,
        (length snapshot <= 50 * n)%nat ->
        exists (batches : list (list name_entry)) (s' : SftpServer),
          value (exec (list_directory (S n) s msg) w) = (Some batches, s') /\
          Forall (fun batch => (1 <= length batch <= 50)%nat) batches /\
          Forall2 (reports s) snapshot (concat batches) /\
          open_dir_handles s' !! msg_handle msg = Some [])).
Proof.
  split.
  - intros Ht h s1. unfold process_message. rewrite Ht. unfold returns.
    rewrite exec_bind. cbn [value trace exec]. rewrite app_nil_r.
    intros [= Hv]. apply handle_opendir_snapshot.
    destruct (value (exec (handle_opendir s msg) w)). cbn in Hv. congruence.
  - intros Ht snapshot Hh.
    assert (Hbatch : snapshot <> [] ->
      exists names : list name_entry,
        value (exec (process_message fuel s msg) w)
        = Some (sftp_reply_names names,
                set_open_dir_handles s
                  (<[msg_handle msg := drop 50 snapshot]> (open_dir_handles s))) /\
        (1 <= length names <= 50)%nat /\
        Forall2 (reports s) (take 50 snapshot) names).
    { intros Hne.
      destruct (handle_readdir_batch s msg snapshot w Hh Hne) as (names & Hval & Hrep).
      exists names. split; [|split; [|exact Hrep]].
      - unfold process_message. rewrite Ht. unfold returns.
        rewrite exec_bind. cbn [value exec]. now rewrite Hval.
      - rewrite (Forall2_reports_length _ _ _ Hrep), length_take.
        destruct snapshot; [congruence|]. cbn [length]. lia. }
    split; [|split; [exact Hbatch|]].
    + split.
      * intros ->. unfold process_message. rewrite Ht.
        unfold returns, handle_readdir, handle_from, sftp_handle. cbv zeta.
        now rewrite Hh.
      * intros Heof. destruct snapshot as [|entry rest]; [reflexivity|].
        destruct (Hbatch ltac:(discriminate)) as (names & Hval & _).
        rewrite Hval in Heof. discriminate Heof.
    + intros n Hlen. now apply list_directory_complete.
Qed.

End Snapshot.

(** A snapshot of 120 entries is listed in full by at most four
    requests. *)
Lemma readdir_lists_snapshot_witness :
  exists (batches : list (list name_entry)) (s' : SftpServer),
    value (@exec (stateless all_there) _
             (@list_directory example_qt example_libssh example_sentinels 4
                (example_listing_server 120) (example_handle_message SFTP_READDIR 8192))
             tt)
    = (Some batches, s') /\
    Forall2 (@reports example_qt example_libssh example_sentinels
               (example_listing_server 120))
      (example_snapshot 120) (concat batches).
Proof.
  destruct (proj2 (@readdir_lists_snapshot example_qt example_libssh example_sentinels
                     (stateless all_there) 0 (example_listing_server 120)
                     (example_handle_message SFTP_READDIR 8192) tt)
              eq_refl (example_snapshot 120) eq_refl)
    as (_ & _ & Hall).
  destruct (Hall 3%nat ltac:(vm_compute; lia)) as (batches & s' & Hv & _ & Hrep & _).
  exists batches, s'. split; [exact Hv|exact Hrep].
Defined.

(** * Further properties of the server *)

(** ** Reasoning on program trees *)

Lemma holds_bind {A B : Type} (P : syscall -> Prop) (Q' : A -> Prop) (Q : B -> Prop)
    (p : prog A) (f : A -> prog B) :
  holds P Q' p -> (forall a, Q' a -> holds P Q (f a)) -> holds P Q (bind p f).
Proof.
  intros Hp Hf. induction p as [a|c k IH]; cbn in *.
  - now apply Hf.
  - destruct Hp as [Hc Hk]. split; [exact Hc|]. intros r. now apply IH.
Qed.

Lemma holds_weaken {A : Type} (P P' : syscall -> Prop) (Q Q' : A -> Prop) (p : prog A) :
  (forall c, P c -> P' c) -> (forall a, Q a -> Q' a) -> holds P Q p -> holds P' Q' p.
Proof.
  intros HP HQ. induction p as [a|c k IH]; cbn.
  - apply HQ.
  - intros [Hc Hk]. split; [now apply HP|]. intros r. now apply IH.
Qed.

Lemma holds_exec `{Environment} {A : Type} (P : syscall -> Prop) (Q : A -> Prop)
    (p : prog A) (w : world) :
  holds P Q p ->
  (forall e, In e (trace (exec p w)) -> P (event_call e)) /\ Q (value (exec p w)).
Proof.
  revert w. induction p as [a|c k IH]; intros w Hp; cbn in *.
  - split; [intros e []|exact Hp].
  - destruct Hp as [Hc Hk].
    destruct (IH (fst (sys c w)) (snd (sys c w)) (Hk _)) as [Htr Hv].
    split; [|exact Hv]. intros e [<-|He]; [exact Hc|now apply Htr].
Qed.

(** ** What a request can do to the server and to the file system *)

(** One step of a walk over a handler: split an operation from its
    continuation, or decide the test the handler branches on. *)
Ltac walk_step :=
  unfold returns; cbn [holds bind call];
  match goal with
  | |- _ /\ (forall _, _) => split; [|intros ?]
  | |- context [validate_path ?a ?b] =>
      match goal with
      | H : validate_path a b = _ |- _ => rewrite H
      | _ => destruct (validate_path a b) eqn:?
      end
  | |- context [if negb ?b then _ else _] => destruct b eqn:?
  | |- context [if ?b then _ else _] => destruct b eqn:?
  end;
  cbn [negb].

Section Transitions.
Context `{QtLib} `{Libssh} `{IdSentinels}.

Lemma holds_readdir_loop (P : syscall -> Prop) (s : SftpServer) (i : nat)
    (dir_entries : list QFileInfo.t) (names : list name_entry) :
  (forall p, P (Platform_symlink_attr_from p)) ->
  holds P (fun res => fst res = drop i dir_entries) (readdir_loop s i dir_entries names).
Proof.
  intros HP. revert dir_entries names.
  induction i as [|i IH]; intros dir_entries names; [reflexivity|].
  destruct dir_entries as [|entry rest]; [reflexivity|].
  cbn [readdir_loop]. destruct (QFileInfo.isSymLink entry); cbn.
  - split; [apply HP|]. intros r. apply IH.
  - apply IH.
Qed.

Lemma holds_write_loop (P : syscall -> Prop) (fuel : nat) (file : Z) (data_ptr : string) (len : Z) :
  (forall f d l, P (FileOps_write f d l)) ->
  (forall f, P (QFile_flush f)) ->
  holds P (fun _ => True) (write_loop fuel file data_ptr len).
Proof.
  intros Hw Hf. revert data_ptr len.
  induction fuel as [|fuel IH]; intros data_ptr len; [exact I|].
  cbn. split; [apply Hw|]. intros r. destruct (r <? 0); cbn; [exact I|].
  split; [apply Hf|]. intros _. destruct (0 <? to_uint64 (len - r)); [apply IH|exact I].
Qed.

Ltac confined :=
  let Hconf := fresh "Hconf" in
  unfold mutates_confined; intros Hconf; cbn [mutated_paths];
  repeat constructor; first [assumption | eapply Hconf; eassumption].

(** The result at a leaf of the walk. *)
Ltac leaf Ht :=
  unfold returns; cbn [holds bind transition_result]; unfold transition; rewrite Ht;
  first
    [ reflexivity
    | left; split; [reflexivity|];
      unfold reply_failure, reply_perm_denied, reply_bad_handle; eauto
    | right; eauto 10 ].

Ltac walk Ht := repeat walk_step; try confined; try leaf Ht.

Lemma erase_delete {V : Type} (k : Z) (m : gmap Z V) : snd (erase k m) = delete k m.
Proof.
  unfold erase. destruct (m !! k) eqn:Hk; [reflexivity|].
  cbn. symmetry. now apply delete_id.
Qed.

(** Every request, in every environment: the paths it changes pass the
    source-path check (given that the files already open do), and the
    state it leaves is one that [transition] allows. *)
Lemma holds_process_message (fuel : nat) (s : SftpServer) (msg : sftp_client_message) :
  holds (mutates_confined s) (transition_result s msg) (process_message fuel s msg).
Proof.
  unfold process_message.
  destruct (msg_type msg) eqn:Ht.
  - (* REALPATH *) unfold handle_realpath. walk Ht.
  - (* OPENDIR *) unfold handle_opendir. walk Ht.
  - (* MKDIR *) unfold handle_mkdir. walk Ht.
  - (* RMDIR *) unfold handle_rmdir. walk Ht.
  - (* LSTAT *) unfold handle_stat. walk Ht.
  - (* STAT *) unfold handle_stat. walk Ht.
  - (* FSTAT *)
    unfold handle_fstat. destruct (handle_from msg (open_file_handles s)); walk Ht.
  - (* READDIR *)
    unfold handle_readdir, handle_from, sftp_handle. cbv zeta.
    destruct (open_dir_handles s !! msg_handle msg) as [dir_entries|] eqn:Hh; [|walk Ht].
    destruct dir_entries as [|entry rest]; [walk Ht|].
    unfold returns.
    apply holds_bind with (Q' := fun a => transition_result s msg (Some a));
      [|intros a Ha; exact Ha].
    eapply holds_bind; [apply holds_readdir_loop; intros p _; constructor|].
    intros res Hres. cbn [holds transition_result]. unfold transition. rewrite Ht.
    right. exists (entry :: rest), (snd res). split; [reflexivity|]. split; [exact Hh|].
    rewrite Hres. f_equal. f_equal.
    replace (Z.to_nat (Z.min (Z.of_nat (length (entry :: rest))) 50))
      with (Nat.min (length (entry :: rest)) 50) by lia.
    destruct (Nat.le_ge_cases (length (entry :: rest)) 50) as [Hle|Hge].
    + rewrite Nat.min_l by exact Hle. now rewrite !drop_ge by lia.
    + now rewrite Nat.min_r by exact Hge.
  - (* CLOSE *)
    unfold handle_close, sftp_handle. cbv zeta.
    destruct (_ =? 0); walk Ht;
      unfold returns; cbn [holds bind transition_result]; unfold transition;
      rewrite Ht, !erase_delete; reflexivity.
  - (* OPEN *) unfold handle_open. walk Ht.
  - (* READ *)
    unfold handle_read. destruct (handle_from msg (open_file_handles s)); walk Ht.
  - (* WRITE *)
    unfold handle_write. destruct (handle_from msg (open_file_handles s)); [|walk Ht].
    walk Ht.
    eapply holds_bind; [apply holds_write_loop; intros; intros _; constructor|].
    intros [[|]|] _; [leaf Ht|leaf Ht|exact I].
  - (* RENAME *) unfold handle_rename. walk Ht.
  - (* REMOVE *) unfold handle_remove. walk Ht.
  - (* SETSTAT *) unfold handle_setstat, apply_setstat. rewrite Ht. walk Ht.
  - (* FSETSTAT *)
    unfold handle_setstat, apply_setstat, handle_from, sftp_handle. rewrite Ht. cbv zeta.
    destruct (open_file_handles s !! msg_handle msg) as [handle|] eqn:Hh; [|walk Ht].
    walk Ht.
  - (* READLINK *) unfold handle_readlink. walk Ht.
  - (* SYMLINK *) unfold handle_symlink. walk Ht.
  - (* EXTENDED *)
    unfold handle_extended, handle_rename.
    destruct (msg_submessage msg); walk Ht.
  - (* other *) walk Ht.
Qed.

End Transitions.

Section ServerInvariants.
Context `{QtLib} `{Libssh} `{IdSentinels} `{Environment}.

Lemma process_message_transition (fuel : nat) (s s' : SftpServer)
    (msg : sftp_client_message) (w : world) (reply : Reply) :
  value (exec (process_message fuel s msg) w) = Some (reply, s') ->
  transition s msg reply s'.
Proof.
  intros Hv.
  pose proof (proj2 (holds_exec _ _ _ w (holds_process_message fuel s msg))) as Ht.
  rewrite Hv in Ht. exact Ht.
Qed.

Lemma transition_same_config (s s' : SftpServer) (msg : sftp_client_message) (reply : Reply) :
  transition s msg reply s' -> same_config s s'.
Proof.
  unfold transition, same_config.
  destruct (msg_type msg);
    try (intros ->; cbn; tauto);
    intros [[-> _]|Hx]; try tauto.
  - destruct Hx as (h & entries & _ & ->). cbn. tauto.
  - destruct Hx as (entries & names & _ & _ & ->). cbn. tauto.
  - destruct Hx as (h & _ & _ & ->). cbn. tauto.
Qed.

(** X1. No request changes what the constructor configured: the source
    path, the target path, the two id maps and the two default ids are
    the same after every request. *)
Theorem configuration_is_fixed (fuel : nat) (s s' : SftpServer)
    (msg : sftp_client_message) (w : world) (reply : Reply) :
  value (exec (process_message fuel s msg) w) = Some (reply, s') ->
  same_config s s'.
Proof.
  intros Hv. eapply transition_same_config, process_message_transition, Hv.
Qed.

(** X2. Only OPEN, OPENDIR, READDIR and CLOSE can change the server, and
    the first three only when they answer with a handle or with names:
    every other request, and every OPEN, OPENDIR or READDIR that is
    answered with a status, leaves the server exactly as it was. *)
Theorem tables_change_only_on_success (fuel : nat) (s s' : SftpServer)
    (msg : sftp_client_message) (w : world) (reply : Reply) :
  value (exec (process_message fuel s msg) w) = Some (reply, s') ->
  msg_type msg <> SFTP_CLOSE ->
  (msg_type msg <> SFTP_OPEN /\ msg_type msg <> SFTP_OPENDIR /\
   msg_type msg <> SFTP_READDIR)
  \/ (exists status text, reply = sftp_reply_status status text) ->
  s' = s.
Proof.
  intros Hv Hclose Hcase. apply process_message_transition in Hv.
  unfold transition in Hv.
  destruct (msg_type msg); try exact Hv; try congruence.
  - destruct Hv as [[-> _]|(h & entries & -> & _)]; [reflexivity|].
    destruct Hcase as [(_ & Hne & _)|(st & text & [=])]. congruence.
  - destruct Hv as [[-> _]|(entries & names & -> & _)]; [reflexivity|].
    destruct Hcase as [(_ & _ & Hne)|(st & text & [=])]. congruence.
  - destruct Hv as [[-> _]|(h & -> & _)]; [reflexivity|].
    destruct Hcase as [(Hne & _)|(st & text & [=])]. congruence.
Qed.

Lemma transition_files_confined (s s' : SftpServer) (msg : sftp_client_message) (reply : Reply) :
  transition s msg reply s' -> files_confined s -> files_confined s'.
Proof.
  unfold transition, files_confined. intros Ht Hconf.
  destruct (msg_type msg); try (rewrite Ht; exact Hconf).
  - destruct Ht as [[-> _]|(h & entries & _ & ->)]; [exact Hconf|]. cbn. exact Hconf.
  - destruct Ht as [[-> _]|(entries & names & _ & _ & ->)]; [exact Hconf|]. cbn. exact Hconf.
  - rewrite Ht. cbn. intros k file Hk.
    destruct (decide (k = msg_handle msg)) as [->|Hne].
    + rewrite lookup_delete_eq in Hk. discriminate Hk.
    + rewrite lookup_delete_ne in Hk by congruence. now apply (Hconf k).
  - destruct Ht as [[-> _]|(h & _ & Hv & ->)]; [exact Hconf|]. cbn.
    unfold emplace. destruct (open_file_handles s !! h) eqn:Hh; [exact Hconf|].
    intros k file Hk. destruct (decide (k = h)) as [->|Hne].
    + rewrite lookup_insert_eq in Hk. injection Hk as <-. exact Hv.
    + rewrite lookup_insert_ne in Hk by congruence. now apply (Hconf k).
Qed.

(** X3. Every file in the open-file table was opened under a name that
    passes the source-path check: if that is so before a request, it is
    so after it. *)
Theorem open_files_stay_confined (fuel : nat) (s s' : SftpServer)
    (msg : sftp_client_message) (w : world) (reply : Reply) :
  files_confined s ->
  value (exec (process_message fuel s msg) w) = Some (reply, s') ->
  files_confined s'.
Proof.
  intros Hconf Hv. eapply transition_files_confined; [|exact Hconf].
  eapply process_message_transition, Hv.
Qed.

(** X4. Every path that a request creates, removes, renames, opens, links
    at, or changes the size, permissions, times or ownership of passes
    the source-path check, provided the files already open do. *)
Theorem changed_paths_confined (fuel : nat) (s : SftpServer) (msg : sftp_client_message)
    (w : world) (e : event) (p : string) :
  files_confined s ->
  In e (trace (exec (process_message fuel s msg) w)) ->
  In p (mutated_paths (event_call e)) ->
  validate_path (source_path s) p = true.
Proof.
  intros Hconf He Hp.
  pose proof (proj1 (holds_exec _ _ _ w (holds_process_message fuel s msg)) e He Hconf)
    as Hall.
  rewrite Forall_forall in Hall. apply Hall. now apply list_elem_of_In.
Qed.

(** X5. No key gets into both tables, as long as the address that an
    OPEN or OPENDIR answers with is not already a key. *)
Theorem tables_stay_disjoint (fuel : nat) (s s' : SftpServer)
    (msg : sftp_client_message) (w : world) (reply : Reply) :
  tables_disjoint s ->
  (forall h, reply = sftp_reply_handle h ->
     open_file_handles s !! h = None /\ open_dir_handles s !! h = None) ->
  value (exec (process_message fuel s msg) w) = Some (reply, s') ->
  tables_disjoint s'.
Proof.
  intros Hdis Hfresh Hv. apply process_message_transition in Hv.
  unfold transition in Hv. unfold tables_disjoint in *.
  destruct (msg_type msg); try (rewrite Hv; exact Hdis).
  - destruct Hv as [[-> _]|(h & entries & -> & ->)]; [exact Hdis|]. cbn.
    destruct (Hfresh h eq_refl) as [Hf Hd]. unfold emplace. rewrite Hd.
    intros k. destruct (decide (k = h)) as [->|Hne]; [now left|].
    rewrite lookup_insert_ne by congruence. apply Hdis.
  - destruct Hv as [[-> _]|(entries & names & _ & Hh & ->)]; [exact Hdis|]. cbn.
    intros k. destruct (decide (k = msg_handle msg)) as [->|Hne].
    + left. destruct (Hdis (msg_handle msg)) as [Hf|Hd]; [exact Hf|congruence].
    + rewrite lookup_insert_ne by congruence. apply Hdis.
  - rewrite Hv. cbn. intros k. destruct (decide (k = msg_handle msg)) as [->|Hne].
    + left. apply lookup_delete_eq.
    + rewrite !lookup_delete_ne by congruence. apply Hdis.
  - destruct Hv as [[-> _]|(h & -> & _ & ->)]; [exact Hdis|]. cbn.
    destruct (Hfresh h eq_refl) as [Hf Hd]. unfold emplace. rewrite Hf.
    intros k. destruct (decide (k = h)) as [->|Hne]; [now right|].
    rewrite lookup_insert_ne by congruence. apply Hdis.
Qed.

(** X6. An OPEN that is answered with a handle was for a path that
    passes the check, and leaves the handle as a key of the open-file
    table: bound to the new file when the address was not a key before,
    and to the file it was already bound to otherwise ([emplace] does
    not replace).  No other key changes, and the directory table is
    untouched. *)
Theorem open_installs_handle (fuel : nat) (s s' : SftpServer)
    (msg : sftp_client_message) (w : world) (h : Z) :
  msg_type msg = SFTP_OPEN ->
  value (exec (process_message fuel s msg) w) = Some (sftp_reply_handle h, s') ->
  validate_path (source_path s) (msg_filename msg) = true /\
  (open_file_handles s !! h = None ->
   open_file_handles s' !! h = Some (QFile.mk (msg_filename msg))) /\
  (forall old, open_file_handles s !! h = Some old ->
   open_file_handles s' !! h = Some old) /\
  (forall k, k <> h -> open_file_handles s' !! k = open_file_handles s !! k) /\
  open_dir_handles s' = open_dir_handles s.
Proof.
  intros Ht Hv. apply process_message_transition in Hv.
  unfold transition in Hv. rewrite Ht in Hv.
  destruct Hv as [(_ & st & text & [=])|(h' & [= <-] & Hvalid & ->)].
  split; [exact Hvalid|]. cbn. unfold emplace.
  split; [|split; [|split; [|reflexivity]]].
  - intros Hh. rewrite Hh. apply lookup_insert_eq.
  - intros old Hh. rewrite Hh. exact Hh.
  - intros k Hne. destruct (open_file_handles s !! h); [reflexivity|].
    apply lookup_insert_ne. congruence.
Qed.

End ServerInvariants.

Lemma example_server_confined (source : string) (uid_map gid_map : id_mappings) :
  files_confined (example_server source uid_map gid_map).
Proof. intros k file Hk. cbn in Hk. rewrite lookup_empty in Hk. discriminate Hk. Qed.

Lemma configuration_is_fixed_witness :
  same_config (example_server "/srv/share" [] []) example_after_open.
Proof.
  apply (@configuration_is_fixed example_qt example_libssh example_sentinels
           (stateless all_there) 0 (example_server "/srv/share" [] []) example_after_open
           (example_open "/srv/share/f" 2) tt (sftp_reply_handle 4096)).
  reflexivity.
Defined.

(** An OPEN outside the share, and a MKDIR inside it: neither changes
    the server. *)
Lemma tables_change_only_on_success_witness :
  value (@exec (stateless all_there) _
           (@process_message example_qt example_libssh example_sentinels 0
              (example_server "/srv/share" [] []) (example_open "/etc/passwd" 2)) tt)
  = Some (reply_perm_denied, example_server "/srv/share" [] []) /\
  example_server "/srv/share" [] [] = example_server "/srv/share" [] [] /\
  value (@exec (stateless all_there) _
           (@process_message example_qt example_libssh example_sentinels 0
              (example_server "/srv/share" [] []) (example_mkdir "/srv/share/d" 0 0)) tt)
  = Some (reply_ok, example_server "/srv/share" [] []).
Proof.
  split; [reflexivity|]. split; [|reflexivity].
  apply (@tables_change_only_on_success example_qt example_libssh example_sentinels
           (stateless all_there) 0 (example_server "/srv/share" [] [])
           (example_server "/srv/share" [] []) (example_open "/etc/passwd" 2) tt
           reply_perm_denied eq_refl).
  - discriminate.
  - right. eexists _, _. reflexivity.
Defined.

Lemma open_files_stay_confined_witness : files_confined example_after_open.
Proof.
  apply (@open_files_stay_confined example_qt example_libssh example_sentinels
           (stateless all_there) 0 (example_server "/srv/share" [] []) example_after_open
           (example_open "/srv/share/f" 2) tt (sftp_reply_handle 4096)).
  - apply example_server_confined.
  - reflexivity.
Defined.

Lemma changed_paths_confined_witness :
  validate_path "/srv/share" "/srv/share/f" = true.
Proof.
  apply (@changed_paths_confined example_qt example_libssh example_sentinels
           (stateless all_there) 0 (example_server "/srv/share" [] [])
           (example_open "/srv/share/f" 2) tt
           (Ev (FileOps_open 4096 "/srv/share/f" 6) true) "/srv/share/f").
  - apply example_server_confined.
  - right. right. right. left. reflexivity.
  - left. reflexivity.
Defined.

Lemma tables_stay_disjoint_witness : tables_disjoint example_after_open.
Proof.
  apply (@tables_stay_disjoint example_qt example_libssh example_sentinels
           (stateless all_there) 0 (example_server "/srv/share" [] []) example_after_open
           (example_open "/srv/share/f" 2) tt (sftp_reply_handle 4096)).
  - intros k. left. apply lookup_empty.
  - intros h _. split; apply lookup_empty.
  - reflexivity.
Defined.

Lemma open_installs_handle_witness :
  open_file_handles example_after_open !! 4096 = Some (QFile.mk "/srv/share/f").
Proof.
  apply (proj1 (proj2 (@open_installs_handle example_qt example_libssh example_sentinels
                         (stateless all_there) 0 (example_server "/srv/share" [] [])
                         example_after_open (example_open "/srv/share/f" 2) tt 4096
                         eq_refl eq_refl))).
  apply lookup_empty.
Defined.

(** ** More on the identity maps *)

Lemma find_if_unique_fst (M : id_mappings) (u v : Z) :
  NoDup (map fst M) -> In (u, v) M ->
  find_if (fun p : Z * Z => u =? fst p) M = Some (u, v).
Proof.
  unfold find_if. induction M as [|[a b] M IH]; intros Hnd Hin; [destruct Hin|].
  cbn in *. apply NoDup_cons in Hnd as [Hnotin Hnd].
  destruct Hin as [[= -> ->]|Hin].
  - now rewrite Z.eqb_refl.
  - destruct (u =? a) eqn:Hua; [|now apply IH].
    apply Z.eqb_eq in Hua. subst a. exfalso. apply Hnotin.
    apply list_elem_of_In. apply (in_map fst) in Hin. exact Hin.
Qed.

Lemma find_if_unique_snd (M : id_mappings) (u v : Z) :
  NoDup (map snd M) -> In (u, v) M ->
  find_if (fun p : Z * Z => v =? snd p) M = Some (u, v).
Proof.
  unfold find_if. induction M as [|[a b] M IH]; intros Hnd Hin; [destruct Hin|].
  cbn in *. apply NoDup_cons in Hnd as [Hnotin Hnd].
  destruct Hin as [[= -> ->]|Hin].
  - now rewrite Z.eqb_refl.
  - destruct (v =? b) eqn:Hvb; [|now apply IH].
    apply Z.eqb_eq in Hvb. subst b. exfalso. apply Hnotin.
    apply list_elem_of_In. apply (in_map snd) in Hin. exact Hin.
Qed.

Section IdRoundTrip.
Context `{IdSentinels}.

(** X7. On a map without repeated host ids and without repeated remote
    ids, the two directions are inverse on every entry that neither
    starts from NO_ID_INFO nor points to DEFAULT_ID: mapping the host id
    forward and the result back gives the host id again, whatever the
    two fallbacks are. *)
Theorem reverse_of_mapped_id (M : id_mappings) (u v f r : Z) :
  NoDup (map fst M) ->
  NoDup (map snd M) ->
  In (u, v) M ->
  u <> no_id_info_available ->
  v <> default_id ->
  reverse_id_for M (mapped_id_for M u f) r = u.
Proof.
  intros Hfst Hsnd Hin Hu Hv.
  unfold mapped_id_for. apply Z.eqb_neq in Hu, Hv. rewrite Hu.
  rewrite (find_if_unique_fst M u v Hfst Hin). cbn. rewrite Hv.
  unfold reverse_id_for. now rewrite (find_if_unique_snd M u v Hsnd Hin).
Qed.

(** X8. In the other direction, on the same maps: mapping the remote id
    of an entry back and the result forward gives the remote id
    again. *)
Theorem mapped_of_reverse_id (M : id_mappings) (u v f r : Z) :
  NoDup (map fst M) ->
  NoDup (map snd M) ->
  In (u, v) M ->
  u <> no_id_info_available ->
  v <> default_id ->
  mapped_id_for M (reverse_id_for M v r) f = v.
Proof.
  intros Hfst Hsnd Hin Hu Hv.
  unfold reverse_id_for. rewrite (find_if_unique_snd M u v Hsnd Hin). cbn.
  unfold mapped_id_for. apply Z.eqb_neq in Hu, Hv. rewrite Hu.
  rewrite (find_if_unique_fst M u v Hfst Hin). cbn. now rewrite Hv.
Qed.

End IdRoundTrip.

Lemma example_map_nodup :
  NoDup (map fst [(1000, 2000); (1001, 2001)]) /\
  NoDup (map snd [(1000, 2000); (1001, 2001)]).
Proof.
  split; cbn; repeat constructor; rewrite ?list_elem_of_In; cbn; intuition lia.
Qed.

Lemma reverse_of_mapped_id_witness :
  reverse_id_for [(1000, 2000); (1001, 2001)]
    (@mapped_id_for example_sentinels [(1000, 2000); (1001, 2001)] 1001 500) 7 = 1001.
Proof.
  apply (@reverse_of_mapped_id example_sentinels [(1000, 2000); (1001, 2001)]
           1001 2001 500 7 (proj1 example_map_nodup) (proj2 example_map_nodup)).
  - right. left. reflexivity.
  - cbn. lia.
  - cbn. lia.
Defined.

Lemma mapped_of_reverse_id_witness :
  @mapped_id_for example_sentinels [(1000, 2000); (1001, 2001)]
    (reverse_id_for [(1000, 2000); (1001, 2001)] 2001 7) 500 = 2001.
Proof.
  apply (@mapped_of_reverse_id example_sentinels [(1000, 2000); (1001, 2001)]
           1001 2001 500 7 (proj1 example_map_nodup) (proj2 example_map_nodup)).
  - right. left. reflexivity.
  - cbn. lia.
  - cbn. lia.
Defined.

(** ** More on the path check *)

Lemma string_prefix_append (src p : string) :
  String.prefix src p = true <-> exists suffix : string, p = (src ++ suffix)%string.
Proof.
  revert p. induction src as [|c src IH]; intros p.
  - split; [intros _; exists p; reflexivity|intros _; now destruct p].
  - destruct p as [|d p]; cbn.
    + split; [discriminate|intros [suffix [=]]].
    + destruct (ascii_dec c d) as [->|Hne].
      * rewrite IH. split; intros [suffix Hs]; exists suffix; [now rewrite Hs|].
        now injection Hs.
      * split; [discriminate|]. intros [suffix [= Hcd _]]. congruence.
Qed.

(** X9. The path check is a test on the leading bytes and nothing else:
    a path passes exactly when the source path is not empty and the
    path is the source path followed by any bytes at all.  So the check
    also passes for a sibling whose name merely starts like the source
    ([/srv/share2]) and for a path that climbs out of the source with
    [..]. *)
Theorem validate_path_iff_extension (source_path current_path : string) :
  validate_path source_path current_path = true <->
  source_path <> "" /\
  exists suffix : string, current_path = (source_path ++ suffix)%string.
Proof.
  rewrite validate_path_prefix, andb_true_iff, string_prefix_append.
  destruct source_path; cbn; split; intros [Hne Hs];
    (split; [congruence|exact Hs]).
Qed.

Lemma validate_path_iff_extension_witness :
  validate_path "/srv/share" "/srv/share/../../etc/passwd" = true /\
  validate_path "/srv/share" "/srv/share2/secret" = true.
Proof.
  split.
  - apply (proj2 (validate_path_iff_extension "/srv/share" "/srv/share/../../etc/passwd")).
    split; [discriminate|]. exists "/../../etc/passwd". reflexivity.
  - apply (proj2 (validate_path_iff_extension "/srv/share" "/srv/share2/secret")).
    split; [discriminate|]. exists "2/secret". reflexivity.
Defined.

(** ** The permission converters *)

Section PermissionFacts.
Context `{QtLib} `{Libssh} `{IdSentinels}.

(** X10. [to_unix_permissions] yields a value between 0 and 0777, in which
    each of the nine rwx bits is set exactly when the Qt flag it is
    named after (Owner for the user bits, Group, Other) is set in the
    argument. *)
Theorem to_unix_permissions_bits (perms : Z) :
  0 <= to_unix_permissions perms <= 511 /\
  test_bits (to_unix_permissions perms) Permissions.read_user
  = test_bits perms QFileDevice_ReadOwner /\
  test_bits (to_unix_permissions perms) Permissions.write_user
  = test_bits perms QFileDevice_WriteOwner /\
  test_bits (to_unix_permissions perms) Permissions.exec_user
  = test_bits perms QFileDevice_ExeOwner /\
  test_bits (to_unix_permissions perms) Permissions.read_group
  = test_bits perms QFileDevice_ReadGroup /\
  test_bits (to_unix_permissions perms) Permissions.write_group
  = test_bits perms QFileDevice_WriteGroup /\
  test_bits (to_unix_permissions perms) Permissions.exec_group
  = test_bits perms QFileDevice_ExeGroup /\
  test_bits (to_unix_permissions perms) Permissions.read_other
  = test_bits perms QFileDevice_ReadOther /\
  test_bits (to_unix_permissions perms) Permissions.write_other
  = test_bits perms QFileDevice_WriteOther /\
  test_bits (to_unix_permissions perms) Permissions.exec_other
  = test_bits perms QFileDevice_ExeOther.
Proof.
  unfold to_unix_permissions.
  destruct (test_bits perms QFileDevice_ReadOwner),
    (test_bits perms QFileDevice_WriteOwner),
    (test_bits perms QFileDevice_ExeOwner),
    (test_bits perms QFileDevice_ReadGroup),
    (test_bits perms QFileDevice_WriteGroup),
    (test_bits perms QFileDevice_ExeGroup),
    (test_bits perms QFileDevice_ReadOther),
    (test_bits perms QFileDevice_WriteOther),
    (test_bits perms QFileDevice_ExeOther);
    vm_compute; repeat split; congruence.
Qed.

Lemma test_bits_low_nine (perms bit : Z) :
  Z.land 511 bit = bit -> test_bits (Z.land perms 511) bit = test_bits perms bit.
Proof. intros Hb. unfold test_bits. now rewrite <- Z.land_assoc, Hb. Qed.

(** X11. [to_qt_permissions] reads the nine low bits of its argument and
    nothing else: the file-type bits and any other high bit that a
    request puts in its permissions field have no effect on the
    permissions that are set. *)
Theorem to_qt_permissions_low_bits (perms : Z) :
  to_qt_permissions (Z.land perms 511) = to_qt_permissions perms.
Proof.
  unfold to_qt_permissions.
  now rewrite !test_bits_low_nine by reflexivity.
Qed.

(** X12. A file that is a symlink is always reported by [attr_from] with
    all nine permission bits set, whatever permissions Qt reports for
    it. *)
Theorem attr_from_symlink_permissions (s : SftpServer) (file_info : QFileInfo.t) :
  QFileInfo.isSymLink file_info = true ->
  Z.land (attr_permissions (attr_from s file_info)) 511 = 511.
Proof.
  intros Hsym. unfold attr_from. cbn [attr_permissions]. rewrite Hsym.
  apply Z.bits_inj'. intros n Hn.
  rewrite Z.land_spec, !Z.lor_spec.
  destruct (Z.testbit 511 n); now rewrite ?orb_true_r, ?andb_false_r.
Qed.

End PermissionFacts.

Lemma attr_from_symlink_permissions_witness :
  Z.land (attr_permissions
            (@attr_from example_qt example_libssh example_sentinels
               (example_server "/srv/share" [] [])
               {| QFileInfo.fileName := "l";
                  QFileInfo.absoluteFilePath := "/srv/share/l";
                  QFileInfo.exists_ := true;
                  QFileInfo.isSymLink := true;
                  QFileInfo.isDir := false;
                  QFileInfo.isFile := true;
                  QFileInfo.symLinkTarget := "/srv/share/f";
                  QFileInfo.permissions := 0;
                  QFileInfo.ownerId := 1000;
                  QFileInfo.groupId := 1000;
                  QFileInfo.size := 0;
                  QFileInfo.lastRead := 0;
                  QFileInfo.lastModified := 0 |})) 511 = 511.
Proof.
  apply (@attr_from_symlink_permissions example_qt example_libssh example_sentinels).
  reflexivity.
Defined.

(** ** READ and WRITE *)

Section ReadWrite.
Context `{QtLib} `{Libssh} `{IdSentinels} `{Environment}.

Lemma to_uint64_small (z : Z) : 0 <= z < 2 ^ 64 -> to_uint64 z = z.
Proof. intros Hz. unfold to_uint64. now apply Z.mod_small. Qed.

Lemma write_loop_total (file : Z) :
  writes_progress ->
  forall (fuel : nat) (data_ptr : string) (len : Z) (w : world),
    0 <= len < 2 ^ 64 ->
    (Z.to_nat len < fuel)%nat ->
    let r := exec (write_loop fuel file data_ptr len) w in
    (value r = Some false /\
     exists (done : list event) (e : event),
       trace r = done ++ [e] /\ event_written e < 0 /\
       Forall (fun e => 0 <= event_written e) done) \/
    (value r = Some true /\
     Forall (fun e => 0 <= event_written e) (trace r) /\
     bytes_written (trace r) = len).
Proof.
  intros Hprog. induction fuel as [|fuel IH]; intros data_ptr len w Hlen Hfuel; [lia|].
  pose proof (Hprog file data_ptr len w) as Hp. revert Hp.
  cbn. run_step. intros Hp.
  destruct (r <? 0) eqn:Hr; cbn.
  - apply Z.ltb_lt in Hr. left. split; [reflexivity|].
    exists [], (Ev (FileOps_write file data_ptr len) r).
    split; [reflexivity|]. split; [exact Hr|constructor].
  - apply Z.ltb_ge in Hr. destruct Hp as [Hp|[Hp Hpos]]; [lia|].
    run_step. rewrite to_uint64_small by lia.
    destruct (0 <? len - r) eqn:Hrest; cbn.
    + apply Z.ltb_lt in Hrest.
      destruct (IH (advance (Z.to_nat r) data_ptr) (len - r) w1)
        as [(Hf & done & e & Htr & He & Hdone)|(Ht & Hall & Hw)]; [lia|lia| |].
      * left. split; [exact Hf|].
        exists (Ev (FileOps_write file data_ptr len) r :: Ev (QFile_flush file) r0 :: done), e.
        rewrite Htr. split; [reflexivity|]. split; [exact He|].
        constructor; [exact Hr|]. constructor; [cbn; lia|exact Hdone].
      * right. split; [exact Ht|]. split.
        -- constructor; [exact Hr|]. constructor; [cbn; lia|exact Hall].
        -- unfold bytes_written in *. cbn. rewrite Hw. lia.
    + apply Z.ltb_ge in Hrest. right. split; [reflexivity|]. split.
      * constructor; [exact Hr|]. constructor; [cbn; lia|constructor].
      * unfold bytes_written. cbn. lia.
Qed.

(** X13. When every write of the file layer makes progress, a WRITE on an
    open file is answered once the loop has run at most once per byte
    of the payload (and once for an empty payload), and the reply
    follows the answers of the file layer.  The handler seeks first; a
    failed seek is answered FAILURE and nothing is written.  After a
    successful seek the reply is FAILURE exactly when a write reports a
    negative count: that write is then the last operation, and no
    write before it reported one.  Otherwise the reply is OK: no write
    reported a negative count, and the counts add up to the length of
    the payload.  The server state is unchanged. *)
Theorem write_writes_whole_payload (s : SftpServer) (msg : sftp_client_message)
    (w : world) (file : QFile.t) :
  writes_progress ->
  msg_type msg = SFTP_WRITE ->
  open_file_handles s !! msg_handle msg = Some file ->
  Z.of_nat (String.length (msg_data msg)) < 2 ^ 64 ->
  let r := exec (process_message (S (String.length (msg_data msg))) s msg) w in
  exists (sought : bool) (writes : list event),
    trace r = Ev (FileOps_seek (msg_handle msg) (msg_offset msg)) sought :: writes /\
    ((sought = false /\ writes = [] /\ value r = Some (reply_failure, s))
     \/
     (sought = true /\ value r = Some (reply_failure, s) /\
      exists (done : list event) (e : event),
        writes = done ++ [e] /\ event_written e < 0 /\
        Forall (fun e => 0 <= event_written e) done)
     \/
     (sought = true /\ value r = Some (reply_ok, s) /\
      Forall (fun e => 0 <= event_written e) writes /\
      bytes_written writes = Z.of_nat (String.length (msg_data msg)))).
Proof.
  intros Hprog Ht Hh Hlen. unfold process_message. rewrite Ht.
  unfold handle_write, handle_from, sftp_handle. cbv zeta. rewrite Hh.
  cbn -[write_loop]. run_step. exists r. destruct r; cbn -[write_loop].
  - rewrite exec_bind. cbn [value trace exec].
    eexists. split; [reflexivity|]. right.
    destruct (write_loop_total (msg_handle msg) Hprog (S (String.length (msg_data msg)))
                (msg_data msg) (Z.of_nat (String.length (msg_data msg))) w0)
      as [(Hf & done & e & Htr & He & Hdone)|(Hok & Hall & Hw)]; [lia|lia| |].
    + left. split; [reflexivity|]. rewrite Hf. split; [reflexivity|].
      exists done, e. cbn [value trace exec]. rewrite app_nil_r.
      split; [exact Htr|split; [exact He|exact Hdone]].
    + right. split; [reflexivity|]. rewrite Hok. split; [reflexivity|].
      cbn [value trace exec]. rewrite app_nil_r. split; [exact Hall|exact Hw].
  - exists []. split; [reflexivity|]. left. repeat split.
Qed.

Lemma write_loop_stalls (file : Z) :
  writes_stall ->
  forall (fuel : nat) (data_ptr : string) (len : Z) (w : world),
    0 < len < 2 ^ 64 ->
    value (exec (write_loop fuel file data_ptr len) w) = None.
Proof.
  intros [_ Hzero]. induction fuel as [|fuel IH]; intros data_ptr len w Hlen;
    [reflexivity|].
  pose proof (Hzero file data_ptr len w) as Hr. revert Hr.
  cbn. run_step. intros ->. cbn. run_step.
  rewrite Z.sub_0_r, to_uint64_small by lia.
  destruct (0 <? len) eqn:Hpos; [|apply Z.ltb_ge in Hpos; lia].
  apply IH. exact Hlen.
Qed.

(** X14. A write that reports 0 bytes is not an error for the loop of
    [handle_write]: on a file layer whose writes always report 0, a
    WRITE with a payload that is not empty tries again without end; no
    number of iterations leads to a reply. *)
Theorem write_never_replies_when_stalled (fuel : nat) (s : SftpServer)
    (msg : sftp_client_message) (w : world) (file : QFile.t) :
  writes_stall ->
  msg_type msg = SFTP_WRITE ->
  open_file_handles s !! msg_handle msg = Some file ->
  msg_data msg <> "" ->
  Z.of_nat (String.length (msg_data msg)) < 2 ^ 64 ->
  value (exec (process_message fuel s msg) w) = None.
Proof.
  intros Hstall Ht Hh Hne Hlen. unfold process_message. rewrite Ht.
  unfold handle_write, handle_from, sftp_handle. cbv zeta. rewrite Hh.
  pose proof (proj1 Hstall (msg_handle msg) (msg_offset msg) w) as Hseek. revert Hseek.
  cbn -[write_loop]. run_step. intros ->. cbn -[write_loop].
  rewrite exec_bind. cbn [value exec].
  rewrite (write_loop_stalls (msg_handle msg) Hstall); [reflexivity|].
  destruct (msg_data msg); [congruence|]. cbn [String.length] in *. lia.
Qed.

End ReadWrite.

Lemma all_there_writes_progress : @writes_progress (stateless all_there).
Proof. intros f d len w. cbn. lia. Qed.

Lemma stalled_writes_stall : @writes_stall (stateless stalled).
Proof. split; reflexivity. Qed.

(** A payload of five bytes on a file layer that writes all it is
    given. *)
Lemma write_writes_whole_payload_witness :
  exists (sought : bool) (writes : list event),
    trace (@exec (stateless all_there) _
             (@process_message example_qt example_libssh example_sentinels 6
                example_open_server
                (example_payload_message SFTP_WRITE 4096 "hello" attr_zero)) tt)
    = Ev (FileOps_seek 4096 0) sought :: writes /\
    bytes_written writes = 5.
Proof.
  destruct (@write_writes_whole_payload example_qt example_libssh example_sentinels
              (stateless all_there) example_open_server
              (example_payload_message SFTP_WRITE 4096 "hello" attr_zero) tt
              (QFile.mk "/srv/share/f") all_there_writes_progress eq_refl eq_refl
              ltac:(vm_compute; reflexivity))
    as (sought & writes & Htrace & [(_ & _ & Hv)|[(_ & Hv & _)|(_ & _ & _ & Hw)]]).
  - vm_compute in Hv. discriminate Hv.
  - vm_compute in Hv. discriminate Hv.
  - exists sought, writes. split; [exact Htrace|exact Hw].
Defined.

Lemma write_never_replies_when_stalled_witness :
  value (@exec (stateless stalled) _
           (@process_message example_qt example_libssh example_sentinels 1000
              example_open_server
              (example_payload_message SFTP_WRITE 4096 "hello" attr_zero)) tt)
  = None.
Proof.
  apply (@write_never_replies_when_stalled example_qt example_libssh example_sentinels
           (stateless stalled) 1000 example_open_server
           (example_payload_message SFTP_WRITE 4096 "hello" attr_zero) tt
           (QFile.mk "/srv/share/f") stalled_writes_stall eq_refl eq_refl).
  - discriminate.
  - vm_compute. reflexivity.
Defined.

Section ReadFacts.
Context `{QtLib} `{Libssh} `{IdSentinels} `{Environment}.

Lemma substring_length_le (n : nat) (s : string) :
  (String.length (substring 0 n s) <= n)%nat.
Proof.
  revert s. induction n as [|n IH]; intros s.
  - destruct s; cbn; lia.
  - destruct s as [|c s]; cbn; [lia|]. specialize (IH s). lia.
Qed.

(** X15. A READ on an open file seeks to the offset of the request and,
    if that succeeds, asks the file for [min(len, 65536)] bytes, never
    for more than 65536.  A failed seek is answered FAILURE without a
    read; a negative count FAILURE with the error string of the file; a
    count of 0 EOF; a positive count [n] is answered with the first [n]
    bytes of the buffer, so with at most [n] bytes.  The server state is
    unchanged. *)
Theorem read_asks_at_most_64k (fuel : nat) (s : SftpServer) (msg : sftp_client_message)
    (w : world) (file : QFile.t) :
  msg_type msg = SFTP_READ ->
  open_file_handles s !! msg_handle msg = Some file ->
  let r := exec (process_message fuel s msg) w in
  let h := msg_handle msg in
  let len := Z.min (msg_len msg) 65536 in
  len <= 65536 /\
  ((trace r = [Ev (FileOps_seek h (msg_offset msg)) false] /\
    value r = Some (reply_failure, s))
   \/
   exists (n : Z) (buf : string),
     (n < 0 /\
      exists err : string,
        trace r = [Ev (FileOps_seek h (msg_offset msg)) true;
                   Ev (FileOps_read h len) (n, buf);
                   Ev (QFile_errorString h) err] /\
        value r = Some (sftp_reply_status SSH_FX_FAILURE (Some err), s))
     \/
     (n = 0 /\
      trace r = [Ev (FileOps_seek h (msg_offset msg)) true;
                 Ev (FileOps_read h len) (n, buf)] /\
      value r = Some (sftp_reply_status SSH_FX_EOF (Some "End of file"), s))
     \/
     (0 < n /\
      trace r = [Ev (FileOps_seek h (msg_offset msg)) true;
                 Ev (FileOps_read h len) (n, buf)] /\
      value r = Some (sftp_reply_data (buffer_prefix n buf), s) /\
      (String.length (buffer_prefix n buf) <= Z.to_nat n)%nat)).
Proof.
  intros Ht Hh. unfold process_message. rewrite Ht.
  unfold handle_read, handle_from, sftp_handle, returns. cbv zeta. rewrite Hh.
  split; [lia|]. cbn. run_step. destruct r; cbn; [|now left].
  right. run_step. destruct r as [n buf]. exists n, buf. cbn.
  destruct (n <? 0) eqn:Hneg; cbn.
  - left. apply Z.ltb_lt in Hneg. split; [exact Hneg|]. run_step. exists r. auto.
  - apply Z.ltb_ge in Hneg. right. destruct (n =? 0) eqn:Hz; cbn.
    + left. apply Z.eqb_eq in Hz. auto.
    + right. apply Z.eqb_neq in Hz. split; [lia|]. split; [reflexivity|].
      split; [reflexivity|]. apply substring_length_le.
Qed.

End ReadFacts.

Lemma read_asks_at_most_64k_witness :
  exists (n : Z) (buf : string),
    trace (@exec (stateless all_there) _
             (@process_message example_qt example_libssh example_sentinels 0
                example_open_server
                (example_payload_message SFTP_READ 4096 "" attr_zero)) tt)
    = [Ev (FileOps_seek 4096 0) true; Ev (FileOps_read 4096 65536) (n, buf)].
Proof.
  destruct (@read_asks_at_most_64k example_qt example_libssh example_sentinels
              (stateless all_there) 0 example_open_server
              (example_payload_message SFTP_READ 4096 "" attr_zero) tt
              (QFile.mk "/srv/share/f") eq_refl eq_refl)
    as [_ [[_ Hv]|(n & buf & [(_ & err & _ & Hv)|[(_ & Ht & _)|(_ & _ & Hv & _)]])]];
    try (vm_compute in Hv; discriminate Hv).
  exists n, buf. exact Ht.
Defined.

(** ** SETSTAT and FSETSTAT *)

Section Setstat.
Context `{QtLib} `{Libssh} `{IdSentinels} `{Environment}.






End Setstat.


Section Stat.
Context `{QtLib} `{Libssh} `{IdSentinels} `{Environment}.

(** X17. STAT and LSTAT on a path that passes the check look the path up
    once.  A path that is neither a symlink nor an existing file is
    answered NO_SUCH_FILE.  LSTAT on a symlink asks the platform for the
    attributes of the link itself and never looks at its target; the
    uid and gid of the answer are mapped forward.  STAT on a symlink
    looks the target up and reports the target; any other file is
    reported from the first lookup.  The server state is unchanged. *)
Theorem stat_follows_lstat_does_not (fuel : nat) (s : SftpServer)
    (msg : sftp_client_message) (w : world) :
  msg_type msg = SFTP_STAT \/ msg_type msg = SFTP_LSTAT ->
  validate_path (source_path s) (msg_filename msg) = true ->
  let r := exec (process_message fuel s msg) w in
  let filename := msg_filename msg in
  exists info : QFileInfo.t,
    (QFileInfo.isSymLink info = false /\ QFileInfo.exists_ info = false /\
     trace r = [Ev (QFileInfo_new filename) info] /\
     value r = Some (sftp_reply_status SSH_FX_NO_SUCH_FILE (Some "no such file"), s))
    \/
    (QFileInfo.isSymLink info = false /\ QFileInfo.exists_ info = true /\
     trace r = [Ev (QFileInfo_new filename) info] /\
     value r = Some (sftp_reply_attr (attr_from s info), s))
    \/
    (QFileInfo.isSymLink info = true /\ msg_type msg = SFTP_LSTAT /\
     exists attr : sftp_attributes,
       trace r = [Ev (QFileInfo_new filename) info;
                  Ev (Platform_symlink_attr_from filename) attr] /\
       value r = Some (sftp_reply_attr (map_attr_ids s attr), s))
    \/
    (QFileInfo.isSymLink info = true /\ msg_type msg = SFTP_STAT /\
     exists target : QFileInfo.t,
       trace r = [Ev (QFileInfo_new filename) info;
                  Ev (QFileInfo_new (QFileInfo.symLinkTarget info)) target] /\
       value r = Some (sftp_reply_attr (attr_from s target), s)).
Proof.
  intros Ht Hv. unfold process_message.
  destruct Ht as [Ht|Ht]; rewrite Ht; unfold handle_stat, returns; rewrite Hv; cbn;
    run_step; exists r;
    destruct (QFileInfo.isSymLink r) eqn:Hsym, (QFileInfo.exists_ r) eqn:Hex; cbn.
  - (* STAT, symlink *) run_step. do 3 right. repeat split; try assumption.
    exists r0. split; reflexivity.
  - run_step. do 3 right. repeat split; try assumption.
    exists r0. split; reflexivity.
  - right. left. repeat split.
  - left. repeat split.
  - (* LSTAT, symlink *) run_step. right. right. left. repeat split; try assumption.
    exists r0. split; reflexivity.
  - run_step. right. right. left. repeat split; try assumption.
    exists r0. split; reflexivity.
  - right. left. repeat split.
  - left. repeat split.
Qed.

End Stat.

Lemma stat_follows_lstat_does_not_witness :
  exists info : QFileInfo.t,
    trace (@exec (stateless all_there) _
             (@process_message example_qt example_libssh example_sentinels 0
                (example_server "/srv/share" [] [])
                (example_message SFTP_LSTAT "/srv/share/f" "")) tt)
    = [Ev (QFileInfo_new "/srv/share/f") info].
Proof.
  destruct (@stat_follows_lstat_does_not example_qt example_libssh example_sentinels
              (stateless all_there) 0 (example_server "/srv/share" [] [])
              (example_message SFTP_LSTAT "/srv/share/f" "") tt
              (or_intror eq_refl) eq_refl)
    as [info [(_ & _ & Ht & _)|[(_ & _ & Ht & _)|[(_ & _ & attr & Ht & _)
                                                 |(_ & _ & target & Ht & _)]]]];
    first [ exists info; exact Ht
          | exfalso; apply (f_equal (@List.length event)) in Ht; vm_compute in Ht;
            discriminate Ht ].
Defined.

(** ** OPEN and CLOSE *)

Section OpenCreates.
Context `{QtLib} `{Libssh} `{IdSentinels} `{Environment}.

(** One step of [exec], with a name for the answer. *)
Ltac step_as x :=
  match goal with
  | |- context [sys ?c ?w] =>
      is_var w;
      let w' := fresh "w" in
      destruct (sys c w) as [x w']; cbn [fst snd]
  end.

(** The end of [handle_open]: the handle is allocated, and the reply
    follows the answer. *)
Ltac open_finish :=
  let allocated := fresh "allocated" in
  step_as allocated; exists allocated;
  destruct allocated; cbn; split; reflexivity.

(** X18. The operations of an OPEN on a path that passes the check, and
    the reply, in every case.  The handler makes the file object, looks
    the path up, and asks whether the file exists unless the path is a
    symlink: the file counts as existing when the path is a symlink or
    the answer is yes (line 605).  It then opens the file; a failure is
    answered FAILURE.  For a file that counts as existing it sets
    neither permissions nor ownership.  For any other file it sets the
    permission bits of the request (FAILURE if that fails), looks up
    the parent directory and calls [chown] (FAILURE on a negative
    result) with the uid and the gid of the request mapped back: the
    host id of the first entry of the map whose remote id is the id of
    the request, and the owner, respectively the group, of the parent
    directory when the map has no such entry.  Last, the handle is
    allocated: the reply is the handle, with the file recorded in the
    table, or FAILURE, with the server unchanged. *)
Theorem open_sets_attributes_of_new_files_only (fuel : nat) (s : SftpServer)
    (msg : sftp_client_message) (w : world) :
  msg_type msg = SFTP_OPEN ->
  validate_path (source_path s) (msg_filename msg) = true ->
  let r := exec (process_message fuel s msg) w in
  let filename := msg_filename msg in
  let req := msg_attr msg in
  exists (file : Z) (info : QFileInfo.t) (probe : list event) (exists_ opened : bool)
         (rest : list event),
    let finish (tail : list event) : Prop :=
      exists allocated : bool,
        tail = [Ev (sftp_handle_alloc file) allocated] /\
        value r =
          Some (if allocated
                then (sftp_reply_handle file,
                      set_open_file_handles s
                        (emplace file (QFile.mk filename) (open_file_handles s)))
                else (reply_failure, s)) in
    trace r =
      Ev make_unique file :: Ev (QFileInfo_new filename) info
      :: probe ++ Ev (FileOps_open file filename (open_mode (msg_flags msg))) opened :: rest /\
    ((QFileInfo.isSymLink info = true /\ probe = [] /\ exists_ = true) \/
     (QFileInfo.isSymLink info = false /\ probe = [Ev (QFile_exists filename) exists_])) /\
    ((opened = false /\ rest = [] /\ value r = Some (reply_failure, s))
     \/
     (opened = true /\ exists_ = true /\ finish rest)
     \/
     (opened = true /\ exists_ = false /\
      rest = [Ev (FileOps_setPermissions filename
                    (to_qt_permissions (attr_permissions req))) false] /\
      value r = Some (reply_failure, s))
     \/
     (opened = true /\ exists_ = false /\
      exists (parent : QFileInfo.t) (uid gid rc : Z) (tail : list event),
        rest = Ev (FileOps_setPermissions filename
                     (to_qt_permissions (attr_permissions req))) true
               :: Ev (QFileInfo_new (QFileInfo_path filename)) parent
               :: Ev (Platform_chown filename uid gid) rc
               :: tail /\
        maps_back (uid_mappings s) (to_int (attr_uid req))
          (to_int (QFileInfo.ownerId parent)) uid /\
        maps_back (gid_mappings s) (to_int (attr_gid req))
          (to_int (QFileInfo.groupId parent)) gid /\
        ((rc < 0 /\ tail = [] /\ value r = Some (reply_failure, s)) \/
         (0 <= rc /\ finish tail)))).
Proof.
  intros Ht Hvalid. unfold process_message. rewrite Ht. unfold handle_open, returns.
  rewrite Hvalid. cbn.
  step_as file. step_as info. destruct (QFileInfo.isSymLink info) eqn:Hsym; cbn.
  - (* a symlink: no existence test *)
    step_as opened. exists file, info, [], true, opened. destruct opened; cbn.
    + eexists. split; [reflexivity|]. split; [left; repeat split; exact Hsym|].
      right. left. split; [reflexivity|]. split; [reflexivity|]. open_finish.
    + exists []. split; [reflexivity|]. split; [left; repeat split; exact Hsym|].
      left. repeat split.
  - step_as found. step_as opened.
    exists file, info, [Ev (QFile_exists (msg_filename msg)) found], found, opened.
    destruct opened; cbn.
    + destruct found; cbn.
      * (* the file exists *)
        eexists. split; [reflexivity|]. split; [right; repeat split; exact Hsym|].
        right. left. split; [reflexivity|]. split; [reflexivity|]. open_finish.
      * (* a new file *)
        step_as set. destruct set; cbn.
        -- step_as parent. step_as rc.
           eexists. split; [reflexivity|]. split; [right; repeat split; exact Hsym|].
           do 3 right. split; [reflexivity|]. split; [reflexivity|].
           exists parent,
             (reverse_uid_for s (to_int (attr_uid (msg_attr msg)))
                (to_int (QFileInfo.ownerId parent))),
             (reverse_gid_for s (to_int (attr_gid (msg_attr msg)))
                (to_int (QFileInfo.groupId parent))),
             rc.
           destruct (rc <? 0) eqn:Hrc; cbn.
           ++ exists []. split; [reflexivity|].
              split; [apply reverse_id_for_maps_back|].
              split; [apply reverse_id_for_maps_back|].
              left. apply Z.ltb_lt in Hrc. repeat split. exact Hrc.
           ++ eexists. split; [reflexivity|].
              split; [apply reverse_id_for_maps_back|].
              split; [apply reverse_id_for_maps_back|].
              right. apply Z.ltb_ge in Hrc. split; [exact Hrc|]. open_finish.
        -- eexists. split; [reflexivity|]. split; [right; repeat split; exact Hsym|].
           do 2 right. left. repeat split.
    + exists []. split; [reflexivity|]. split; [right; repeat split; exact Hsym|].
      left. repeat split.
Qed.

(** X19. Opening and closing is a round trip on the tables: when an OPEN
    is answered with a handle that was not a key of either table, a
    CLOSE on that handle is answered OK and leaves the server exactly
    as it was before the OPEN. *)
Theorem close_undoes_open (fuel : nat) (s s1 : SftpServer)
    (open_msg close_msg : sftp_client_message) (w w1 : world) (h : Z) :
  msg_type open_msg = SFTP_OPEN ->
  value (exec (process_message fuel s open_msg) w) = Some (sftp_reply_handle h, s1) ->
  open_file_handles s !! h = None ->
  open_dir_handles s !! h = None ->
  msg_type close_msg = SFTP_CLOSE ->
  msg_handle close_msg = h ->
  value (exec (process_message fuel s1 close_msg) w1) = Some (reply_ok, s).
Proof.
  intros Hto Hv Hf Hd Htc Hh. apply process_message_transition in Hv.
  unfold transition in Hv. rewrite Hto in Hv.
  destruct Hv as [(_ & st & text & [=])|(h' & [= <-] & _ & ->)].
  unfold process_message. rewrite Htc.
  unfold handle_close, sftp_handle, returns. rewrite Hh. cbv zeta.
  unfold erase, emplace. cbn [open_file_handles open_dir_handles set_open_file_handles].
  rewrite Hf, Hd, lookup_insert_eq. cbn.
  rewrite delete_insert_id by exact Hf. now destruct s.
Qed.

End OpenCreates.

(** The creation of [/srv/share/new] on a server whose uid map is
    [(1234, 2000)] and whose gid map is [(4321, 3000)], by a request
    with the uid 2000 and the gid 3000; the parent is owned by 1000.
    [chown] receives 1234 and 4321. *)
Lemma open_sets_attributes_of_new_files_only_witness :
  exists (file : Z) (info parent : QFileInfo.t) (opened : bool) (rc : Z) (tail : list event),
    trace (@exec (stateless creating) _
             (@process_message example_qt example_libssh example_sentinels 0
                (example_server "/srv/share" [(1234, 2000)] [(4321, 3000)])
                (example_create "/srv/share/new" 2000 3000)) tt)
    = [Ev make_unique file;
       Ev (QFileInfo_new "/srv/share/new") info;
       Ev (QFile_exists "/srv/share/new") false;
       Ev (FileOps_open file "/srv/share/new" 6) opened;
       Ev (FileOps_setPermissions "/srv/share/new" 1604) true;
       Ev (QFileInfo_new "/srv/share") parent;
       Ev (Platform_chown "/srv/share/new" 1234 4321) rc] ++ tail.
Proof.
  destruct (@open_sets_attributes_of_new_files_only example_qt example_libssh
              example_sentinels (stateless creating) 0
              (example_server "/srv/share" [(1234, 2000)] [(4321, 3000)])
              (example_create "/srv/share/new" 2000 3000) tt eq_refl eq_refl)
    as (file & info & probe & found & opened & rest & Htrace & Hprobe & Hrest).
  destruct Hprobe as [(_ & Hprobe & Hfound)|(_ & Hprobe)];
    destruct Hrest as [(Hopened & Hrest & _)|[(Hopened & Hfound' & allocated & Hrest & _)
                      |[(Hopened & Hfound' & Hrest & _)
                       |(Hopened & Hfound' & parent & uid & gid & rc & tail & Hrest
                         & [Huid _] & [Hgid _] & _)]]];
    subst;
    try (exfalso; apply (f_equal (@List.length event)) in Htrace; vm_compute in Htrace;
         discriminate Htrace);
    try discriminate.
  rewrite (Huid [] 1234 [] eq_refl (fun e (He : In e []) => match He with end)) in Htrace.
  rewrite (Hgid [] 4321 [] eq_refl (fun e (He : In e []) => match He with end)) in Htrace.
  exists file, info, parent, true, rc, tail. exact Htrace.
Defined.

Lemma close_undoes_open_witness :
  value (@exec (stateless all_there) _
           (@process_message example_qt example_libssh example_sentinels 0
              example_after_open (example_handle_message SFTP_CLOSE 4096)) tt)
  = Some (reply_ok, example_server "/srv/share" [] []).
Proof.
  apply (@close_undoes_open example_qt example_libssh example_sentinels
           (stateless all_there) 0 (example_server "/srv/share" [] []) example_after_open
           (example_open "/srv/share/f" 2) (example_handle_message SFTP_CLOSE 4096)
           tt tt 4096 eq_refl).
  - reflexivity.
  - apply lookup_empty.
  - apply lookup_empty.
  - reflexivity.
  - reflexivity.
Defined.

(** ** Removals *)

Section Removals.
Context `{QtLib} `{Libssh} `{IdSentinels}.

Ltac removal Ht :=
  unfold removal_by, is_rename;
  first
    [ exact I
    | left; split; [exact Ht|reflexivity]
    | split; [exact Ht|reflexivity]
    | right; split; [rewrite Ht; reflexivity|reflexivity] ].

Ltac walk_removals Ht :=
  repeat walk_step; try removal Ht;
  try (unfold returns; cbn [holds bind]; exact I).

Lemma holds_removal_by (fuel : nat) (s : SftpServer) (msg : sftp_client_message) :
  holds (removal_by msg) (fun _ => True) (process_message fuel s msg).
Proof.
  unfold process_message.
  destruct (msg_type msg) eqn:Ht.
  - unfold handle_realpath. walk_removals Ht.
  - unfold handle_opendir. walk_removals Ht.
  - unfold handle_mkdir. walk_removals Ht.
  - unfold handle_rmdir. walk_removals Ht.
  - unfold handle_stat. walk_removals Ht.
  - unfold handle_stat. walk_removals Ht.
  - unfold handle_fstat. destruct (handle_from msg (open_file_handles s)); walk_removals Ht.
  - unfold handle_readdir. destruct (handle_from msg (open_dir_handles s)) as [[|entry rest]|];
      [walk_removals Ht| |walk_removals Ht].
    unfold returns.
    apply holds_bind with (Q' := fun _ => True); [|intros a _; exact I].
    eapply holds_bind; [apply holds_readdir_loop; intros p; exact I|].
    intros res _. exact I.
  - unfold handle_close. cbv zeta. destruct (_ =? 0); walk_removals Ht.
  - unfold handle_open. walk_removals Ht.
  - unfold handle_read. destruct (handle_from msg (open_file_handles s)); walk_removals Ht.
  - unfold handle_write. destruct (handle_from msg (open_file_handles s));
      [|walk_removals Ht].
    walk_removals Ht.
    eapply holds_bind; [apply holds_write_loop; intros; exact I|].
    intros [[|]|] _; exact I.
  - unfold handle_rename. walk_removals Ht.
  - unfold handle_remove. walk_removals Ht.
  - unfold handle_setstat, apply_setstat. rewrite Ht. walk_removals Ht.
  - unfold handle_setstat, apply_setstat. rewrite Ht.
    destruct (handle_from msg (open_file_handles s)); walk_removals Ht.
  - unfold handle_readlink. walk_removals Ht.
  - unfold handle_symlink. walk_removals Ht.
  - unfold handle_extended, handle_rename.
    destruct (msg_submessage msg) as [method|] eqn:Hsub; [|walk_removals Ht].
    destruct (String.eqb method "hardlink@openssh.com") eqn:Hhard; [walk_removals Ht|].
    destruct (String.eqb method "posix-rename@openssh.com") eqn:Hposix;
      [|walk_removals Ht].
    walk_removals Ht;
      unfold removal_by, is_rename; right; rewrite Ht, Hsub, Hhard, Hposix;
      split; reflexivity.
  - walk_removals Ht.
Qed.

Context `{Environment}.

(** X20. Nothing is removed except by the requests that ask for it: a file
    is removed only by REMOVE, which removes the file it names, and by a
    rename, which removes its target; a directory is removed only by
    RMDIR.  In particular a MKDIR or an OPEN that fails half-way does
    not remove what it has created. *)
Theorem removals_are_requested (fuel : nat) (s : SftpServer) (msg : sftp_client_message)
    (w : world) (e : event) (p : string) :
  In e (trace (exec (process_message fuel s msg) w)) ->
  (event_call e = FileOps_remove p ->
   (msg_type msg = SFTP_REMOVE /\ p = msg_filename msg) \/
   (is_rename msg = true /\ p = msg_data msg)) /\
  (event_call e = FileOps_rmdir p ->
   msg_type msg = SFTP_RMDIR /\ p = msg_filename msg).
Proof.
  intros He.
  pose proof (proj1 (holds_exec _ _ _ w (holds_removal_by fuel s msg)) e He) as Hby.
  unfold removal_by in Hby.
  split; intros Hc; rewrite Hc in Hby; exact Hby.
Qed.

End Removals.

Lemma removals_are_requested_witness :
  is_rename (example_message SFTP_RENAME "/srv/share/a" "/srv/share/b") = true /\
  "/srv/share/b" = msg_data (example_message SFTP_RENAME "/srv/share/a" "/srv/share/b").
Proof.
  destruct (proj1 (@removals_are_requested example_qt example_libssh example_sentinels
                     (stateless all_there) 0 (example_server "/srv/share" [] [])
                     (example_message SFTP_RENAME "/srv/share/a" "/srv/share/b") tt
                     (Ev (FileOps_remove "/srv/share/b") true) "/srv/share/b"
                     ltac:(do 3 right; left; reflexivity)) eq_refl)
    as [[Ht _]|Hr].
  - discriminate Ht.
  - exact Hr.
Defined.

(** ** The server loop *)

Lemma rholds_bind {A B : Type} (P : run_call -> Prop) (Q' : A -> Prop) (Q : B -> Prop)
    (p : rprog A) (f : A -> rprog B) :
  rholds P Q' p -> (forall a, Q' a -> rholds P Q (f a)) -> rholds P Q (rbind p f).
Proof.
  intros Hp Hf. induction p as [a|c k IH]; cbn in *.
  - now apply Hf.
  - destruct Hp as [Hc Hk]. split; [exact Hc|]. intros r. now apply IH.
Qed.

Lemma rholds_lift {A : Type} (P : syscall -> Prop) (Q : A -> Prop) (p : prog A) :
  holds P Q p -> rholds (on_files P) Q (lift p).
Proof.
  induction p as [a|c k IH]; cbn; [auto|].
  intros [Hc Hk]. split; [exact Hc|]. intros r. now apply IH.
Qed.

Lemma rholds_exec `{RunEnvironment} {A : Type} (P : run_call -> Prop) (Q : A -> Prop)
    (p : rprog A) (w : rworld) :
  rholds P Q p ->
  (forall e, In e (rtrace (rexec p w)) -> P (run_event_call e)) /\ Q (rvalue (rexec p w)).
Proof.
  revert w. induction p as [a|c k IH]; intros w Hp; cbn in *.
  - split; [intros e []|exact Hp].
  - destruct Hp as [Hc Hk].
    destruct (IH (fst (rsys c w)) (snd (rsys c w)) (Hk _)) as [Htr Hv].
    split; [|exact Hv]. intros e [<-|He]; [exact Hc|now apply Htr].
Qed.

(** One step of [rexec]: name the answer of the next operation and the
    state it leaves. *)
Ltac loop_step :=
  match goal with
  | |- context [rsys ?c ?w] =>
      is_var w;
      let r := fresh "r" in
      let w' := fresh "w" in
      destruct (rsys c w) as [r w']; cbn [fst snd]
  end.

Section RunLoop.
Context `{QtLib} `{Libssh} `{IdSentinels} `{Utils}.

Lemma rholds_try_bind {A B : Type} (P : run_call -> Prop) (Q' : A -> Prop)
    (Q : B -> Prop) (p : rprog (outcome A)) (f : A -> rprog (outcome B)) :
  rholds P (if_value Q') p ->
  (forall a, Q' a -> rholds P (if_value Q) (f a)) ->
  rholds P (if_value Q) (try_bind p f).
Proof.
  intros Hp Hf. unfold try_bind. eapply rholds_bind; [exact Hp|].
  intros [a|e] Ha; [now apply Hf|exact I].
Qed.

Lemma rholds_ssh {A : Type} (P : syscall -> Prop) (Q : A -> Prop) (c : ssh_call)
    (k : ssh_resp c -> rprog A) :
  (forall r, rholds (on_files P) Q (k r)) -> rholds (on_files P) Q (rbind (ssh c) k).
Proof. intros Hk. cbn. split; [exact I|exact Hk]. Qed.

Lemma rholds_check_sshfs_status (P : syscall -> Prop) (process : Z) :
  rholds (on_files P) (if_value (fun _ => True)) (check_sshfs_status process).
Proof.
  unfold check_sshfs_status. apply rholds_ssh. intros [n|e].
  - destruct (negb (n =? 0)); [|exact I].
    apply rholds_ssh. intros [what|[]]; exact I.
  - destruct e; exact I.
Qed.

Lemma rholds_create_sshfs_process (P : syscall -> Prop) (line source target : string) :
  rholds (on_files P) (if_value (fun _ => True)) (create_sshfs_process line source target).
Proof.
  unfold create_sshfs_process.
  apply rholds_try_bind with (Q' := fun _ => True).
  - cbn. split; [exact I|]. intros [process|e]; exact I.
  - intros process _. apply rholds_try_bind with (Q' := fun _ => True).
    + apply rholds_check_sshfs_status.
    + intros _ _. exact I.
Qed.

(** The recovery calls the SSH layer only, and leaves the server and the
    command line of sshfs as they are. *)
Lemma rholds_recover (P : syscall -> Prop) (sess : Session) :
  rholds (on_files P)
    (if_value (fun sess' => server sess' = server sess /\
                            sshfs_exec_line sess' = sshfs_exec_line sess))
    (recover sess).
Proof.
  unfold recover.
  apply rholds_try_bind with (Q' := fun _ => True).
  { cbn. split; [exact I|]. intros [proc|e]; exact I. }
  intros proc _. apply rholds_try_bind with (Q' := fun _ => True).
  { cbn. split; [exact I|]. intros [out|e]; exact I. }
  intros mount_path _. apply rholds_try_bind with (Q' := fun _ => True).
  { destruct (negb (StdString.empty mount_path)); [|exact I].
    cbn. split; [exact I|]. intros [proc'|e]; exact I. }
  intros _ _. apply rholds_try_bind with (Q' := fun _ => True).
  { apply rholds_create_sshfs_process. }
  intros process _. apply rholds_try_bind with (Q' := fun _ => True).
  { cbn. split; [exact I|]. intros [[]|e]; exact I. }
  intros _ _. cbn. split; reflexivity.
Qed.

(** The loop keeps the server within a set [I] of states that every
    request keeps, and all it does on the file system is what the
    handlers do. *)
Lemma rholds_run (wfuel : nat) (line : string) (P : syscall -> Prop)
    (I : SftpServer -> Prop) :
  (forall s msg, I s ->
     holds P (fun res => match res with
                         | Some (_, s') => I s'
                         | None => True
                         end)
       (process_message wfuel s msg)) ->
  forall (fuel : nat) (sess : Session),
    I (server sess) -> sshfs_exec_line sess = line ->
    rholds (on_files P)
      (fun res => match res with
                  | Finished sess' => I (server sess') /\ sshfs_exec_line sess' = line
                  | _ => True
                  end)
      (SftpServer_run fuel wfuel sess).
Proof.
  intros Hstep. induction fuel as [|fuel IH]; intros sess Hs Hline; [exact Logic.I|].
  cbn [SftpServer_run]. apply rholds_ssh. intros [msg|].
  - eapply rholds_bind; [apply rholds_lift, Hstep, Hs|].
    intros [[reply s']|] Hs'; [|exact Logic.I]. now apply IH.
  - apply rholds_ssh. intros [|]; [cbn; auto|].
    apply rholds_ssh.
    assert (Hcontinue : forall status : Z,
      rholds (on_files P)
        (fun res => match res with
                    | Finished sess' => I (server sess') /\ sshfs_exec_line sess' = line
                    | _ => True
                    end)
        (if negb (status =? 0)
         then rbind (recover sess)
                (fun recovered => match recovered with
                                  | Value sess' => SftpServer_run fuel wfuel sess'
                                  | Throw e => RRet (Uncaught e)
                                  end)
         else RRet (Finished sess))).
    { intros status. destruct (negb (status =? 0)); [|cbn; auto].
      eapply rholds_bind; [apply rholds_recover|].
      intros [sess'|e] Hr; [|exact Logic.I]. cbn in Hr. destruct Hr as [Hsrv Hl].
      apply IH; [now rewrite Hsrv|congruence]. }
    intros [status|e]; [apply Hcontinue|].
    destruct e; [apply Hcontinue|exact Logic.I|exact Logic.I].
Qed.

(** X21. The whole life of a mount: a server that starts with no open
    file, whatever messages arrive, whatever the SSH layer and the file
    system answer, and however often sshfs is started again, creates,
    removes, renames, opens, links at and changes the attributes of
    only paths that pass the check against the configured source
    path. *)
Theorem run_confined `{RunEnvironment} (fuel wfuel : nat) (sess : Session) (w : rworld)
    (e : run_event) (c : syscall) (p : string) :
  open_file_handles (server sess) = ∅ ->
  In e (rtrace (rexec (SftpServer_run fuel wfuel sess) w)) ->
  run_event_call e = Fs c ->
  In p (mutated_paths c) ->
  validate_path (source_path (server sess)) p = true.
Proof.
  intros Hempty He Hc Hp.
  pose proof (rholds_run wfuel (sshfs_exec_line sess)
                (fun c => Forall (fun p => validate_path (source_path (server sess)) p = true)
                            (mutated_paths c))
                (fun s => same_config (server sess) s /\ files_confined s)) as Hrun.
  assert (Hstep : forall s msg,
            same_config (server sess) s /\ files_confined s ->
            holds (fun c => Forall (fun p => validate_path (source_path (server sess)) p = true)
                              (mutated_paths c))
              (fun res => match res with
                          | Some (_, s') => same_config (server sess) s' /\ files_confined s'
                          | None => True
                          end)
              (process_message wfuel s msg)).
  { intros s msg [Hcfg Hconf].
    eapply holds_weaken; [| |apply holds_process_message].
    - intros c' Hc'. specialize (Hc' Hconf). destruct Hcfg as [Hsrc _].
      now rewrite Hsrc in Hc'.
    - intros [[reply s']|] Htr; [|exact I]. cbn in Htr. split.
      + pose proof (transition_same_config _ _ _ _ Htr) as Hcfg'.
        unfold same_config in *. intuition congruence.
      + eapply transition_files_confined; eassumption. }
  specialize (Hrun Hstep fuel sess).
  assert (Hinit : same_config (server sess) (server sess) /\ files_confined (server sess)).
  { split; [unfold same_config; tauto|].
    intros k file Hk. rewrite Hempty in Hk. discriminate Hk. }
  pose proof (proj1 (rholds_exec _ _ _ w (Hrun Hinit eq_refl)) e He) as Hall.
  rewrite Hc in Hall. cbn in Hall.
  rewrite Forall_forall in Hall. apply Hall. now apply list_elem_of_In.
Qed.

(** X22. When the loop returns, the server has the source path, the target
    path, the id maps and the default ids it started with, and the same
    sshfs command line: neither a request nor a recovery changes
    them. *)
Theorem run_keeps_configuration `{RunEnvironment} (fuel wfuel : nat) (sess sess' : Session)
    (w : rworld) :
  rvalue (rexec (SftpServer_run fuel wfuel sess) w) = Finished sess' ->
  same_config (server sess) (server sess') /\
  sshfs_exec_line sess' = sshfs_exec_line sess.
Proof.
  intros Hv.
  pose proof (rholds_run wfuel (sshfs_exec_line sess) (fun _ => True)
                (fun s => same_config (server sess) s)) as Hrun.
  assert (Hstep : forall s msg,
            same_config (server sess) s ->
            holds (fun _ => True)
              (fun res => match res with
                          | Some (_, s') => same_config (server sess) s'
                          | None => True
                          end)
              (process_message wfuel s msg)).
  { intros s msg Hcfg.
    eapply holds_weaken; [| |apply holds_process_message]; [auto|].
    intros [[reply s']|] Htr; [|exact I]. cbn in Htr.
    pose proof (transition_same_config _ _ _ _ Htr) as Hcfg'.
    unfold same_config in *. intuition congruence. }
  assert (Hinit : same_config (server sess) (server sess)) by (unfold same_config; tauto).
  pose proof (proj2 (rholds_exec _ _ _ w (Hrun Hstep fuel sess Hinit eq_refl))) as Hq.
  rewrite Hv in Hq. exact Hq.
Qed.

(** X23. The end of the message stream.  When no message arrives, the
    loop reads the stop flag; if it is set the loop returns.  Otherwise
    it asks for the exit code of sshfs: code 0 makes the loop return;
    a nonzero code, and also a timeout of the query, starts the
    recovery, whose first step looks for what is mounted from the
    source path; any other exception leaves the loop. *)
Theorem end_of_stream `{RunEnvironment} (fuel wfuel : nat) (sess : Session) (w : rworld) :
  let a1 := rsys (Ssh sftp_get_client_message) w in
  let a2 := rsys (Ssh read_stop_invoked) (snd a1) in
  let a3 := rsys (Ssh (SSHProcess_exit_code (sshfs_process sess))) (snd a2) in
  let findmnt :=
    Ssh (SSHSession_exec
           ("findmnt --source :" ++ source_path (server sess) ++ "  -o TARGET -n")%string) in
  let r := rexec (SftpServer_run (S fuel) wfuel sess) w in
  fst a1 = None ->
  (fst a2 = true ->
   rvalue r = Finished sess /\
   rtrace r = [REv (Ssh sftp_get_client_message) (fst a1);
               REv (Ssh read_stop_invoked) (fst a2)])
  /\
  (fst a2 = false ->
   exists rest,
     rtrace r = REv (Ssh sftp_get_client_message) (fst a1)
                :: REv (Ssh read_stop_invoked) (fst a2)
                :: REv (Ssh (SSHProcess_exit_code (sshfs_process sess))) (fst a3)
                :: rest /\
     (fst a3 = Value 0 -> rest = [] /\ rvalue r = Finished sess) /\
     (forall e, fst a3 = Throw e -> e <> ExitlessSSHProcessException ->
                rest = [] /\ rvalue r = Uncaught e) /\
     (fst a3 = Throw ExitlessSSHProcessException \/
      (exists status, status <> 0 /\ fst a3 = Value status) ->
      exists rest', rest = REv findmnt (fst (rsys findmnt (snd a3))) :: rest')).
Proof.
  cbn zeta. cbn [SftpServer_run rbind ssh rexec rvalue rtrace].
  destruct (rsys (Ssh sftp_get_client_message) w) as [msg w1]. cbn [fst snd].
  intros Hmsg. cbn in Hmsg. subst msg. cbn [rbind rexec rvalue rtrace].
  destruct (rsys (Ssh read_stop_invoked) w1) as [stop w2]. cbn [fst snd].
  split; intros Hstop; cbn in Hstop; subst stop; cbn [rbind rexec rvalue rtrace];
    [split; reflexivity|].
  destruct (rsys (Ssh (SSHProcess_exit_code (sshfs_process sess))) w2) as [code w3].
  cbn [fst snd]. eexists. split; [reflexivity|].
  split; [|split].
  - intros Hcode. cbn in Hcode. subst code. cbn. split; reflexivity.
  - intros e Hcode Hne. cbn in Hcode. subst code. destruct e; cbn; try contradiction;
      split; reflexivity.
  - intros Hcode.
    assert (Hgo : forall status : Z, status <> 0 ->
      exists rest',
        rtrace (rexec
          (if negb (status =? 0)
           then rbind (recover sess)
                  (fun recovered => match recovered with
                                    | Value sess' => SftpServer_run fuel wfuel sess'
                                    | Throw e => RRet (Uncaught e)
                                    end)
           else RRet (Finished sess)) w3)
        = REv (Ssh (SSHSession_exec
                 ("findmnt --source :" ++ source_path (server sess) ++ "  -o TARGET -n")%string))
            (fst (rsys (Ssh (SSHSession_exec
                 ("findmnt --source :" ++ source_path (server sess) ++ "  -o TARGET -n")%string))
                    w3)) :: rest').
    { intros status Hne. apply Z.eqb_neq in Hne. rewrite Hne. cbn [negb].
      unfold recover, try_bind, ssh. cbn [rbind rexec rtrace]. eexists. reflexivity. }
    destruct Hcode as [Hcode|(status & Hne & Hcode)]; cbn in Hcode; subst code.
    + apply (Hgo 1). discriminate.
    + apply (Hgo status Hne).
Qed.

(** X24. The construction of a server, for every answer of the SSH
    layer.  The constructor starts sshfs with the escaped source and
    target paths; if that throws, so does the constructor.  It then
    checks the status of the process: it asks for the exit code, and,
    when the code is not 0, reads the error output in order to throw
    it as a [runtime_error].  The check passes when the exit code is 0,
    when the query of it times out ([ExitlessSSHProcessException]), and
    when the code is not 0 but the read of the error output times out;
    every other exception leaves the constructor.  After a check that
    passes, and only then, the SFTP session is made on the process; if
    that succeeds the server has the configuration given and no open
    handle, otherwise the exception leaves the constructor. *)
Theorem construction_checks_sshfs `{RunEnvironment} (source target : string)
    (gid_map uid_map : id_mappings) (uid gid : Z) (line : string) (w : rworld) :
  let r := rexec (SftpServer_new source target gid_map uid_map uid gid line) w in
  let start :=
    Ssh (SSHSession_exec
           ("sudo " ++ line ++ " :" ++ quoted (escape_char source double_quote)
            ++ " " ++ quoted (escape_char target double_quote))%string) in
  (exists e : thrown, rtrace r = [REv start (Throw e)] /\ rvalue r = Throw e)
  \/
  exists (process : Z) (status rest : list run_event) (checked : outcome unit),
    let exit_code := Ssh (SSHProcess_exit_code process) in
    let read_error := Ssh (SSHProcess_read_std_error process) in
    rtrace r = REv start (Value process) :: status ++ rest /\
    (* the status check *)
    ((status = [REv exit_code (Value 0)] /\ checked = Value tt)
     \/
     (status = [REv exit_code (Throw ExitlessSSHProcessException)] /\ checked = Value tt)
     \/
     (exists e : thrown,
        e <> ExitlessSSHProcessException /\
        status = [REv exit_code (Throw e)] /\ checked = Throw e)
     \/
     (exists code : Z,
        code <> 0 /\
        ((exists what : string,
            status = [REv exit_code (Value code); REv read_error (Value what)] /\
            checked = Throw (runtime_error what))
         \/
         (status = [REv exit_code (Value code);
                    REv read_error (Throw ExitlessSSHProcessException)] /\
          checked = Value tt)
         \/
         (exists e : thrown,
            e <> ExitlessSSHProcessException /\
            status = [REv exit_code (Value code); REv read_error (Throw e)] /\
            checked = Throw e)))) /\
    (* what follows it *)
    (forall e : thrown, checked = Throw e -> rest = [] /\ rvalue r = Throw e) /\
    (checked = Value tt ->
     exists made : outcome unit,
       rest = [REv (Ssh (make_sftp_session process)) made] /\
       (forall e : thrown, made = Throw e -> rvalue r = Throw e) /\
       (made = Value tt ->
        rvalue r = Value (mkSession (mkServer source target gid_map uid_map uid gid ∅ ∅)
                            line process))).
Proof.
  cbn zeta.
  unfold SftpServer_new, create_sshfs_process, check_sshfs_status, try_bind, ssh.
  cbn [rbind rexec rvalue rtrace].
  loop_step. destruct r as [process|e]; cbn [rbind rexec rvalue rtrace];
    [right|left; exists e; split; reflexivity].
  exists process.
  assert (Hpassed : forall (status : list run_event) (w1 : rworld),
    exists made : outcome unit,
      rtrace (rexec
                (rbind (RCall (Ssh (make_sftp_session process)) RRet)
                   (fun r => match r with
                             | Value _ =>
                                 RRet (Value (mkSession
                                                (mkServer source target gid_map uid_map uid gid
                                                   ∅ ∅) line process))
                             | Throw e => RRet (Throw e)
                             end)) w1)
      = [REv (Ssh (make_sftp_session process)) made] /\
      (forall e : thrown, made = Throw e ->
         rvalue (rexec
                   (rbind (RCall (Ssh (make_sftp_session process)) RRet)
                      (fun r => match r with
                                | Value _ =>
                                    RRet (Value (mkSession
                                                   (mkServer source target gid_map uid_map
                                                      uid gid ∅ ∅) line process))
                                | Throw e => RRet (Throw e)
                                end)) w1) = Throw e) /\
      (made = Value tt ->
         rvalue (rexec
                   (rbind (RCall (Ssh (make_sftp_session process)) RRet)
                      (fun r => match r with
                                | Value _ =>
                                    RRet (Value (mkSession
                                                   (mkServer source target gid_map uid_map
                                                      uid gid ∅ ∅) line process))
                                | Throw e => RRet (Throw e)
                                end)) w1)
         = Value (mkSession (mkServer source target gid_map uid_map uid gid ∅ ∅)
                    line process))).
  { intros _ w1. cbn [rbind rexec rvalue rtrace]. loop_step. exists r.
    destruct r as [[]|e]; cbn [rbind rexec rvalue rtrace].
    - split; [reflexivity|]. split; [discriminate|reflexivity].
    - split; [reflexivity|]. split; [intros e' [= <-]; reflexivity|discriminate]. }
  loop_step. destruct r as [code|e]; cbn [rbind rexec rvalue rtrace].
  - destruct (code =? 0) eqn:Hcode; cbn [negb rbind rexec rvalue rtrace].
    + apply Z.eqb_eq in Hcode. subst code.
      eexists [_], _, (Value tt). split; [reflexivity|].
      split; [left; split; reflexivity|]. split; [discriminate|]. intros _.
      apply (Hpassed []).
    + apply Z.eqb_neq in Hcode.
      loop_step. destruct r as [what|e]; cbn [rbind rexec rvalue rtrace].
      * exists [REv (Ssh (SSHProcess_exit_code process)) (Value code);
                REv (Ssh (SSHProcess_read_std_error process)) (Value what)],
          [], (Throw (runtime_error what)).
        split; [reflexivity|].
        split; [do 3 right; exists code; split; [exact Hcode|]; left; exists what;
                split; reflexivity|].
        split; [intros e [= <-]; split; reflexivity|discriminate].
      * destruct e; cbn [rbind rexec rvalue rtrace].
        -- eexists [_; _], _, (Value tt). split; [reflexivity|].
           split; [do 3 right; exists code; split; [exact Hcode|]; right; left;
                   split; reflexivity|].
           split; [discriminate|]. intros _. apply (Hpassed []).
        -- exists [REv (Ssh (SSHProcess_exit_code process)) (Value code);
                   REv (Ssh (SSHProcess_read_std_error process))
                     (Throw (runtime_error what))],
             [], (Throw (runtime_error what)).
           split; [reflexivity|].
           split; [do 3 right; exists code; split; [exact Hcode|]; right; right;
                   exists (runtime_error what); split; [discriminate|split; reflexivity]|].
           split; [intros e [= <-]; split; reflexivity|discriminate].
        -- exists [REv (Ssh (SSHProcess_exit_code process)) (Value code);
                   REv (Ssh (SSHProcess_read_std_error process)) (Throw other_exception)],
             [], (Throw other_exception).
           split; [reflexivity|].
           split; [do 3 right; exists code; split; [exact Hcode|]; right; right;
                   exists other_exception; split; [discriminate|split; reflexivity]|].
           split; [intros e [= <-]; split; reflexivity|discriminate].
  - destruct e; cbn [rbind rexec rvalue rtrace].
    + eexists [_], _, (Value tt). split; [reflexivity|].
      split; [right; left; split; reflexivity|]. split; [discriminate|]. intros _.
      apply (Hpassed []).
    + exists [REv (Ssh (SSHProcess_exit_code process)) (Throw (runtime_error what))],
        [], (Throw (runtime_error what)).
      split; [reflexivity|].
      split; [right; right; left; exists (runtime_error what);
              split; [discriminate|split; reflexivity]|].
      split; [intros e [= <-]; split; reflexivity|discriminate].
    + exists [REv (Ssh (SSHProcess_exit_code process)) (Throw other_exception)],
        [], (Throw other_exception).
      split; [reflexivity|].
      split; [right; right; left; exists other_exception;
              split; [discriminate|split; reflexivity]|].
      split; [intros e [= <-]; split; reflexivity|discriminate].
Qed.

(** X25. A recovery that succeeds does what the construction does, after
    it has unmounted what was mounted: it asks what is mounted from the
    source path, unmounts it if there is an answer, and then starts
    sshfs and makes the SFTP session exactly as the constructor does for
    the same paths and command line.  Unlike a construction it keeps the
    server, and with it the tables of open handles. *)
Theorem recovery_repeats_construction `{RunEnvironment} (sess sess' : Session) (w : rworld) :
  let s := server sess in
  let r := rexec (recover sess) w in
  rvalue r = Value sess' ->
  exists (proc : Z) (mount_path : string) (unmount : list run_event) (w' : rworld),
    let c := rexec (SftpServer_new (source_path s) (target_path s) (gid_mappings s)
                      (uid_mappings s) (default_uid s) (default_gid s)
                      (sshfs_exec_line sess)) w' in
    rtrace r =
      REv (Ssh (SSHSession_exec
             ("findmnt --source :" ++ source_path s ++ "  -o TARGET -n")%string))
        (Value proc)
      :: REv (Ssh (SSHProcess_read_std_output proc)) (Value mount_path)
      :: unmount ++ rtrace c /\
    (mount_path = "" -> unmount = []) /\
    (mount_path <> "" ->
     exists p, unmount = [REv (Ssh (SSHSession_exec ("sudo umount " ++ mount_path)%string))
                            (Value p)]) /\
    exists built,
      rvalue c = Value built /\
      sess' = mkSession s (sshfs_exec_line sess) (sshfs_process built).
Proof.
  cbn zeta.
  unfold recover, SftpServer_new, create_sshfs_process, check_sshfs_status, try_bind, ssh.
  cbn [rbind rexec rvalue rtrace].
  loop_step. destruct r as [proc|e]; cbn [rbind rexec rvalue rtrace]; [|discriminate].
  loop_step. destruct r as [mount_path|e]; cbn [rbind rexec rvalue rtrace]; [|discriminate].
  intros Hv; exists proc, mount_path; revert Hv.
  destruct mount_path as [|ch rest]; cbn [StdString.empty negb rbind rexec rvalue rtrace].
  - intros Hv; exists [], w1; revert Hv. cbn [app].
    loop_step. destruct r as [process|e]; cbn [rbind rexec rvalue rtrace]; [|discriminate].
    loop_step. destruct r as [code|e]; cbn [rbind rexec rvalue rtrace].
    + destruct (negb (code =? 0)); cbn [rbind rexec rvalue rtrace].
      * loop_step. destruct r as [what|[]]; cbn [rbind rexec rvalue rtrace]; try discriminate.
        loop_step. destruct r as [[]|e]; cbn [rbind rexec rvalue rtrace]; [|discriminate].
        intros [= <-]. split; [reflexivity|]. split; [reflexivity|].
        split; [congruence|]. eexists. split; reflexivity.
      * loop_step. destruct r as [[]|e]; cbn [rbind rexec rvalue rtrace]; [|discriminate].
        intros [= <-]. split; [reflexivity|]. split; [reflexivity|].
        split; [congruence|]. eexists. split; reflexivity.
    + destruct e; cbn [rbind rexec rvalue rtrace]; try discriminate.
      loop_step. destruct r as [[]|e]; cbn [rbind rexec rvalue rtrace]; [|discriminate].
      intros [= <-]. split; [reflexivity|]. split; [reflexivity|].
      split; [congruence|]. eexists. split; reflexivity.
  - loop_step. destruct r as [p|e]; cbn [rbind rexec rvalue rtrace]; [|discriminate].
    intros Hv;
      exists [REv (Ssh (SSHSession_exec ("sudo umount " ++ String ch rest)%string)) (Value p)], w2;
      revert Hv.
    cbn [app].
    loop_step. destruct r as [process|e]; cbn [rbind rexec rvalue rtrace]; [|discriminate].
    loop_step. destruct r as [code|e]; cbn [rbind rexec rvalue rtrace].
    + destruct (negb (code =? 0)); cbn [rbind rexec rvalue rtrace].
      * loop_step. destruct r as [what|[]]; cbn [rbind rexec rvalue rtrace]; try discriminate.
        loop_step. destruct r as [[]|e]; cbn [rbind rexec rvalue rtrace]; [|discriminate].
        intros [= <-]. split; [reflexivity|]. split; [discriminate|].
        split; [intros _; exists p; reflexivity|]. eexists. split; reflexivity.
      * loop_step. destruct r as [[]|e]; cbn [rbind rexec rvalue rtrace]; [|discriminate].
        intros [= <-]. split; [reflexivity|]. split; [discriminate|].
        split; [intros _; exists p; reflexivity|]. eexists. split; reflexivity.
    + destruct e; cbn [rbind rexec rvalue rtrace]; try discriminate.
      loop_step. destruct r as [[]|e]; cbn [rbind rexec rvalue rtrace]; [|discriminate].
      intros [= <-]. split; [reflexivity|]. split; [discriminate|].
      split; [intros _; exists p; reflexivity|]. eexists. split; reflexivity.
Qed.

End RunLoop.

(** A session that opens a file and then removes it, and ends when the
    server is stopped. *)
Lemma run_confined_witness :
  validate_path "/srv/share" "/srv/share/f" = true.
Proof.
  apply (@run_confined example_qt example_libssh example_sentinels example_escape
           (scripted true (Value 0) "" all_there) 3 0 (example_session "/srv/share")
           [example_open "/srv/share/f" 2; example_message SFTP_REMOVE "/srv/share/f" ""]
           (REv (Fs (FileOps_remove "/srv/share/f")) true)
           (FileOps_remove "/srv/share/f") "/srv/share/f").
  - reflexivity.
  - vm_compute. repeat (first [left; reflexivity | right]).
  - reflexivity.
  - left. reflexivity.
Defined.

Lemma run_keeps_configuration_witness :
  same_config (example_server "/srv/share" [] []) example_after_open /\
  "sshfs" = "sshfs".
Proof.
  apply (@run_keeps_configuration example_qt example_libssh example_sentinels example_escape
           (scripted true (Value 0) "" all_there) 3 0 (example_session "/srv/share")
           (mkSession example_after_open "sshfs" 7)
           [example_open "/srv/share/f" 2; example_message SFTP_REMOVE "/srv/share/f" ""]).
  reflexivity.
Defined.

(** No message, the server not stopped, and no exit code of sshfs within
    the time allowed: the recovery starts. *)
Lemma end_of_stream_witness :
  exists rest,
    rtrace (@rexec (scripted false (Throw ExitlessSSHProcessException) "/mnt" all_there) _
              (@SftpServer_run example_qt example_libssh example_sentinels example_escape
                 1 0 (example_session "/srv/share")) [])
    = [REv (Ssh sftp_get_client_message) None;
       REv (Ssh read_stop_invoked) false;
       REv (Ssh (SSHProcess_exit_code 7)) (Throw ExitlessSSHProcessException);
       REv (Ssh (SSHSession_exec "findmnt --source :/srv/share  -o TARGET -n")) (Value 7)]
      ++ rest.
Proof.
  destruct (@end_of_stream example_qt example_libssh example_sentinels example_escape
              (scripted false (Throw ExitlessSSHProcessException) "/mnt" all_there)
              0 0 (example_session "/srv/share") [] eq_refl) as [_ Hrun].
  destruct (Hrun eq_refl) as (rest & Htrace & _ & _ & Hrecover).
  destruct (Hrecover (or_introl eq_refl)) as [rest' Hrest].
  exists rest'. rewrite Htrace, Hrest. reflexivity.
Defined.

(** A construction in which sshfs reports no exit code in time: the
    check passes and the session is made. *)
Lemma construction_on_timeout :
  let r := @rexec (scripted false (Throw ExitlessSSHProcessException) "" all_there) _
             (@SftpServer_new example_escape "/srv/share" "/mnt" [] [] 500 500 "sshfs") [] in
  rvalue r = Value (example_session "/srv/share") /\
  rtrace r =
    [REv (Ssh (SSHSession_exec
            ("sudo sshfs :" ++ quoted "/srv/share" ++ " " ++ quoted "/mnt")%string))
       (Value 7);
     REv (Ssh (SSHProcess_exit_code 7)) (Throw ExitlessSSHProcessException);
     REv (Ssh (make_sftp_session 7)) (Value tt)].
Proof. split; reflexivity. Qed.

(** A recovery with the share mounted at [/mnt]. *)
Lemma recovery_repeats_construction_witness :
  exists (proc : Z) (mount_path : string) (unmount : list run_event)
         (w' : list sftp_client_message),
    rtrace (@rexec (scripted false (Value 0) "/mnt" all_there) _
              (@recover example_escape (example_session "/srv/share")) [])
    = REv (Ssh (SSHSession_exec "findmnt --source :/srv/share  -o TARGET -n")) (Value proc)
      :: REv (Ssh (SSHProcess_read_std_output proc)) (Value mount_path)
      :: unmount
         ++ rtrace (@rexec (scripted false (Value 0) "/mnt" all_there) _
                      (@SftpServer_new example_escape "/srv/share" "/mnt" [] [] 500 500
                         "sshfs") w').
Proof.
  destruct (@recovery_repeats_construction example_escape
              (scripted false (Value 0) "/mnt" all_there)
              (example_session "/srv/share") (example_session "/srv/share") [] eq_refl)
    as (proc & mount_path & unmount & w' & Htrace & _).
  exists proc, mount_path, unmount, w'. exact Htrace.
Defined.
